(** * Grocery analysis dashboard: the aggregation and search pipelines

    A shallow embedding of the data pipeline of
    [src/GroceryAnalysisFreeside2025.tsx] ([processData]) and of
    [src/Search.tsx] ([loadData], [handleSearch], [renderResults]).

    Modelling conventions.
    - A parsed CSV cell is a [jsval]: a string, a number, a boolean or
      [null] (what the delimited-text parser yields with type inference);
      [undefined] is the value of a property that is missing.
    - Numbers are IEEE 754 doubles, the primitive floats of the kernel:
      [+], [*] and [/] round as the processor does, [0 / 0] is [NaN] and
      [x / 0] an infinity.  [float_value] gives the rational a finite double
      stands for.
    - [Number_toString] writes the shortest digits that read back as the
      double, in the layout of [Number::toString] (exponents below 1e-6 and
      from 1e21 on); [toFixed] rounds the exact binary value and hands
      over to [Number_toString] from 1e21 on.
    - Strings are sequences of code units in the range 0..255.
    - A JavaScript object used as a dictionary is an association list of
      its own properties in insertion order ([obj]); a lookup that finds no
      own property goes on to [Object.prototype] ([lookup]), whose members
      ([constructor], [toString], [__proto__], ...) are all truthy.
      [Object_entries] lists the array-index keys first, in ascending
      numeric order, then the other keys in insertion order.
    - A count of records is a natural number; [Number_of_nat] is the double
      that [count++] reaches from 0.
    - [Array.prototype.sort] is a stable sort driven by the sign of the
      comparator, a [NaN] counting as 0.  (With a comparator that is not
      consistent the language leaves the order to the host; only the
      comparators by count and by collation are relied on for an order.)
    - [String.prototype.localeCompare] belongs to the host: it is a variable
      of the sections that use it, assumed to be a total preorder where a
      proof needs it.
    - The modules are strict code: a write to a property of a primitive
      value raises a TypeError.
    - [processData] runs with the standard members of [Object.prototype]
      only: the page mounts the dashboard alone, and what [processData]
      itself adds there (under a key that reads [__proto__]) is [NaN], as
      falsy as a missing member.  The history loop of the search can add a
      truthy member [quantity]; the search state carries that member
      ([protoQuantity]). *)

From Stdlib Require Import List String Ascii Bool Arith ZArith QArith Qround Qabs.
From Stdlib Require Import Lia Lqa Permutation Sorted DecimalString.
From Stdlib Require Import PrimFloat FloatOps SpecFloat FloatAxioms.
From Stdlib Require Import DecimalN.
Import ListNotations.

Set Warnings "-inexact-float".

Local Open Scope string_scope.
Local Open Scope Q_scope.

(** ** JavaScript values and coercions *)

Module JS.

Inductive jsval : Type :=
| VStr (s : string)
| VNum (x : float)
| VBool (b : bool)
| VNull
| VUndefined.

(** The numbers that [ToBoolean] sends to [false]: the zeros and [NaN]. *)
Definition falsy_number (x : float) : bool := is_zero x || is_nan x.

(** [ToBoolean]: the empty string, the zeros, [NaN], [false], [null] and
    [undefined] are falsy. *)
Definition truthy (v : jsval) : bool :=
  match v with
  | VStr s => negb (s =? "")%string
  | VNum x => negb (falsy_number x)
  | VBool b => b
  | VNull => false
  | VUndefined => false
  end.

(** [v === "lit"] for a string literal. *)
Definition strict_eq_str (v : jsval) (lit : string) : bool :=
  match v with VStr s => (s =? lit)%string | _ => false end.

(** *** Decimal digits *)

Definition string_of_nonneg (z : Z) : string :=
  NilZero.string_of_uint (N.to_uint (Z.to_N z)).

Fixpoint zeros (n : nat) : string :=
  match n with O => "" | S n' => String "0" (zeros n') end.

(** *** The exact value of a double *)

Definition pow2 (e : Z) : Q :=
  if (0 <=? e)%Z then inject_Z (2 ^ e) else 1 / inject_Z (2 ^ (- e)).

Definition pow10 (e : Z) : Q :=
  if (0 <=? e)%Z then inject_Z (10 ^ e) else 1 / inject_Z (10 ^ (- e)).

(** The rational a finite double stands for; zero for the others. *)
Definition float_value (x : float) : Q :=
  match Prim2SF x with
  | S754_finite s m e => (if s then -1 else 1) * (inject_Z (Zpos m) * pow2 e)
  | _ => 0
  end.

Definition Qlt_bool (a b : Q) : bool := negb (Qle_bool b a).

(** *** [Number::toString]: the shortest digits that read back as the
    double *)

(** The decimal exponent [n] of [v > 0]: [10^(n-1) <= v < 10^n]. *)
Fixpoint settle (fuel : nat) (v : Q) (n : Z) : Z :=
  match fuel with
  | O => n
  | S fuel' =>
      if Qlt_bool v (pow10 (n - 1)) then settle fuel' v (n - 1)
      else if Qle_bool (pow10 n) v then settle fuel' v (n + 1)
      else n
  end.

Definition decimal_exponent (m : positive) (e : Z) : Z :=
  settle 8 (inject_Z (Zpos m) * pow2 e)
         (((Z.log2 (Zpos m) + e) * 30103) / 100000 + 1).

(** The reals between [lo] and [hi] round to the double [m * 2^e]; the
    bounds themselves do when [m] is even. *)
Definition rounds_to (m : positive) (e : Z) (c : Q) : bool :=
  let hi := inject_Z (2 * Zpos m + 1) * pow2 (e - 1) in
  let lo :=
    if ((Zpos m =? 2 ^ 52) && (-1074 <? e))%Z
    then inject_Z (4 * Zpos m - 1) * pow2 (e - 2)
    else inject_Z (2 * Zpos m - 1) * pow2 (e - 1) in
  if Z.even (Zpos m)
  then Qle_bool lo c && Qle_bool c hi
  else Qlt_bool lo c && Qlt_bool c hi.

(** The [k]-digit decimal next to [m * 2^e], if one reads back as the
    double: its digits [s] and its decimal exponent. *)
Definition candidate (m : positive) (e : Z) (n : Z) (k : Z) : option (Z * Z) :=
  let v := inject_Z (Zpos m) * pow2 e in
  let scale := pow10 (n - k) in
  let s := Qfloor (v / scale) in
  let below := inject_Z s * scale in
  let above := inject_Z (s + 1) * scale in
  let pick_above :=
    if (s + 1 =? 10 ^ k)%Z then (10 ^ (k - 1), n + 1)%Z else (s + 1, n)%Z in
  match rounds_to m e below, rounds_to m e above with
  | true, true =>
      if Qlt_bool (v - below) (above - v) then Some (s, n)
      else if Qlt_bool (above - v) (v - below) then Some pick_above
      else if Z.even s then Some (s, n) else Some pick_above
  | true, false => Some (s, n)
  | false, true => Some pick_above
  | false, false => None
  end.

(** The least number of digits that will do; seventeen always do. *)
Fixpoint shortest (fuel : nat) (m : positive) (e : Z) (n : Z) (k : Z)
  : Z * Z * Z :=
  match fuel with
  | O => (Zpos m, n, k)
  | S fuel' =>
      match candidate m e n k with
      | Some (s, n') => (s, n', k)
      | None => shortest fuel' m e n (k + 1)
      end
  end.

(** The layout of the digits [s] ([k] of them) with decimal exponent [n]. *)
Definition layout (s n k : Z) : string :=
  let ds := string_of_nonneg s in
  if ((k <=? n) && (n <=? 21))%Z then ds ++ zeros (Z.to_nat (n - k))
  else if ((0 <? n) && (n <=? 21))%Z then
    substring 0 (Z.to_nat n) ds ++ "."
      ++ substring (Z.to_nat n) (Z.to_nat (k - n)) ds
  else if ((-6 <? n) && (n <=? 0))%Z then "0." ++ zeros (Z.to_nat (- n)) ++ ds
  else
    let ex := (n - 1)%Z in
    (if (k =? 1)%Z then ds
     else substring 0 1 ds ++ "." ++ substring 1 (Z.to_nat (k - 1)) ds)
      ++ "e" ++ (if (0 <=? ex)%Z then "+" else "-")
      ++ string_of_nonneg (Z.abs ex).

Definition Number_toString (x : float) : string :=
  match Prim2SF x with
  | S754_nan => "NaN"
  | S754_zero _ => "0"
  | S754_infinity s => if s then "-Infinity" else "Infinity"
  | S754_finite sign m e =>
      let '(s, n, k) := shortest 17 m e (decimal_exponent m e) 1 in
      (if sign then "-" else "") ++ layout s n k
  end.

(** [ToString], as applied by a template literal, by [toString()] and by a
    property access with a computed key. *)
Definition ToString (v : jsval) : string :=
  match v with
  | VStr s => s
  | VNum x => Number_toString x
  | VBool true => "true"
  | VBool false => "false"
  | VNull => "null"
  | VUndefined => "undefined"
  end.

(** [ToNumber] on the values that are not strings; a string is handled by
    [js_add]. *)
Definition ToNumber (v : jsval) : float :=
  match v with
  | VNum x => x
  | VBool true => 1
  | VBool false => 0
  | VNull => 0
  | _ => nan
  end.

(** The binary [+]: concatenation as soon as one operand is a string,
    the addition of doubles otherwise. *)
Definition js_add (a b : jsval) : jsval :=
  match a, b with
  | VStr _, _ | _, VStr _ => VStr (ToString a ++ ToString b)
  | _, _ => VNum (ToNumber a + ToNumber b)
  end.

(** A count as a number: what [count++] reaches from 0. *)
Fixpoint Number_of_nat (n : nat) : float :=
  match n with
  | O => 0
  | S n' => Number_of_nat n' + 1
  end.

(** *** [Number.prototype.toFixed] *)

(** The integer [n] for which [n / 10^f] is closest to [x >= 0], the larger
    one on a tie. *)
Definition round_scaled (f : nat) (x : Q) : Z :=
  Qfloor (x * inject_Z (10 ^ Z.of_nat f) + (1 # 2)).

(** The digits of [n], left-padded with zeros to more than [f] digits, with
    a point before the last [f] of them. *)
Definition fixed_digits (f : nat) (n : Z) : string :=
  let ds := string_of_nonneg n in
  let ds := zeros (S f - String.length ds) ++ ds in
  let k := (String.length ds - f)%nat in
  match f with
  | O => ds
  | _ => substring 0 k ds ++ "." ++ substring k f ds
  end.

Definition toFixed (f : nat) (x : float) : string :=
  if is_nan x then "NaN"
  else if (1e21 <=? abs x)%float then Number_toString x
  else (if (x <? 0)%float then "-" else "")
         ++ fixed_digits f (round_scaled f (Qabs (float_value x))).

(** *** Strings *)

Definition is_upper (c : ascii) : bool :=
  let n := nat_of_ascii c in
  ((65 <=? n) && (n <=? 90) || (192 <=? n) && (n <=? 222) && negb (n =? 215))%nat.

Definition lower_char (c : ascii) : ascii :=
  if is_upper c then ascii_of_nat (nat_of_ascii c + 32) else c.

Fixpoint toLowerCase (s : string) : string :=
  match s with
  | "" => ""
  | String c s' => String (lower_char c) (toLowerCase s')
  end.

Definition is_space (c : ascii) : bool :=
  let n := nat_of_ascii c in
  ((9 <=? n) && (n <=? 13) || (n =? 32) || (n =? 160))%nat.

Fixpoint trim_start (s : string) : string :=
  match s with
  | "" => ""
  | String c s' => if is_space c then trim_start s' else s
  end.

Fixpoint rev_string (s : string) : string :=
  match s with
  | "" => ""
  | String c s' => rev_string s' ++ String c ""
  end.

Definition trim (s : string) : string :=
  rev_string (trim_start (rev_string (trim_start s))).

(** [s.includes(pat)]. *)
Fixpoint includes (pat s : string) : bool :=
  prefix pat s
  || match s with
     | "" => false
     | String _ s' => includes pat s'
     end.

(** *** Objects used as dictionaries *)

(** The own properties, in insertion order. *)
Definition obj (V : Type) : Type := list (string * V).

(** The functions that every object inherits from [Object.prototype]. *)
Definition inherited_functions : list string :=
  ["constructor"; "__defineGetter__"; "__defineSetter__"; "hasOwnProperty";
   "__lookupGetter__"; "__lookupSetter__"; "isPrototypeOf";
   "propertyIsEnumerable"; "toString"; "valueOf"; "toLocaleString"].

Definition is_inherited_function (k : string) : bool :=
  existsb (String.eqb k) inherited_functions.

(** The names that [Object.prototype] answers to: its functions, and
    [__proto__], an accessor that gives [Object.prototype] itself. *)
Definition inherited (k : string) : bool :=
  (k =? "__proto__")%string || is_inherited_function k.

(** What [o[k]] finds. *)
Inductive slot (V : Type) : Type :=
| Own (v : V)
| Inherited
| Missing.

Arguments Own {V} v.
Arguments Inherited {V}.
Arguments Missing {V}.

Section Objects.
Context {V : Type}.

(** The own property [k], if there is one. *)
Fixpoint get (k : string) (o : obj V) : option V :=
  match o with
  | [] => None
  | (k', v) :: o' => if (k' =? k)%string then Some v else get k o'
  end.

(** [o[k]]: the own property, else the member of [Object.prototype], else
    [undefined]. *)
Definition lookup (k : string) (o : obj V) : slot V :=
  match get k o with
  | Some v => Own v
  | None => if inherited k then Inherited else Missing
  end.

(** The definition of the own property [k]: an existing key keeps its
    place, a new one goes last. *)
Fixpoint set (k : string) (v : V) (o : obj V) : obj V :=
  match o with
  | [] => [(k, v)]
  | (k', v') :: o' =>
      if (k' =? k)%string then (k, v) :: o' else (k', v') :: set k v o'
  end.

(** [o[k] = v] for a primitive [v]: under [__proto__] the assignment goes
    to the setter of [Object.prototype], which ignores a value that is not
    an object; under another name it defines the own property. *)
Definition assign (k : string) (v : V) (o : obj V) : obj V :=
  if (k =? "__proto__")%string then o else set k v o.

(** An in-place update of the object stored under the own property [k];
    without an own property the object that is updated is not one of the
    dictionary's, and the dictionary stays as it is. *)
Fixpoint modify (k : string) (f : V -> V) (o : obj V) : obj V :=
  match o with
  | [] => []
  | (k', v') :: o' =>
      if (k' =? k)%string then (k', f v') :: o' else (k', v') :: modify k f o'
  end.
End Objects.

Definition is_digit (c : ascii) : bool :=
  let n := nat_of_ascii c in ((48 <=? n) && (n <=? 57))%nat.

Fixpoint digits_value (s : string) (acc : N) : option N :=
  match s with
  | "" => Some acc
  | String c s' =>
      if is_digit c
      then digits_value s' (acc * 10 + (N.of_nat (nat_of_ascii c) - 48))%N
      else None
  end.

(** An array index: a canonical numeric string below [2^32 - 1]. *)
Definition array_index (s : string) : option N :=
  match s with
  | "" => None
  | String c s' =>
      if (c =? "0")%char && negb (s' =? "")%string then None
      else match digits_value s 0 with
           | Some n => if (n <? 4294967295)%N then Some n else None
           | None => None
           end
  end.

Definition is_array_index (s : string) : bool :=
  match array_index s with Some _ => true | None => false end.

Definition index_of (s : string) : N :=
  match array_index s with Some n => n | None => 0%N end.

(** *** Sorting *)

Section Sorting.
Context {A : Type} (le : A -> A -> bool).

Fixpoint insert (x : A) (l : list A) : list A :=
  match l with
  | [] => [x]
  | y :: l' => if le x y then x :: l else y :: insert x l'
  end.

(** Stable: an element stays in front of the later ones it ties with. *)
Definition isort (l : list A) : list A := fold_right insert [] l.
End Sorting.

(** The sign that [sort] reads off the number a comparator returns; [NaN]
    counts as 0. *)
Definition comparator_sign (x : float) : Z :=
  if (0 <? x)%float then 1%Z else if (x <? 0)%float then (-1)%Z else 0%Z.

(** [arr.sort(cmp)], given the sign of the comparator: [a] stays before [b]
    unless [cmp a b > 0]. *)
Definition Array_sort {A : Type} (cmp : A -> A -> Z) (arr : list A) : list A :=
  isort (fun a b => (cmp a b <=? 0)%Z) arr.

(** [Object.entries(o)]: the array-index keys in ascending order, then the
    other keys in insertion order. *)
Definition Object_entries {V : Type} (o : obj V) : list (string * V) :=
  isort (fun a b => (index_of (fst a) <=? index_of (fst b))%N)
        (filter (fun e => is_array_index (fst e)) o)
  ++ filter (fun e => negb (is_array_index (fst e))) o.

Definition Object_keys {V : Type} (o : obj V) : list string :=
  map fst (Object_entries o).

Definition Object_values {V : Type} (o : obj V) : list V :=
  map snd (Object_entries o).

End JS.

Import JS.

(** ** The record normalizer ([processData] lines 46-60, [loadData]) *)

Module Normalizer.

(** A cleaned row; [Total] is a number by construction. *)
Record item : Type := mkItem {
  Date : jsval;
  Store : jsval;
  Category : jsval;
  Item : jsval;
  Quantity : jsval;
  Unit : jsval;
  Price : jsval;
  Total : float
}.

(** The body of the [forEach] over the parsed rows: [None] is an early
    [return], [Some it] a [push]. *)
Definition cleanRow (row : list jsval) : option item :=
  if (List.length row <? 8)%nat then None
  else
    match row with
    | date :: store :: category :: itm :: quantity :: unit :: price :: total :: _ =>
        match total with
        | VNum t => Some (mkItem date store category itm quantity unit price t)
        | _ => None
        end
    | _ => None
    end.

Definition cleanedData (rows : list (list jsval)) : list item :=
  fold_left
    (fun cleaned row =>
       match cleanRow row with
       | Some it => (cleaned ++ [it])%list
       | None => cleaned
       end)
    rows [].

End Normalizer.

Import Normalizer.

(** ** The aggregation pipeline ([processData] lines 64-171) *)

Module Aggregation.

(** What a dictionary of amounts holds under a key: a number or, once an
    amount has been added to a function inherited from [Object.prototype],
    a string, the source text of the function [member] followed by
    [tail], the amounts written one after the other. *)
Inductive tally : Type :=
| Num (x : float)
| Text (member : string) (tail : string).

Definition truthy_tally (v : tally) : bool :=
  match v with
  | Num x => negb (falsy_number x)
  | Text _ _ => true
  end.

(** [ToNumber]: the source text of a function is not a numeric string. *)
Definition number_of (v : tally) : float :=
  match v with
  | Num x => x
  | Text _ _ => nan
  end.

(** A row of the category and of the store summary. *)
Module Share.
Record t : Type := mk { name : string; value : tally; percentage : string }.
End Share.

Module Month.
Record t : Type := mk { month : string; spent : tally }.
End Month.

(** The per-item accumulator. *)
Module Stats.
Record t : Type := mk { count : nat; total : float; category : jsval }.
End Stats.

Module TopItem.
Record t : Type := mk {
  name : string; count : nat; total : float; category : jsval; avgPrice : string
}.
End TopItem.

Module Trip.
Record t : Type := mk { total : float; items : nat }.
End Trip.

Module Overall.
Record t : Type := mk {
  totalSpent : float; avgPerTrip : float; totalTrips : nat; totalItems : nat
}.
End Overall.

(** [cleanedData.reduce((sum, item) => sum + item.Total, 0)]. *)
Definition sumTotal (cleaned : list item) : float :=
  fold_left (fun sum it => (sum + Total it)%float) cleaned 0%float.

(** [if (!o[k]) o[k] = 0; o[k] += amount].  A missing entry, a zero and a
    [NaN] are falsy; a member of [Object.prototype] is truthy, and the sum
    of a function and a number is a string. *)
Definition add_spend (k : string) (amount : float) (o : obj tally) : obj tally :=
  let o :=
    match lookup k o with
    | Own v => if truthy_tally v then o else assign k (Num 0) o
    | Inherited => o
    | Missing => assign k (Num 0) o
    end in
  match lookup k o with
  | Own (Num x) => assign k (Num (x + amount)) o
  | Own (Text member tail) =>
      assign k (Text member (tail ++ Number_toString amount)) o
  | Inherited => assign k (Text k (Number_toString amount)) o
  | Missing => assign k (Num nan) o
  end.

Definition categories (cleaned : list item) : obj tally :=
  fold_left
    (fun cats it =>
       if negb (strict_eq_str (Category it) "CRV")
       then add_spend (ToString (Category it)) (Total it) cats
       else cats)
    cleaned [].

Definition share_of (cleaned : list item) (e : string * tally) : Share.t :=
  let '(name, spent) := e in
  Share.mk name spent
           (toFixed 1 (number_of spent * 100 / sumTotal cleaned)%float).

(** [(a, b) => b.value - a.value]. *)
Definition by_value_desc (a b : Share.t) : Z :=
  comparator_sign (number_of (Share.value b) - number_of (Share.value a)).

Definition categoryArray (cleaned : list item) : list Share.t :=
  Array_sort by_value_desc
    (map (share_of cleaned) (Object_entries (categories cleaned))).

Definition stores (cleaned : list item) : obj tally :=
  fold_left
    (fun sts it => add_spend (ToString (Store it)) (Total it) sts)
    cleaned [].

Definition storeArray (cleaned : list item) : list Share.t :=
  Array_sort by_value_desc
    (map (share_of cleaned) (Object_entries (stores cleaned))).

Definition months (cleaned : list item) : obj tally :=
  fold_left
    (fun ms it =>
       match Date it with
       | VStr d =>
           if includes "-" d
           then add_spend (substring 0 7 d) (Total it) ms
           else ms
       | _ => ms
       end)
    cleaned [].

(** The per-item table: a first sight creates the accumulator, then the
    count and the total are bumped in place.  Under a name that
    [Object.prototype] answers to nothing is created, and the two updates
    land on the inherited member. *)
Definition count_item (its : obj Stats.t) (row : item) : obj Stats.t :=
  if negb (strict_eq_str (Category row) "CRV") then
    let k := ToString (Item row) in
    let its :=
      match lookup k its with
      | Missing => set k (Stats.mk 0 0 (Category row)) its
      | _ => its
      end in
    let its :=
      modify k (fun s => Stats.mk (S (Stats.count s)) (Stats.total s)
                                  (Stats.category s)) its in
    modify k (fun s => Stats.mk (Stats.count s) (Stats.total s + Total row)
                                (Stats.category s)) its
  else its.

Definition items (cleaned : list item) : obj Stats.t :=
  fold_left count_item cleaned [].

Definition top_of (e : string * Stats.t) : TopItem.t :=
  let '(name, stats) := e in
  TopItem.mk name (Stats.count stats) (Stats.total stats) (Stats.category stats)
         (toFixed 2 (Stats.total stats / Number_of_nat (Stats.count stats))%float).

(** [(a, b) => b.count - a.count]. *)
Definition by_count_desc (a b : TopItem.t) : Z :=
  (Z.of_nat (TopItem.count b) - Z.of_nat (TopItem.count a))%Z.

Definition itemArray (cleaned : list item) : list TopItem.t :=
  firstn 10
    (Array_sort by_count_desc
       (map top_of
          (filter (fun e => negb (strict_eq_str (Stats.category (snd e)) "CRV"))
                  (Object_entries (items cleaned))))).

Definition trip_step (ts : obj Trip.t) (it : item) : obj Trip.t :=
  let tripKey := ToString (Date it) in
  let ts :=
    match lookup tripKey ts with
    | Missing => set tripKey (Trip.mk 0 0) ts
    | _ => ts
    end in
  let ts :=
    modify tripKey (fun t => Trip.mk (Trip.total t + Total it) (Trip.items t)) ts in
  modify tripKey (fun t => Trip.mk (Trip.total t) (S (Trip.items t))) ts.

Definition trips (cleaned : list item) : obj Trip.t :=
  fold_left trip_step cleaned [].

Definition stats (cleaned : list item) : Overall.t :=
  let totalSpent := sumTotal cleaned in
  let totalTrips := List.length (Object_keys (trips cleaned)) in
  Overall.mk totalSpent
             (totalSpent / Number_of_nat totalTrips)
             totalTrips
             (List.length cleaned).

Section Collation.
Variable localeCompare : string -> string -> Z.

Definition by_month (a b : Month.t) : Z :=
  localeCompare (Month.month a) (Month.month b).

Definition monthArray (cleaned : list item) : list Month.t :=
  Array_sort by_month
    (map (fun e : string * tally => let '(month, spent) := e in Month.mk month spent)
         (Object_entries (months cleaned))).

(** The state of the dashboard after [processData]. *)
Record dashboard : Type := mkDashboard {
  data : list item;
  categoryData : list Share.t;
  storeData : list Share.t;
  monthlyData : list Month.t;
  topItems : list TopItem.t;
  overall : Overall.t
}.

Definition processData (rows : list (list jsval)) : dashboard :=
  let cleaned := cleanedData rows in
  mkDashboard cleaned (categoryArray cleaned) (storeArray cleaned)
              (monthArray cleaned) (itemArray cleaned) (stats cleaned).
End Collation.

End Aggregation.


(** ** The search pipeline ([Search.tsx]) *)

Module Search.

Module History.
Record t : Type := mk { date : string; quantity : jsval; total : float }.
End History.

Module PricePoint.
Record t : Type := mk { date : string; price : jsval }.
End PricePoint.

(** The component's state, one field per [useState], and the one thing a
    search can leave behind outside of it: [protoQuantity] is the member
    [quantity] of [Object.prototype], [undefined] in a fresh page, which the
    history loop writes when a result is dated [__proto__]. *)
Record state : Type := mkState {
  data : list item;
  searchTerm : string;
  searchResults : list item;
  totalSpent : float;
  purchaseHistory : list History.t;
  priceHistory : list PricePoint.t;
  loading : bool;
  protoQuantity : jsval
}.

Definition initial : state := mkState [] "" [] 0 [] [] false VUndefined.

(** [loadData], given the rows the parser returned. *)
Definition loadData (rows : list (list jsval)) (st : state) : state :=
  mkState (cleanedData rows) (searchTerm st) (searchResults st) (totalSpent st)
          (purchaseHistory st) (priceHistory st) false (protoQuantity st).

Definition setSearchTerm (s : string) (st : state) : state :=
  mkState (data st) s (searchResults st) (totalSpent st)
          (purchaseHistory st) (priceHistory st) (loading st) (protoQuantity st).

(** [item.Item && item.Item.toString().toLowerCase().includes(term)]. *)
Definition matches (term : string) (it : item) : bool :=
  truthy (Item it) && includes term (toLowerCase (ToString (Item it))).

(** [item.Quantity || 1]. *)
Definition quantity_or_1 (it : item) : jsval :=
  if truthy (Quantity it) then Quantity it else VNum 1.

(** The two updates of the entry of a date. *)
Definition record_purchase (date : string) (it : item) (h : obj History.t)
  : obj History.t :=
  let h :=
    modify date
      (fun e => History.mk (History.date e)
                           (js_add (History.quantity e) (quantity_or_1 it))
                           (History.total e)) h in
  modify date
    (fun e => History.mk (History.date e) (History.quantity e)
                         (History.total e + Total it)) h.

(** The body of the loop that fills [historyByDate], on the member
    [quantity] of [Object.prototype] and the dictionary; [None] for the
    dictionary once a TypeError has ended the loop.
    - A date with an entry of its own updates the entry.
    - Under [__proto__] the lookup gives [Object.prototype]: no entry is
      made and the quantity is added to its member [quantity] (and the
      Total to its member [total], which is [NaN] from then on and as
      falsy as a missing one).
    - Under the name of an inherited function no entry is made and the
      updates land on the function.
    - Under [quantity], when [Object.prototype] has a truthy member of
      that name, the lookup gives that primitive value, and the write to
      its property is a TypeError.
    - Any other date gets a new entry. *)
Definition history_step (acc : jsval * option (obj History.t)) (it : item)
  : jsval * option (obj History.t) :=
  match acc with
  | (pq, None) => acc
  | (pq, Some h) =>
      match Date it with
      | VStr date =>
          match lookup date h with
          | Own _ => (pq, Some (record_purchase date it h))
          | Inherited =>
              if (date =? "__proto__")%string
              then (js_add pq (quantity_or_1 it), Some h)
              else (pq, Some h)
          | Missing =>
              if (date =? "quantity")%string && truthy pq then (pq, None)
              else (pq, Some (record_purchase date it
                                (set date (History.mk date (VNum 0) 0) h)))
          end
      | _ => acc
      end
  end.

Definition historyByDate (pq : jsval) (results : list item)
  : jsval * option (obj History.t) :=
  fold_left history_step results (pq, Some []).

(** A date that [!priceByDate[date]] takes for present although the
    dictionary has no entry for it. *)
Definition shadowed (pq : jsval) (date : string) : bool :=
  inherited date || ((date =? "quantity")%string && truthy pq).

(** The first price seen on a date stays. *)
Definition price_step (pq : jsval) (p : obj PricePoint.t) (it : item)
  : obj PricePoint.t :=
  match Date it with
  | VStr date =>
      if truthy (Price it) && truthy (Quantity it) then
        match get date p with
        | Some _ => p
        | None =>
            if shadowed pq date then p
            else set date (PricePoint.mk date (Price it)) p
        end
      else p
  | _ => p
  end.

Definition priceByDate (pq : jsval) (results : list item) : obj PricePoint.t :=
  fold_left (price_step pq) results [].

Section Collation.
Variable localeCompare : string -> string -> Z.

Definition historyArray (h : obj History.t) : list History.t :=
  Array_sort
    (fun a b => localeCompare (History.date a) (History.date b))
    (Object_values h).

Definition priceArray (pq : jsval) (results : list item) : list PricePoint.t :=
  Array_sort
    (fun a b => localeCompare (PricePoint.date a) (PricePoint.date b))
    (Object_values (priceByDate pq results)).

(** [handleSearch].  When the history loop raises a TypeError the handler
    ends there: the results and the total have been set, the two histories
    keep what an earlier search left. *)
Definition handleSearch (st : state) : state :=
  if (trim (searchTerm st) =? "")%string then st
  else
    let term := toLowerCase (searchTerm st) in
    let results := filter (matches term) (data st) in
    let total := fold_left (fun sum it => (sum + Total it)%float) results 0%float in
    match historyByDate (protoQuantity st) results with
    | (pq, Some h) =>
        mkState (data st) (searchTerm st) results total
                (historyArray h) (priceArray pq results) (loading st) pq
    | (pq, None) =>
        mkState (data st) (searchTerm st) results total
                (purchaseHistory st) (priceHistory st) (loading st) pq
    end.
End Collation.

End Search.

(** ** Presentation ([formatCurrency], [renderResults]) *)

Module View.

(** [formatCurrency] on a number. *)
Definition formatCurrency (x : float) : string := "$" ++ toFixed 2 x.

(** [formatCurrency] on a cell of a record: only a number has a [toFixed]
    method, on any other value the call raises a TypeError ([None]). *)
Definition formatCurrency_cell (v : jsval) : option string :=
  match v with
  | VNum x => Some (formatCurrency x)
  | _ => None
  end.

(** A row of the purchase details table. *)
Module Detail.
Record t : Type := mk {
  date : jsval; store : jsval; name : jsval; quantity : jsval; unit : jsval;
  price : string; total : string
}.
End Detail.

Definition detail_of (it : item) : option Detail.t :=
  match formatCurrency_cell (Price it) with
  | Some price =>
      Some (Detail.mk (Date it) (Store it) (Item it) (Quantity it) (Unit it)
                      price (formatCurrency (Total it)))
  | None => None
  end.

(** [searchResults.map(...)]: an exception in one row aborts the render. *)
Fixpoint details_of (results : list item) : option (list Detail.t) :=
  match results with
  | [] => Some []
  | it :: rest =>
      match detail_of it, details_of rest with
      | Some d, Some ds => Some (d :: ds)
      | _, _ => None
      end
  end.

(** What [renderResults] shows: the no-results message, nothing, or the
    results with the three figures, the chart of the purchase history (when
    there is one) and the details table. *)
Inductive results_view : Type :=
| NoResults (term : string)
| Blank
| Found (purchases : nat) (spent avg : string)
        (chart : option (list Search.History.t)) (details : list Detail.t).

Definition renderResults (st : Search.state) : option results_view :=
  let n := List.length (Search.searchResults st) in
  if (n =? 0)%nat && negb (Search.searchTerm st =? "")%string
  then Some (NoResults (Search.searchTerm st))
  else if (n =? 0)%nat then Some Blank
  else
    match details_of (Search.searchResults st) with
    | Some details =>
        Some (Found n
                (formatCurrency (Search.totalSpent st))
                (formatCurrency (Search.totalSpent st / Number_of_nat n)%float)
                (if (0 <? List.length (Search.purchaseHistory st))%nat
                 then Some (Search.purchaseHistory st) else None)
                details)
    | None => None
    end.

End View.

(** The comparison of strings by code units, a collation to run the model
    with. *)
Definition codeUnitCompare (a b : string) : Z :=
  match String.compare a b with
  | Lt => (-1)%Z
  | Eq => 0%Z
  | Gt => 1%Z
  end.

(** ** Vocabulary of the statements *)

Import Aggregation.

(** [reduce((sum, x) => sum + x, 0)]: the doubles added from left to
    right, each sum rounded. *)
Definition sum_of (l : list float) : float := fold_left PrimFloat.add l 0%float.

(** What [if (!v) v = 0] makes of a number. *)
Definition resume (acc : float) : float :=
  if falsy_number acc then 0%float else acc.

(** The amounts added from left to right the way a dictionary of amounts
    adds them: a sum that has come to zero or to [NaN] starts again from
    0. *)
Definition running_sum (l : list float) : float :=
  fold_left (fun acc t => (resume acc + t)%float) l 0%float.

Definition isCRV (it : item) : bool := strict_eq_str (Category it) "CRV".

(** The keys of a dictionary in the order of their first insertion. *)
Definition add_key (k : string) (ks : list string) : list string :=
  if existsb (String.eqb k) ks then ks else (ks ++ [k])%list.

Definition first_seen (ks : list string) : list string :=
  fold_left (fun acc k => add_key k acc) ks [].

(** The records a category row, a store row, a month row and a top item
    are made of. *)
Definition in_category (name : string) (it : item) : bool :=
  negb (isCRV it) && (ToString (Category it) =? name)%string.

Definition in_store (name : string) (it : item) : bool :=
  (ToString (Store it) =? name)%string.

Definition month_key (it : item) : option string :=
  match Date it with
  | VStr d => if includes "-" d then Some (substring 0 7 d) else None
  | _ => None
  end.

Definition purchase_of (name : string) (it : item) : bool :=
  negb (isCRV it) && (ToString (Item it) =? name)%string.

(** A record that feeds the price snapshot of date [d]. *)
Definition priced_on (d : string) (it : item) : bool :=
  strict_eq_str (Date it) d && truthy (Price it) && truthy (Quantity it).

(** [s] contains [pat] as a substring. *)
Definition substring_of (pat s : string) : Prop :=
  exists pre post, s = pre ++ pat ++ post.

(** *** Reading a number back from its decimal writing *)

(** [s] cut at the first [c]. *)
Fixpoint split_at (c : ascii) (s : string) : string * option string :=
  match s with
  | "" => ("", None)
  | String c' s' =>
      if (c' =? c)%char then ("", Some s')
      else let '(a, b) := split_at c s' in (String c' a, b)
  end.

Definition read_natural (s : string) : option Z :=
  option_map (fun d => Z.of_N (N.of_uint d)) (NilZero.uint_of_string s).

(** A leading [c], taken off. *)
Definition strip (c : ascii) (s : string) : bool * string :=
  match s with
  | "" => (false, "")
  | String c' s' => if (c' =? c)%char then (true, s') else (false, s)
  end.

Definition read_exponent (s : string) : option Z :=
  let '(minus, s) := strip "-" s in
  let '(_, s) := strip "+" s in
  option_map (fun z => if minus then (- z)%Z else z) (read_natural s).

(** The rational that a decimal writing stands for: an optional minus
    sign, digits with an optional point, an optional exponent. *)
Definition read_number (s : string) : option Q :=
  let '(neg, body) := strip "-" s in
  let '(mantissa, ex) := split_at "e" body in
  let '(ip, fp) := split_at "." mantissa in
  let fp := match fp with Some fp => fp | None => "" end in
  match read_natural (ip ++ fp),
        match ex with Some x => read_exponent x | None => Some 0%Z end with
  | Some d, Some x =>
      let q := inject_Z d * pow10 (x - Z.of_nat (String.length fp)) in
      Some (if neg then - q else q)
  | _, _ => None
  end.

(** The number of characters after the point. *)
Definition decimals (s : string) : option nat :=
  match snd (split_at "." s) with
  | Some fp => Some (String.length fp)
  | None => None
  end.

(** [s] writes the number [v] rounded to [f] decimals: it stands for
    [n / 10^f] with the sign of [v], where [n] is the integer nearest to
    [|v| * 10^f] (the larger one on a tie), and it has [f] characters
    after the point. *)
Definition rounded_to (f : nat) (v : Q) (s : string) : Prop :=
  exists (n : Z) (q : Q),
    read_number s = Some q
    /\ q == (if Qlt_bool v 0 then -1 else 1)
            * (inject_Z n / inject_Z (10 ^ Z.of_nat f))
    /\ inject_Z n <= Qabs v * inject_Z (10 ^ Z.of_nat f) + (1 # 2)
    /\ Qabs v * inject_Z (10 ^ Z.of_nat f) + (1 # 2) < inject_Z n + 1
    /\ decimals s = Some f.

(** A double that [toFixed] writes in fixed notation: a number below 1e21
    in magnitude. *)
Definition fixed_range (x : float) : bool :=
  negb (is_nan x) && negb (1e21 <=? abs x)%float.

(** *** Dictionaries of amounts *)

(** The dictionaries of spend are folds of [add_spend] under a key that a
    record may lack. *)
Definition spend_by (key : item -> option string) (cleaned : list item)
           (o : obj tally) : obj tally :=
  fold_left
    (fun acc it =>
       match key it with
       | Some k => add_spend k (Total it) acc
       | None => acc
       end)
    cleaned o.

Definition has_key (key : item -> option string) (k : string) (it : item) : bool :=
  match key it with Some k' => (k' =? k)%string | None => false end.

Definition keys_of (key : item -> option string) (cleaned : list item) : list string :=
  flat_map (fun it => match key it with Some k => [k] | None => [] end) cleaned.

(** The keys that pass a test. *)
Definition keys_where (keep : string -> bool) (key : item -> option string)
           (cleaned : list item) : list string :=
  filter keep (keys_of key cleaned).

Definition not_proto (k : string) : bool := negb (k =? "__proto__")%string.

Definition not_inherited (k : string) : bool := negb (inherited k).

(** The amounts written one after the other. *)
Definition written (l : list float) : string :=
  fold_left (fun s t => s ++ Number_toString t) l "".

Definition category_key (it : item) : option string :=
  if negb (isCRV it) then Some (ToString (Category it)) else None.

Definition store_key (it : item) : option string := Some (ToString (Store it)).

Definition item_key (row : item) : option string :=
  if negb (isCRV row) then Some (ToString (Item row)) else None.

Definition trip_key (it : item) : option string := Some (ToString (Date it)).

(** What one more amount makes of the value under a key that
    [Object.prototype] does not answer to. *)
Definition bump (v : option tally) (a : float) : tally :=
  match v with
  | None => Num (0 + a)
  | Some (Num x) => Num (resume x + a)
  | Some (Text member tail) => Text member (tail ++ Number_toString a)
  end.

Definition count_of (s : option Stats.t) : nat :=
  match s with Some s => Stats.count s | None => O end.

Definition total_of (s : option Stats.t) : float :=
  match s with Some s => Stats.total s | None => 0%float end.

(** A search term that is empty or made of white space only. *)
Fixpoint all_space (s : string) : bool :=
  match s with
  | "" => true
  | String c s' => is_space c && all_space s'
  end.

(** [s] contains [term], whatever the case of the letters. *)
Definition contains_ci (term s : string) : Prop :=
  substring_of (toLowerCase term) (toLowerCase s).

(** The date under which a record enters the price snapshot. *)
Definition price_key (pq : jsval) (it : item) : option string :=
  match Date it with
  | VStr d =>
      if truthy (Price it) && truthy (Quantity it) && negb (Search.shadowed pq d)
      then Some d else None
  | _ => None
  end.

(** The date under which a record enters the purchase history. *)
Definition date_key (it : item) : option string :=
  match Date it with
  | VStr d => if inherited d then None else Some d
  | _ => None
  end.

Definition on_date (d : string) (it : item) : bool := strict_eq_str (Date it) d.

(** What a result makes of the dictionary of the purchase history when
    the loop goes on: the entry of its date, made if need be, is updated;
    under a date that [Object.prototype] answers to there is no entry to
    update. *)
Definition history_entry_step (h : obj Search.History.t) (it : item)
  : obj Search.History.t :=
  match Date it with
  | VStr date =>
      Search.record_purchase date it
        (match lookup date h with
         | Missing => set date (Search.History.mk date (VNum 0) 0) h
         | _ => h
         end)
  | _ => h
  end.

(** The results of the search that [handleSearch] runs from a state. *)
Definition results_of (st : Search.state) : list item :=
  filter (Search.matches (toLowerCase (Search.searchTerm st))) (Search.data st).

(** The history loop of that search ends without a TypeError. *)
Definition search_completes (st : Search.state) : bool :=
  match snd (Search.historyByDate (Search.protoQuantity st) (results_of st)) with
  | Some _ => true
  | None => false
  end.

(** A quantity that is a piece of text. *)
Definition text_quantity (it : item) : bool :=
  match Quantity it with VStr s => negb (s =? "")%string | _ => false end.

Fixpoint all_digits (s : string) : bool :=
  match s with
  | "" => true
  | String c s' => is_digit c && all_digits s'
  end.

Definition hqty (e : option Search.History.t) : jsval :=
  match e with Some e => Search.History.quantity e | None => VNum 0 end.

Definition htotal (e : option Search.History.t) : float :=
  match e with Some e => Search.History.total e | None => 0%float end.

(** The quantity a record adds to its day, as a number. *)
Definition quantity_number (it : item) : float := ToNumber (Search.quantity_or_1 it).

(** ** Sample inputs *)

Definition line (date store category name : string) (quantity price total : float)
  : item :=
  mkItem (VStr date) (VStr store) (VStr category) (VStr name)
         (VNum quantity) (VStr "ea") (VNum price) total.


(** Two categories, one dollar and two dollars. *)
Definition thirds : list item :=
  [line "2025-01-05" "Market" "Dairy" "Milk" 1 1 1;
   line "2025-01-05" "Market" "Produce" "Apples" 2 1 2].

(** Three amounts whose sum depends on the order of the additions. *)
Definition three_amounts : list item :=
  [line "2025-01-05" "Market" "Dairy" "Milk" 1 0.3 0.3;
   line "2025-01-05" "Market" "Produce" "Apples" 1 3.3 3.3;
   line "2025-01-05" "Market" "Dairy" "Cream" 1 0.05 0.05].

(** A shop that is called like a member of [Object.prototype]. *)
Definition constructor_store : list item :=
  [line "2025-01-05" "constructor" "Dairy" "Milk" 1 3.5 3.5].

(** A record whose date cell reads [constructor]. *)
Definition constructor_date : list item :=
  [line "constructor" "Market" "Dairy" "Milk" 1 3.5 3.5].

(** One purchase of 2^70 dollars. *)
Definition fortune : list item :=
  [line "2025-01-05" "Market" "Jewels" "Diamond" 1 0x1p70 0x1p70].

(** Seven dollars of dairy out of two thousand. *)
Definition seven_of_2000 : list item :=
  [line "2025-01-05" "Market" "Dairy" "Milk" 1 7 7;
   line "2025-01-05" "Market" "Produce" "Truffles" 1 1993 1993].

(** Gum at one dollar and at one dollar and one cent. *)
Definition gum : list item :=
  [line "2025-01-05" "Market" "Candy" "Gum" 1 1 1;
   line "2025-01-06" "Market" "Candy" "Gum" 1 1.01 1.01].

(** What a row of a summary over the records [cleaned] is made of, the
    records of the row being those that [member] picks for its name: the
    percentage is the value times 100 over the sum of the Total of all
    records, written by [toFixed(1)]; under a name that [Object.prototype]
    does not answer to the value is the running sum of the Total of the
    row's records, and the percentage is the share rounded to one decimal
    when it is in the range of the fixed notation; under an inherited name
    the percentage is not a number. *)
Definition share_row (cleaned : list item) (member : string -> item -> bool)
           (e : Share.t) : Prop :=
  let share := (number_of (Share.value e) * 100 / sum_of (map Total cleaned))%float in
  Share.percentage e = toFixed 1 share
  /\ (inherited (Share.name e) = false ->
      Share.value e
      = Num (running_sum (map Total (filter (member (Share.name e)) cleaned)))
      /\ (fixed_range share = true ->
          rounded_to 1 (float_value share) (Share.percentage e)))
  /\ (inherited (Share.name e) = true -> Share.percentage e = "NaN").

(** The category summary adds up to the spend of all records. *)
Definition category_sum_is_total (cleaned : list item) : Prop :=
  sum_of (map (fun e => number_of (Share.value e)) (categoryArray cleaned))
  = sum_of (map Total cleaned).

(** Every average price is the quotient rounded to two decimals. *)
Definition average_prices_rounded (cleaned : list item) : Prop :=
  forall e, In e (itemArray cleaned) ->
    rounded_to 2
      (float_value (TopItem.total e / Number_of_nat (TopItem.count e))%float)
      (TopItem.avgPrice e).

(** Parsed rows: a full one, one with trailing cells, one cut short and one
    whose eighth cell is text. *)
Definition row_full : list jsval :=
  [VStr "2025-01-05"; VStr "Market"; VStr "Dairy"; VStr "Whole Milk";
   VNum 1; VStr "gal"; VNum 3.5; VNum 3.5].

Definition row_long : list jsval := (row_full ++ [VStr "note"; VNum 7])%list.

Definition row_short : list jsval := firstn 6 row_full.

Definition row_text_total : list jsval := (firstn 7 row_full ++ [VStr "N/A"])%list.

(** The same cells as [row_full] with other types in the first seven. *)
Definition row_odd_types : list jsval :=
  [VNum 20250105; VNull; VBool true; VNum 12; VStr "two"; VNull; VStr "cheap";
   VNum 3.5].

(** Dates written with slashes. *)
Definition slash_dates : list item :=
  [line "01/05/2025" "Market" "Dairy" "Milk" 1 3.5 3.5].

(** The month keys are the seven-character prefixes of the dates. *)
Definition month_keys_are_date_prefixes (rows : list Month.t) (cleaned : list item)
  : Prop :=
  forall k, In k (map Month.month rows)
            <-> In k (map (fun it => substring 0 7 (ToString (Date it))) cleaned).

(** Two months, out of order. *)
Definition two_months : list item :=
  [line "2025-02-06" "Market" "Produce" "Apples" 3 1 3;
   line "2025-01-05" "Market" "Dairy" "Milk" 1 3.5 3.5;
   line "2025-02-09" "Corner" "Dairy" "Butter" 1 5 5].

(** A week of shopping: milk twice on one day, a deposit, a free sample. *)
Definition week : list item :=
  [line "2025-01-06" "Corner" "Dairy" "Almond Milk" 1 4 4;
   line "2025-01-05" "Market" "Dairy" "Whole Milk" 1 3.5 3.5;
   line "2025-01-05" "Market" "CRV" "Milk bottle deposit" 2 0.05 0.1;
   line "2025-01-05" "Corner" "Dairy" "Whole Milk" 2 3 6;
   line "2025-01-07" "Market" "Promo" "Milk sample" 1 0 0;
   line "2025-01-07" "Market" "Produce" "Apples" 3 1 3].

Definition searching (term : string) (cleaned : list item) : Search.state :=
  Search.mkState cleaned term [] 0 [] [] false VUndefined.

(** The two records of the milk example; the fields the example leaves
    open are parameters. *)
Definition milk_records (s1 c1 q1 u1 p1 s2 c2 q2 u2 p2 : jsval) : list item :=
  [mkItem (VStr "2025-01-05") s1 c1 (VStr "Whole Milk") q1 u1 p1 3.5;
   mkItem (VStr "2025-01-06") s2 c2 (VStr "Almond Milk") q2 u2 p2 4].

(** A state that holds the outcome of an earlier search. *)
Definition searched_before : Search.state :=
  Search.mkState week " " (firstn 1 week) 4
                 [Search.History.mk "2025-01-06" (VNum 1) 4]
                 [Search.PricePoint.mk "2025-01-06" (VNum 4)] false VUndefined.

(** A free sample: a price of zero. *)
Definition free_sample : list item :=
  [line "2025-01-07" "Market" "Promo" "Milk sample" 1 0 0].

(** A cell that is not empty. *)
Definition present (v : jsval) : bool :=
  match v with
  | VNull | VUndefined => false
  | VStr s => negb (s =? "")%string
  | _ => true
  end.

(** Every date on which some result has both a Price and a Quantity has
    an entry in the price snapshot. *)
Definition snapshot_covers_present (rows : list Search.PricePoint.t)
           (results : list item) : Prop :=
  forall it d, In it results -> Date it = VStr d ->
    present (Price it) = true -> present (Quantity it) = true ->
    In d (map Search.PricePoint.date rows).

(** A state after a search whose details table cannot be drawn: the price
    of the sample is missing. *)
Definition week_with_gap : list item :=
  (week ++ [mkItem (VStr "2025-01-08") (VStr "Market") (VStr "Promo")
                   (VStr "Oat milk sample") (VNum 1) (VStr "ea") VNull 0])%list.

(** Eleven products, the first bought twice. *)
Definition eleven_items : list item :=
  map (fun name => line "2025-03-01" "Market" "Produce" name 1 1 1)
      ["Apples"; "Beets"; "Chard"; "Dill"; "Endive"; "Fennel"; "Garlic";
       "Apples"; "Herbs"; "Iceberg"; "Jicama"; "Kale"].

(** A record whose quantity is written out. *)
Definition week_with_text : list item :=
  (week ++ [mkItem (VStr "2025-01-06") (VStr "Corner") (VStr "Dairy")
                   (VStr "Oat Milk") (VStr "two") (VStr "ea") (VNum 4) 8])%list.

(** Results that write on [Object.prototype] and then trip over what they
    wrote: a record dated [__proto__] whose quantity is text, then one dated
    [quantity]. *)
Definition polluting : list item :=
  [mkItem (VStr "__proto__") (VStr "Market") (VStr "Dairy") (VStr "Milk")
          (VStr "two") (VStr "ea") (VNum 4) 8;
   mkItem (VStr "quantity") (VStr "Market") (VStr "Dairy") (VStr "Milk")
          (VNum 1) (VStr "ea") (VNum 4) 4].

(** ** The model at work *)

Example week_categories :
  map (fun e => (Share.name e, Share.value e, Share.percentage e))
      (categoryArray week)
  = [("Dairy", Num 13.5, "81.3"); ("Produce", Num 3, "18.1");
     ("Promo", Num 0, "0.0")].
Proof. vm_compute. reflexivity. Qed.

Example week_stores :
  map (fun e => (Share.name e, Share.percentage e)) (storeArray week)
  = [("Corner", "60.2"); ("Market", "39.8")].
Proof. vm_compute. reflexivity. Qed.

Example week_top_items :
  map (fun e => (TopItem.name e, TopItem.count e, TopItem.avgPrice e))
      (itemArray week)
  = [("Whole Milk", 2%nat, "4.75"); ("Almond Milk", 1%nat, "4.00");
     ("Milk sample", 1%nat, "0.00"); ("Apples", 1%nat, "3.00")].
Proof. vm_compute. reflexivity. Qed.

Example week_trips :
  Overall.totalTrips (stats week) = 3%nat
  /\ toFixed 2 (Overall.avgPerTrip (stats week)) = "5.53"
  /\ Overall.avgPerTrip (stats []) = nan.
Proof. repeat split; vm_compute; reflexivity. Qed.

Example week_milk_history :
  map (fun e => (Search.History.date e, Search.History.quantity e))
      (Search.purchaseHistory
         (Search.handleSearch codeUnitCompare (searching "Milk" week)))
  = [("2025-01-05", VNum 5); ("2025-01-06", VNum 1); ("2025-01-07", VNum 1)].
Proof. vm_compute. reflexivity. Qed.

Example entries_order :
  Object_keys [("b", 1%nat); ("10", 2%nat); ("a", 3%nat); ("2", 4%nat); ("007", 5%nat)]
  = ["2"; "10"; "b"; "a"; "007"].
Proof. reflexivity. Qed.

(** Doubles, not decimals: the sum depends on the order of the additions,
    a hundredth is not a double, and [toFixed] rounds the double. *)
Example double_arithmetic :
  ((0.3 + 0.05) + 3.3 = 3.65)%float
  /\ ((0.3 + 3.3) + 0.05 = 3.6499999999999995)%float
  /\ Number_toString (0.1 + 0.2) = "0.30000000000000004"
  /\ toFixed 1 (7 * 100 / 2000) = "0.3"
  /\ toFixed 2 ((1 + 1.01) / 2) = "1.00"
  /\ toFixed 2 0.125 = "0.13"
  /\ toFixed 2 (-0.001) = "-0.00".
Proof. repeat split; vm_compute; reflexivity. Qed.

Example toFixed_samples :
  toFixed 1 100 = "100.0"
  /\ toFixed 1 (-0.25) = "-0.3"
  /\ toFixed 2 0.5 = "0.50"
  /\ toFixed 1 (0 / 0) = "NaN"
  /\ toFixed 1 (1 / 0) = "Infinity"
  /\ toFixed 2 1e21 = "1e+21"
  /\ toFixed 1 1.8e21 = "1.8e+21"
  /\ toFixed 2 999999999999999900000 = "999999999999999868928.00".
Proof. repeat split; vm_compute; reflexivity. Qed.

Example Number_toString_samples :
  Number_toString 3.5 = "3.5"
  /\ Number_toString 20250105 = "20250105"
  /\ Number_toString 0.0000001 = "1e-7"
  /\ Number_toString 0.000001 = "0.000001"
  /\ Number_toString 123456789012345680000 = "123456789012345680000"
  /\ Number_toString 1e21 = "1e+21"
  /\ Number_toString (-0) = "0"
  /\ Number_toString (-1.5) = "-1.5"
  /\ Number_toString 5e-324 = "5e-324".
Proof. repeat split; vm_compute; reflexivity. Qed.

Example js_add_samples :
  js_add (VNum 0) (VStr "two") = VStr "0two"
  /\ js_add (VNum 1) (VBool true) = VNum 2
  /\ js_add VUndefined (VNum 1) = VNum nan
  /\ js_add VUndefined (VStr "two") = VStr "undefinedtwo".
Proof. repeat split. Qed.

Example trim_samples :
  trim "  milk " = "milk" /\ trim "   " = "" /\ toLowerCase "Whole MILK" = "whole milk".
Proof. repeat split. Qed.

(** A shop called [constructor]: the lookup finds the inherited function,
    the amount is appended to its source text, and the share is not a
    number. *)
Example constructor_store_summary :
  storeArray constructor_store
  = [Share.mk "constructor" (Text "constructor" "3.5") "NaN"].
Proof. vm_compute. reflexivity. Qed.

(** A search whose results write on [Object.prototype] and then read it:
    the handler stops on a TypeError with the results and the total set and
    no history. *)
Example polluting_search :
  let st := Search.handleSearch codeUnitCompare (searching "milk" polluting) in
  Search.protoQuantity st = VStr "undefinedtwo"
  /\ List.length (Search.searchResults st) = 2%nat
  /\ Search.totalSpent st = 12%float
  /\ Search.purchaseHistory st = []
  /\ Search.priceHistory st = [].
Proof. repeat split; vm_compute; reflexivity. Qed.

(** ** Sorting and permutations *)

Section SortingFacts.
Context {A : Type} (le : A -> A -> bool).

Lemma insert_perm (x : A) (l : list A) : Permutation (insert le x l) (x :: l).
Proof.
  induction l as [|y l IH]; simpl; [reflexivity|].
  destruct (le x y); [reflexivity|].
  rewrite IH. apply perm_swap.
Qed.

Lemma isort_perm (l : list A) : Permutation (isort le l) l.
Proof.
  induction l as [|x l IH]; simpl; [constructor|].
  unfold isort in IH. rewrite insert_perm. now constructor.
Qed.

Hypothesis le_total : forall a b, le a b = false -> le b a = true.

Lemma insert_sorted (x : A) (l : list A) :
  Sorted (fun a b => le a b = true) l ->
  Sorted (fun a b => le a b = true) (insert le x l).
Proof.
  induction 1 as [|y l Hs IH Hd]; simpl.
  - repeat constructor.
  - destruct (le x y) eqn:E.
    + constructor; [now constructor|now constructor].
    + constructor; [exact IH|].
      destruct l as [|z l]; simpl.
      * constructor. now apply le_total.
      * destruct (le x z); constructor; [now apply le_total|].
        now inversion Hd.
Qed.

Lemma isort_sorted (l : list A) : Sorted (fun a b => le a b = true) (isort le l).
Proof.
  induction l as [|x l IH]; simpl; [constructor|].
  now apply insert_sorted.
Qed.
End SortingFacts.

Lemma filter_split_perm (A : Type) (f : A -> bool) (l : list A) :
  Permutation (filter f l ++ filter (fun x => negb (f x)) l) l.
Proof.
  induction l as [|x l IH]; simpl; [constructor|].
  destruct (f x); simpl.
  - now constructor.
  - symmetry. apply Permutation_cons_app. now symmetry.
Qed.

(** ** Dictionaries *)

Lemma existsb_eqb_In (k : string) (ks : list string) :
  existsb (String.eqb k) ks = true <-> In k ks.
Proof.
  rewrite existsb_exists. split.
  - intros [x [Hin Heq]]. apply String.eqb_eq in Heq. now subst.
  - intros Hin. exists k. split; [assumption|apply String.eqb_refl].
Qed.

Lemma add_key_In (k k' : string) (ks : list string) :
  In k' (add_key k ks) <-> k' = k \/ In k' ks.
Proof.
  unfold add_key. destruct (existsb (String.eqb k) ks) eqn:E.
  - apply existsb_eqb_In in E. split; [now right|].
    intros [->|H]; assumption.
  - rewrite in_app_iff. simpl. intuition.
Qed.

Lemma add_key_NoDup (k : string) (ks : list string) :
  NoDup ks -> NoDup (add_key k ks).
Proof.
  intros H. unfold add_key. destruct (existsb (String.eqb k) ks) eqn:E; [assumption|].
  apply NoDup_app; [assumption|repeat constructor; intros []|].
  intros x Hx [<-|[]].
  apply existsb_eqb_In in Hx. congruence.
Qed.

Lemma first_seen_from (l acc : list string) :
  NoDup acc ->
  NoDup (fold_left (fun acc k => add_key k acc) l acc)
  /\ forall k, In k (fold_left (fun acc k => add_key k acc) l acc)
               <-> In k acc \/ In k l.
Proof.
  revert acc. induction l as [|x l IH]; intros acc Hnd; simpl.
  - split; [assumption|]. intuition.
  - destruct (IH (add_key x acc) (add_key_NoDup x acc Hnd)) as [H1 H2].
    split; [assumption|]. intros k. rewrite H2, add_key_In. intuition.
Qed.

Lemma first_seen_NoDup (l : list string) : NoDup (first_seen l).
Proof. apply first_seen_from. constructor. Qed.

Lemma first_seen_In (l : list string) (k : string) :
  In k (first_seen l) <-> In k l.
Proof.
  unfold first_seen.
  destruct (first_seen_from l [] (NoDup_nil _)) as [_ H].
  rewrite H. simpl. intuition.
Qed.

Lemma first_seen_length (l : list string) :
  List.length (first_seen l) = List.length (nodup string_dec l).
Proof.
  apply Permutation_length, NoDup_Permutation.
  - apply first_seen_NoDup.
  - apply NoDup_nodup.
  - intros k. now rewrite first_seen_In, nodup_In.
Qed.

Section ObjFacts.
Context {V : Type}.
Implicit Types (o : obj V) (k : string) (v : V).

Lemma get_None_keys k o : get k o = None <-> ~ In k (map fst o).
Proof.
  induction o as [|[k' v'] o IH]; simpl; [intuition|].
  destruct (String.eqb_spec k' k) as [->|Hne].
  - split; [discriminate|]. intros H. exfalso. apply H. now left.
  - rewrite IH. intuition.
Qed.

Lemma get_Some_In k v o : get k o = Some v -> In (k, v) o.
Proof.
  induction o as [|[k' v'] o IH]; simpl; [discriminate|].
  destruct (String.eqb_spec k' k) as [->|Hne].
  - intros [= ->]. now left.
  - intros H. right. now apply IH.
Qed.

Lemma In_get_Some k v o : NoDup (map fst o) -> In (k, v) o -> get k o = Some v.
Proof.
  induction o as [|[k' v'] o IH]; simpl; [intros _ []|].
  intros Hnd [Heq|Hin].
  - injection Heq as -> ->. now rewrite String.eqb_refl.
  - inversion Hnd as [|? ? Hnot Hnd']; subst.
    destruct (String.eqb_spec k' k) as [->|Hne].
    + exfalso. apply Hnot. change k with (fst (k, v)). now apply in_map.
    + now apply IH.
Qed.

Lemma keys_set k v o : map fst (set k v o) = add_key k (map fst o).
Proof.
  induction o as [|[k' v'] o IH]; simpl; [reflexivity|].
  unfold add_key in *. simpl.
  rewrite (String.eqb_sym k k').
  destruct (String.eqb_spec k' k) as [->|Hne]; simpl; [reflexivity|].
  rewrite IH. now destruct (existsb (String.eqb k) (map fst o)).
Qed.

Lemma keys_modify k (f : V -> V) o : map fst (modify k f o) = map fst o.
Proof.
  induction o as [|[k' v'] o IH]; simpl; [reflexivity|].
  destruct (k' =? k)%string; simpl; [reflexivity|now rewrite IH].
Qed.

Lemma get_set k k' v o :
  get k' (set k v o) = if (k =? k')%string then Some v else get k' o.
Proof.
  induction o as [|[k1 v1] o IH]; simpl.
  - rewrite (String.eqb_sym k k'). reflexivity.
  - destruct (String.eqb_spec k1 k) as [->|Hne]; simpl.
    + destruct (String.eqb_spec k k'); reflexivity.
    + destruct (String.eqb_spec k1 k') as [->|Hne'].
      * destruct (String.eqb_spec k k'); [congruence|reflexivity].
      * exact IH.
Qed.

Lemma get_modify k k' (f : V -> V) o :
  get k' (modify k f o)
  = if (k =? k')%string then option_map f (get k o) else get k' o.
Proof.
  induction o as [|[k1 v1] o IH]; simpl.
  - now destruct (k =? k')%string.
  - destruct (String.eqb_spec k1 k) as [->|Hne]; simpl.
    + destruct (String.eqb_spec k k'); reflexivity.
    + destruct (String.eqb_spec k1 k') as [->|Hne'].
      * destruct (String.eqb_spec k k'); [congruence|reflexivity].
      * exact IH.
Qed.

Lemma Object_entries_perm o : Permutation (Object_entries o) o.
Proof.
  unfold Object_entries.
  rewrite isort_perm.
  apply (filter_split_perm _ (fun e => is_array_index (fst e))).
Qed.

Lemma Object_keys_perm o : Permutation (Object_keys o) (map fst o).
Proof. unfold Object_keys. apply Permutation_map, Object_entries_perm. Qed.

Lemma Object_values_perm o : Permutation (Object_values o) (map snd o).
Proof. unfold Object_values. apply Permutation_map, Object_entries_perm. Qed.

(** A fold whose steps only add keys has the keys seen first, in order. *)
Lemma fold_keys (X : Type) (step : obj V -> X -> obj V) (key : X -> option string) :
  (forall o x, map fst (step o x)
               = match key x with
                 | Some k => add_key k (map fst o)
                 | None => map fst o
                 end) ->
  forall l o,
    map fst (fold_left step l o)
    = fold_left (fun ks x => match key x with Some k => add_key k ks | None => ks end)
                l (map fst o).
Proof.
  intros Hstep. induction l as [|x l IH]; intros o; simpl; [reflexivity|].
  rewrite IH, Hstep. reflexivity.
Qed.
End ObjFacts.

Lemma fold_optional_keys (X : Type) (key : X -> option string) (l : list X)
      (acc : list string) :
  fold_left (fun ks x => match key x with Some k => add_key k ks | None => ks end) l acc
  = fold_left (fun ks k => add_key k ks)
              (flat_map (fun x => match key x with Some k => [k] | None => [] end) l)
              acc.
Proof.
  revert acc. induction l as [|x l IH]; intros acc; simpl; [reflexivity|].
  rewrite IH. destruct (key x); reflexivity.
Qed.


(** ** Doubles *)

Lemma pow2_pos (e : Z) : 0 < pow2 e.
Proof.
  unfold pow2. destruct (0 <=? e)%Z eqn:E.
  - apply Z.leb_le in E. unfold Qlt. simpl. rewrite Z.mul_1_r.
    apply Z.pow_pos_nonneg; lia.
  - apply Z.leb_gt in E.
    assert (H : (0 < 2 ^ (- e))%Z) by (apply Z.pow_pos_nonneg; lia).
    apply Qlt_shift_div_l.
    + unfold Qlt. simpl. lia.
    + rewrite Qmult_0_l. reflexivity.
Qed.

Lemma pow10_pos (f : nat) : 0 < inject_Z (10 ^ Z.of_nat f).
Proof.
  unfold Qlt. simpl. rewrite Z.mul_1_r. apply Z.pow_pos_nonneg; lia.
Qed.

Lemma SFcompare_refl (x : spec_float) :
  x <> S754_nan -> SFcompare x x = Some Eq.
Proof.
  destruct x as [s|s| |s m e]; simpl; try congruence.
  - now destruct s.
  - intros _. rewrite Z.compare_refl, Pos.compare_cont_refl. now destruct s.
Qed.

Lemma is_nan_spec (x : float) : is_nan x = true <-> Prim2SF x = S754_nan.
Proof.
  unfold is_nan. rewrite eqb_spec. unfold SFeqb.
  destruct (Prim2SF x) as [s|s| |s m e] eqn:E;
    try (rewrite SFcompare_refl by discriminate; split; discriminate).
  split; reflexivity.
Qed.

(** A [NaN] stays a [NaN] through a division. *)
Lemma div_nan_l (x y : float) : is_nan x = true -> is_nan (x / y) = true.
Proof.
  rewrite !is_nan_spec, div_spec. intros ->. reflexivity.
Qed.

Lemma mul_nan_l (x y : float) : is_nan x = true -> is_nan (x * y) = true.
Proof.
  rewrite !is_nan_spec, mul_spec. intros ->. reflexivity.
Qed.

(** In the range of the fixed notation the sign test of [toFixed] is the
    sign of the value. *)
Lemma ltb_zero_sign (x : float) :
  fixed_range x = true -> (x <? 0)%float = Qlt_bool (float_value x) 0.
Proof.
  unfold fixed_range. intros H. apply andb_true_iff in H. destruct H as [Hn Hr].
  apply negb_true_iff in Hn, Hr.
  rewrite ltb_spec. unfold float_value.
  rewrite leb_spec, abs_spec in Hr.
  destruct (Prim2SF x) as [s|s| |s m e] eqn:E.
  - reflexivity.
  - vm_compute in Hr. discriminate.
  - apply is_nan_spec in E. congruence.
  - change (Prim2SF 0) with (S754_zero false). unfold SFltb. simpl SFcompare.
    pose proof (pow2_pos e) as Hp.
    assert (Hm : 0 < inject_Z (Z.pos m)) by (unfold Qlt; simpl; lia).
    assert (Hv : 0 < inject_Z (Z.pos m) * pow2 e).
    { rewrite <- (Qmult_0_l (pow2 e)). apply Qmult_lt_compat_r; assumption. }
    unfold Qlt_bool.
    destruct s.
    + destruct (Qle_bool 0 (-1 * (inject_Z (Z.pos m) * pow2 e))) eqn:Q;
        [|reflexivity].
      apply Qle_bool_iff in Q. lra.
    + destruct (Qle_bool 0 (1 * (inject_Z (Z.pos m) * pow2 e))) eqn:Q;
        [reflexivity|].
      exfalso. apply not_true_iff_false in Q. apply Q, Qle_bool_iff. lra.
Qed.

(** ** Writing and reading decimals *)

Lemma append_nil_r (s : string) : s ++ "" = s.
Proof. induction s as [|c s IH]; simpl; [reflexivity|now rewrite IH]. Qed.

Lemma append_assoc (a b c : string) : (a ++ b) ++ c = a ++ (b ++ c).
Proof. induction a as [|x a IH]; simpl; [reflexivity|now rewrite IH]. Qed.

Lemma length_append (a b : string) :
  String.length (a ++ b) = (String.length a + String.length b)%nat.
Proof. induction a as [|x a IH]; simpl; [reflexivity|now rewrite IH]. Qed.

Lemma length_zeros (n : nat) : String.length (zeros n) = n.
Proof. induction n as [|n IH]; simpl; [reflexivity|now rewrite IH]. Qed.

Lemma all_digits_app (a b : string) :
  all_digits (a ++ b) = all_digits a && all_digits b.
Proof.
  induction a as [|x a IH]; simpl; [reflexivity|].
  now rewrite IH, andb_assoc.
Qed.

Lemma all_digits_zeros (n : nat) : all_digits (zeros n) = true.
Proof. induction n as [|n IH]; simpl; [reflexivity|exact IH]. Qed.

Lemma substring_length (n m : nat) (s : string) :
  (n + m <= String.length s)%nat -> String.length (substring n m s) = m.
Proof.
  revert n m. induction s as [|c s IH]; intros n m H; simpl in H.
  - assert (n = 0%nat) by lia. assert (m = 0%nat) by lia. subst. reflexivity.
  - destruct n as [|n]; simpl.
    + destruct m as [|m]; simpl; [reflexivity|].
      f_equal. apply IH. lia.
    + apply IH. lia.
Qed.

Lemma substring_digits (n m : nat) (s : string) :
  all_digits s = true -> all_digits (substring n m s) = true.
Proof.
  revert n m. induction s as [|c s IH]; intros n m H.
  - destruct n, m; reflexivity.
  - simpl in H. apply andb_true_iff in H. destruct H as [Hc Hs].
    destruct n as [|n]; simpl.
    + destruct m as [|m]; simpl; [reflexivity|].
      rewrite Hc. now apply IH.
    + now apply IH.
Qed.

Lemma substring_all (m : nat) (s : string) :
  String.length s = m -> substring 0 m s = s.
Proof.
  revert m. induction s as [|c s IH]; intros m H; simpl in H; subst m.
  - reflexivity.
  - simpl. now rewrite IH.
Qed.

Lemma substring_split (k m : nat) (s : string) :
  String.length s = (k + m)%nat -> substring 0 k s ++ substring k m s = s.
Proof.
  revert s. induction k as [|k IH]; intros s H.
  - simpl in H. rewrite (substring_all m s H). now destruct s.
  - destruct s as [|c s]; [discriminate|]. simpl in H. injection H as H.
    simpl. now rewrite IH.
Qed.

Lemma string_of_uint_digits (d : Decimal.uint) :
  all_digits (NilEmpty.string_of_uint d) = true.
Proof. induction d; simpl; auto. Qed.

Lemma string_of_nonneg_digits (z : Z) :
  all_digits (string_of_nonneg z) = true
  /\ exists c s, string_of_nonneg z = String c s.
Proof.
  unfold string_of_nonneg, NilZero.string_of_uint.
  destruct (N.to_uint (Z.to_N z)) as [|d|d|d|d|d|d|d|d|d|d];
    (split; [first [reflexivity|apply (string_of_uint_digits (Decimal.D0 d))
                    |apply (string_of_uint_digits (Decimal.D1 d))
                    |apply (string_of_uint_digits (Decimal.D2 d))
                    |apply (string_of_uint_digits (Decimal.D3 d))
                    |apply (string_of_uint_digits (Decimal.D4 d))
                    |apply (string_of_uint_digits (Decimal.D5 d))
                    |apply (string_of_uint_digits (Decimal.D6 d))
                    |apply (string_of_uint_digits (Decimal.D7 d))
                    |apply (string_of_uint_digits (Decimal.D8 d))
                    |apply (string_of_uint_digits (Decimal.D9 d))]
            |eexists; eexists; reflexivity]).
Qed.

Lemma digit_not (c x : ascii) :
  is_digit c = false -> is_digit x = true -> (x =? c)%char = false.
Proof.
  intros Hc Hx. destruct (Ascii.eqb_spec x c) as [->|]; [congruence|reflexivity].
Qed.

(** A cut at a character that is not a digit goes past the digits. *)
Lemma split_at_digits (c : ascii) (a b : string) :
  is_digit c = false -> all_digits a = true ->
  split_at c (a ++ b) = (a ++ fst (split_at c b), snd (split_at c b)).
Proof.
  intros Hc. induction a as [|x a IH]; intros Ha.
  - simpl. now destruct (split_at c b).
  - simpl in Ha. apply andb_true_iff in Ha. destruct Ha as [Hx Ha].
    simpl. rewrite (digit_not c x Hc Hx), (IH Ha). reflexivity.
Qed.

Lemma split_at_none (c : ascii) (a : string) :
  is_digit c = false -> all_digits a = true -> split_at c a = (a, None).
Proof.
  intros Hc Ha. rewrite <- (append_nil_r a) at 1.
  rewrite (split_at_digits c a "" Hc Ha). simpl. now rewrite append_nil_r.
Qed.

(** Reading digits back, leading zeros or not. *)
Lemma uint_of_string_of_uint (d : Decimal.uint) :
  exists d', NilEmpty.uint_of_string (NilZero.string_of_uint d) = Some d'
             /\ N.of_uint d' = N.of_uint d.
Proof.
  destruct d as [|d|d|d|d|d|d|d|d|d|d];
    try (eexists; split; [apply NilEmpty.usu|reflexivity]).
  exists (Decimal.D0 Decimal.Nil). split; reflexivity.
Qed.

Lemma uint_of_zeros (p : nat) (s : string) (d : Decimal.uint) :
  NilEmpty.uint_of_string s = Some d ->
  exists d', NilEmpty.uint_of_string (zeros p ++ s) = Some d'
             /\ N.of_uint d' = N.of_uint d.
Proof.
  intros H. induction p as [|p (d' & Hd & Hn)]; simpl.
  - now exists d.
  - rewrite Hd. exists (Decimal.D0 d'). split; [reflexivity|exact Hn].
Qed.

Lemma read_natural_digits (p : nat) (n : Z) :
  (0 <= n)%Z -> read_natural (zeros p ++ string_of_nonneg n) = Some n.
Proof.
  intros Hn. unfold read_natural, NilZero.uint_of_string.
  destruct (uint_of_string_of_uint (N.to_uint (Z.to_N n))) as (d1 & H1 & E1).
  destruct (uint_of_zeros p _ d1 H1) as (d2 & H2 & E2).
  fold (string_of_nonneg n) in H2.
  destruct (string_of_nonneg_digits n) as [_ (c & s & Hs)].
  assert (Hne : exists c' s', zeros p ++ string_of_nonneg n = String c' s').
  { rewrite Hs. destruct p; simpl; eexists; eexists; reflexivity. }
  destruct Hne as (c' & s' & Hne). rewrite Hne in *.
  rewrite H2. simpl. rewrite E2, E1, DecimalN.Unsigned.of_to.
  now rewrite Z2N.id.
Qed.

(** What [fixed_digits] writes reads back as [n / 10^f], with [f]
    decimals. *)
Lemma read_fixed_digits (f : nat) (n : Z) (neg : bool) :
  (0 <= n)%Z ->
  exists q,
    read_number ((if neg then "-" else "") ++ fixed_digits (S f) n) = Some q
    /\ q == (if neg then -1 else 1)
            * (inject_Z n / inject_Z (10 ^ Z.of_nat (S f)))
    /\ decimals ((if neg then "-" else "") ++ fixed_digits (S f) n)
       = Some (S f).
Proof.
  intros Hn.
  set (ds := zeros (S (S f) - String.length (string_of_nonneg n))
             ++ string_of_nonneg n).
  assert (Hform : fixed_digits (S f) n
                  = substring 0 (String.length ds - S f) ds ++ "."
                    ++ substring (String.length ds - S f) (S f) ds)
    by reflexivity.
  rewrite Hform. clear Hform.
  assert (Hlen : (S (S f) <= String.length ds)%nat).
  { unfold ds. rewrite length_append, length_zeros. lia. }
  assert (Hdig : all_digits ds = true).
  { unfold ds. rewrite all_digits_app, all_digits_zeros.
    apply string_of_nonneg_digits. }
  set (k := (String.length ds - S f)%nat).
  set (ip := substring 0 k ds). set (fp := substring k (S f) ds).
  assert (Hip : all_digits ip = true) by now apply substring_digits.
  assert (Hfp : all_digits fp = true) by now apply substring_digits.
  assert (Lfp : String.length fp = S f) by (apply substring_length; lia).
  assert (Lip : String.length ip = k) by (apply substring_length; lia).
  assert (Hds : ip ++ fp = ds) by (apply substring_split; lia).
  assert (Hcut : split_at "." (ip ++ "." ++ fp) = (ip, Some fp)).
  { rewrite split_at_digits by (reflexivity || assumption).
    simpl. now rewrite append_nil_r. }
  assert (Hexp : split_at "e" (ip ++ "." ++ fp) = (ip ++ "." ++ fp, None)).
  { rewrite split_at_digits by (reflexivity || assumption).
    simpl. rewrite (split_at_none "e" fp) by (reflexivity || assumption).
    reflexivity. }
  assert (Hhead : exists c s, ip = String c s /\ is_digit c = true).
  { destruct ip as [|c s]; [simpl in Lip; lia|].
    exists c, s. split; [reflexivity|].
    simpl in Hip. now apply andb_true_iff in Hip. }
  assert (Hread : read_natural (ip ++ fp) = Some n).
  { rewrite Hds. now apply read_natural_digits. }
  assert (Hval : forall (d := inject_Z n), 
             inject_Z n * pow10 (0 - Z.of_nat (String.length fp))
             == inject_Z n / inject_Z (10 ^ Z.of_nat (S f))).
  { intros d. rewrite Lfp. unfold pow10.
    replace (0 <=? 0 - Z.of_nat (S f))%Z with false
      by (symmetry; apply Z.leb_gt; lia).
    replace (- (0 - Z.of_nat (S f)))%Z with (Z.of_nat (S f)) by lia.
    pose proof (pow10_pos (S f)). field. lra. }
  destruct neg.
  - exists (- (inject_Z n * pow10 (0 - Z.of_nat (String.length fp)))).
    split; [|split].
    + unfold read_number.
      change (strip "-" ("-" ++ ip ++ "." ++ fp)) with (true, ip ++ "." ++ fp).
      cbv iota beta. rewrite Hexp, Hcut, Hread. reflexivity.
    + rewrite Hval. ring.
    + unfold decimals.
      change (split_at "." ("-" ++ ip ++ "." ++ fp))
        with (let '(a, b) := split_at "." (ip ++ "." ++ fp) in (String "-" a, b)).
      rewrite Hcut. simpl. now rewrite Lfp.
  - exists (inject_Z n * pow10 (0 - Z.of_nat (String.length fp))).
    split; [|split].
    + unfold read_number.
      change ("" ++ ip ++ "." ++ fp) with (ip ++ "." ++ fp).
      destruct Hhead as (c & s & Hc & Hd).
      assert (Hstrip : strip "-" (ip ++ "." ++ fp) = (false, ip ++ "." ++ fp)).
      { rewrite Hc. simpl. now rewrite (digit_not "-" c eq_refl Hd). }
      rewrite Hstrip, Hexp, Hcut, Hread. reflexivity.
    + rewrite Hval. ring.
    + unfold decimals. change ("" ++ ip ++ "." ++ fp) with (ip ++ "." ++ fp).
      rewrite Hcut. simpl. now rewrite Lfp.
Qed.

(** The two ways of [toFixed]: below 1e21 in magnitude the double is
    written rounded to [f] decimals, to the nearest with ties away from
    zero; from 1e21 on, and for [NaN], it is written as [toString] writes
    it. *)
Lemma toFixed_rounded (f : nat) (x : float) :
  fixed_range x = true -> rounded_to (S f) (float_value x) (toFixed (S f) x).
Proof.
  intros Hr. unfold rounded_to. rewrite <- (ltb_zero_sign x Hr).
  unfold fixed_range in Hr. apply andb_true_iff in Hr. destruct Hr as [Hn Hb].
  apply negb_true_iff in Hn, Hb.
  unfold toFixed. rewrite Hn, Hb.
  set (v := Qabs (float_value x)).
  set (n := round_scaled (S f) v).
  assert (Hv : 0 <= v) by apply Qabs_nonneg.
  pose proof (pow10_pos (S f)) as Hs.
  pose proof (Qfloor_le (v * inject_Z (10 ^ Z.of_nat (S f)) + (1 # 2))) as Hlo.
  pose proof (Qlt_floor (v * inject_Z (10 ^ Z.of_nat (S f)) + (1 # 2))) as Hhi.
  fold (round_scaled (S f) v) in Hlo, Hhi. fold n in Hlo, Hhi.
  rewrite inject_Z_plus in Hhi. change (inject_Z 1) with 1 in Hhi.
  assert (Hn0 : (0 <= n)%Z).
  { assert (H : 0 < inject_Z (n + 1)).
    { rewrite inject_Z_plus. change (inject_Z 1) with 1.
      assert (0 <= v * inject_Z (10 ^ Z.of_nat (S f)))
        by (apply Qmult_le_0_compat; [assumption|lra]).
      lra. }
    unfold Qlt in H. simpl in H. lia. }
  destruct (read_fixed_digits f n (x <? 0)%float Hn0) as (q & Hq & Hval & Hdec).
  exists n, q. repeat split; assumption.
Qed.

Lemma toFixed_toString (f : nat) (x : float) :
  fixed_range x = false -> toFixed f x = Number_toString x.
Proof.
  unfold fixed_range, toFixed. intros H.
  destruct (is_nan x) eqn:En.
  - apply is_nan_spec in En. unfold Number_toString. now rewrite En.
  - simpl in H. apply negb_false_iff in H. now rewrite H.
Qed.

Example toFixed_rounded_sample :
  rounded_to 2 (float_value ((1 + 1.01) / 2)) "1.00"
  /\ rounded_to 1 (float_value (7 * 100 / 2000)) "0.3"
  /\ ~ rounded_to 2 (float_value 0x1p70) (toFixed 2 0x1p70).
Proof.
  split; [|split].
  - apply (toFixed_rounded 1 ((1 + 1.01) / 2)). reflexivity.
  - apply (toFixed_rounded 0 (7 * 100 / 2000)). reflexivity.
  - intros (n & q & _ & _ & _ & _ & H). vm_compute in H. discriminate.
Qed.

(** ** Dictionaries of amounts *)

Lemma add_key_idem (k : string) (ks : list string) :
  add_key k (add_key k ks) = add_key k ks.
Proof.
  unfold add_key at 1.
  replace (existsb (String.eqb k) (add_key k ks)) with true; [reflexivity|].
  symmetry. apply existsb_eqb_In, add_key_In. now left.
Qed.

Lemma add_key_present (k : string) (ks : list string) :
  In k ks -> add_key k ks = ks.
Proof.
  intros H. unfold add_key.
  replace (existsb (String.eqb k) ks) with true; [reflexivity|].
  symmetry. now apply existsb_eqb_In.
Qed.

Lemma inherited_not_proto (k : string) :
  inherited k = false -> (k =? "__proto__")%string = false.
Proof. unfold inherited. intros H. now apply orb_false_iff in H. Qed.

Lemma inherited_function_not_proto (k : string) :
  is_inherited_function k = true -> (k =? "__proto__")%string = false.
Proof.
  intros H. destruct (String.eqb_spec k "__proto__") as [->|]; [|reflexivity].
  discriminate.
Qed.

Section AssignFacts.
Context {V : Type}.
Implicit Types (o : obj V) (k : string) (v : V).

Lemma get_assign k k' v o :
  get k' (assign k v o)
  = if (k =? "__proto__")%string then get k' o
    else if (k =? k')%string then Some v else get k' o.
Proof.
  unfold assign. destruct (k =? "__proto__")%string; [reflexivity|].
  apply get_set.
Qed.

Lemma keys_assign k v o :
  map fst (assign k v o)
  = if (k =? "__proto__")%string then map fst o else add_key k (map fst o).
Proof.
  unfold assign. destruct (k =? "__proto__")%string; [reflexivity|].
  apply keys_set.
Qed.

Lemma get_Some_keys k v o : get k o = Some v -> In k (map fst o).
Proof.
  intros H. apply get_Some_In in H. change k with (fst (k, v)).
  now apply in_map.
Qed.
End AssignFacts.

(** [add_spend], case by case. *)
Lemma add_spend_cases (k : string) (a : float) (o : obj tally) :
  add_spend k a o
  = match get k o with
    | Some v =>
        assign k (bump (Some v) a)
               (if truthy_tally v then o else assign k (Num 0) o)
    | None =>
        if inherited k then assign k (Text k (Number_toString a)) o
        else assign k (Num (0 + a)) (assign k (Num 0) o)
    end.
Proof.
  unfold add_spend, lookup.
  destruct (get k o) as [v|] eqn:G.
  - destruct v as [x|member tail]; cbn [truthy_tally bump].
    + unfold resume. destruct (falsy_number x) eqn:F; cbn [negb].
      * rewrite get_assign. destruct (k =? "__proto__")%string eqn:P.
        -- rewrite G. unfold assign. now rewrite P.
        -- now rewrite String.eqb_refl.
      * now rewrite G.
    + now rewrite G.
  - destruct (inherited k) eqn:I.
    + rewrite ?G, ?I. reflexivity.
    + rewrite get_assign, (inherited_not_proto k I), String.eqb_refl.
      reflexivity.
Qed.

Lemma keys_add_spend (k : string) (a : float) (o : obj tally) :
  map fst (add_spend k a o)
  = if (k =? "__proto__")%string then map fst o else add_key k (map fst o).
Proof.
  rewrite add_spend_cases.
  destruct (get k o) as [v|] eqn:G.
  - rewrite keys_assign. destruct (k =? "__proto__")%string eqn:P.
    + destruct (truthy_tally v); [reflexivity|]. unfold assign. now rewrite P.
    + destruct (truthy_tally v); [reflexivity|].
      rewrite keys_assign, P. apply add_key_idem.
  - destruct (inherited k) eqn:I.
    + apply keys_assign.
    + rewrite !keys_assign, (inherited_not_proto k I). apply add_key_idem.
Qed.

(** Under a key that [Object.prototype] does not answer to, one more
    amount is one more [bump]. *)
Lemma get_add_spend (k k' : string) (a : float) (o : obj tally) :
  inherited k' = false ->
  get k' (add_spend k a o)
  = if (k =? k')%string then Some (bump (get k' o) a) else get k' o.
Proof.
  intros I'. rewrite add_spend_cases.
  destruct (String.eqb_spec k k') as [->|Hne].
  - rewrite I'. destruct (get k' o) as [v|] eqn:G.
    + now rewrite get_assign, (inherited_not_proto k' I'), String.eqb_refl.
    + now rewrite get_assign, (inherited_not_proto k' I'), String.eqb_refl.
  - assert (E : (k =? k')%string = false) by now apply String.eqb_neq.
    destruct (get k o) as [v|] eqn:G.
    + rewrite get_assign, E.
      destruct (truthy_tally v);
        [now destruct (k =? "__proto__")%string|].
      rewrite get_assign, E. now destruct (k =? "__proto__")%string.
    + destruct (inherited k).
      * rewrite get_assign, E. now destruct (k =? "__proto__")%string.
      * rewrite !get_assign, E. now destruct (k =? "__proto__")%string.
Qed.

(** Under the name of an inherited function the value is a text: the
    source of the function and the amounts. *)
Lemma get_add_spend_function (k k' : string) (a : float) (o : obj tally) :
  is_inherited_function k' = true ->
  (get k' o = None \/ exists tail, get k' o = Some (Text k' tail)) ->
  get k' (add_spend k a o) = None
  \/ exists tail, get k' (add_spend k a o) = Some (Text k' tail).
Proof.
  intros F Hinv. pose proof (inherited_function_not_proto k' F) as P'.
  assert (I' : inherited k' = true) by (unfold inherited; now rewrite F, orb_true_r).
  rewrite add_spend_cases.
  destruct (String.eqb_spec k k') as [->|Hne].
  - rewrite I'. destruct Hinv as [G|[tail G]]; rewrite G.
    + right. rewrite get_assign, P', String.eqb_refl. eauto.
    + right. cbn [truthy_tally bump]. rewrite get_assign, P', String.eqb_refl.
      eauto.
  - assert (E : (k =? k')%string = false) by now apply String.eqb_neq.
    assert (Hsame : forall (v : tally) (o' : obj tally),
               get k' (assign k v o') = get k' o').
    { intros v o'. rewrite get_assign, E. now destruct (k =? "__proto__")%string. }
    destruct (get k o) as [v|].
    + rewrite Hsame. destruct (truthy_tally v); [|rewrite Hsame]; exact Hinv.
    + destruct (inherited k); rewrite ?Hsame; exact Hinv.
Qed.

Lemma keys_of_In (key : item -> option string) (cleaned : list item) (k : string) :
  In k (keys_of key cleaned) <-> exists it, In it cleaned /\ key it = Some k.
Proof.
  unfold keys_of. rewrite in_flat_map. split.
  - intros [it [Hin Hk]]. exists it. split; [assumption|].
    destruct (key it); [|inversion Hk]. destruct Hk as [->|[]]. reflexivity.
  - intros [it [Hin Hk]]. exists it. split; [assumption|].
    rewrite Hk. now left.
Qed.

Lemma keys_where_In (keep : string -> bool) (key : item -> option string)
      (cleaned : list item) (k : string) :
  In k (keys_where keep key cleaned)
  <-> keep k = true /\ exists it, In it cleaned /\ key it = Some k.
Proof.
  unfold keys_where. rewrite filter_In, keys_of_In. tauto.
Qed.

(** A fold whose steps add the keys that pass a test has the keys seen
    first, in order. *)
Lemma fold_keys_where (V : Type) (step : obj V -> item -> obj V)
      (keep : string -> bool) (key : item -> option string) :
  (forall o x, map fst (step o x)
               = match key x with
                 | Some k => if keep k then add_key k (map fst o) else map fst o
                 | None => map fst o
                 end) ->
  forall l o,
    map fst (fold_left step l o)
    = fold_left (fun ks k => add_key k ks) (keys_where keep key l) (map fst o).
Proof.
  intros Hstep. induction l as [|x l IH]; intros o; [reflexivity|].
  cbn [fold_left]. rewrite IH, Hstep. unfold keys_where, keys_of.
  cbn [flat_map]. destruct (key x) as [k|]; [|reflexivity].
  cbn [app filter]. destruct (keep k); reflexivity.
Qed.

Lemma first_seen_from_keys (l : list string) (k : string) :
  In k (fold_left (fun ks k => add_key k ks) l []) <-> In k l.
Proof. apply first_seen_In. Qed.

Section SpendBy.
Variable key : item -> option string.

Lemma keys_spend_by (l : list item) (o : obj tally) :
  map fst (spend_by key l o)
  = fold_left (fun ks k => add_key k ks) (keys_where not_proto key l) (map fst o).
Proof.
  unfold spend_by. apply fold_keys_where. intros o' x.
  destruct (key x) as [k|]; [|reflexivity].
  rewrite keys_add_spend. unfold not_proto.
  now destruct (k =? "__proto__")%string.
Qed.

Lemma spend_by_NoDup (l : list item) : NoDup (map fst (spend_by key l [])).
Proof. rewrite keys_spend_by. apply first_seen_NoDup. Qed.

Lemma spend_by_keys_In (l : list item) (k : string) :
  In k (map fst (spend_by key l []))
  <-> k <> "__proto__" /\ exists it, In it l /\ key it = Some k.
Proof.
  rewrite keys_spend_by. change (map fst []) with (@nil string).
  rewrite first_seen_from_keys, keys_where_In. unfold not_proto.
  rewrite negb_true_iff, String.eqb_neq. reflexivity.
Qed.

Lemma get_spend_by (k : string) (l : list item) (o : obj tally) :
  inherited k = false ->
  get k (spend_by key l o)
  = fold_left (fun v t => Some (bump v t))
              (map Total (filter (has_key key k) l)) (get k o).
Proof.
  intros I. unfold spend_by, has_key. revert o.
  induction l as [|x l IH]; intros o; [reflexivity|].
  cbn [fold_left filter]. rewrite IH.
  destruct (key x) as [k'|]; [|reflexivity].
  rewrite (get_add_spend k' k (Total x) o I).
  destruct (k' =? k)%string; reflexivity.
Qed.

Lemma get_spend_by_function (k : string) (l : list item) (o : obj tally) :
  is_inherited_function k = true ->
  (get k o = None \/ exists tail, get k o = Some (Text k tail)) ->
  get k (spend_by key l o) = None
  \/ exists tail, get k (spend_by key l o) = Some (Text k tail).
Proof.
  intros F. unfold spend_by. revert o.
  induction l as [|x l IH]; intros o Hinv; [exact Hinv|].
  cbn [fold_left]. apply IH.
  destruct (key x) as [k'|]; [|exact Hinv].
  now apply get_add_spend_function.
Qed.
End SpendBy.

(** A number under a key stays a number, the running sum. *)
Lemma bump_fold_number (x : float) (ts : list float) :
  fold_left (fun v t => Some (bump v t)) ts (Some (Num x))
  = Some (Num (fold_left (fun acc t => (resume acc + t)%float) ts x)).
Proof.
  revert x. induction ts as [|t ts IH]; intros x; [reflexivity|].
  cbn [fold_left bump]. apply IH.
Qed.

Lemma bump_fold_start (ts : list float) :
  fold_left (fun v t => Some (bump v t)) ts None
  = match ts with
    | [] => None
    | _ => Some (Num (running_sum ts))
    end.
Proof.
  destruct ts as [|t ts]; [reflexivity|].
  cbn [fold_left bump]. rewrite bump_fold_number. reflexivity.
Qed.

Section SpendEntries.
Variable key : item -> option string.

(** The value under a key that [Object.prototype] does not answer to is
    the running sum of the amounts of the key's records. *)
Lemma spend_by_entry (l : list item) (k : string) (v : tally) :
  In (k, v) (spend_by key l []) ->
  inherited k = false ->
  v = Num (running_sum (map Total (filter (has_key key k) l))).
Proof.
  intros Hin I. apply In_get_Some in Hin; [|apply spend_by_NoDup].
  rewrite (get_spend_by key k l [] I) in Hin. cbn [get] in Hin.
  rewrite bump_fold_start in Hin.
  destruct (map Total (filter (has_key key k) l)); [discriminate|].
  congruence.
Qed.

Lemma spend_by_entry_function (l : list item) (k : string) (v : tally) :
  In (k, v) (spend_by key l []) ->
  is_inherited_function k = true ->
  exists tail, v = Text k tail.
Proof.
  intros Hin F. apply In_get_Some in Hin; [|apply spend_by_NoDup].
  destruct (get_spend_by_function key k l [] F (or_introl eq_refl))
    as [H|[tail H]]; [congruence|].
  exists tail. congruence.
Qed.
End SpendEntries.

Lemma fold_left_pointwise (A B : Type) (f g : A -> B -> A) :
  (forall a b, f a b = g a b) ->
  forall l a, fold_left f l a = fold_left g l a.
Proof.
  intros H. induction l as [|x l IH]; intros a; simpl; [reflexivity|].
  now rewrite H, IH.
Qed.

Lemma categories_spend_by (cleaned : list item) :
  categories cleaned = spend_by category_key cleaned [].
Proof.
  apply fold_left_pointwise. intros o it. unfold category_key, isCRV.
  now destruct (strict_eq_str (Category it) "CRV").
Qed.

Lemma stores_spend_by (cleaned : list item) :
  stores cleaned = spend_by store_key cleaned [].
Proof. apply fold_left_pointwise. reflexivity. Qed.

Lemma months_spend_by (cleaned : list item) :
  months cleaned = spend_by month_key cleaned [].
Proof.
  apply fold_left_pointwise. intros o it. unfold month_key.
  destruct (Date it) as [d| | | |]; try reflexivity.
  now destruct (includes "-" d).
Qed.

Lemma sumTotal_sum_of (cleaned : list item) :
  sumTotal cleaned = sum_of (map Total cleaned).
Proof.
  unfold sumTotal, sum_of. generalize 0%float.
  induction cleaned as [|x l IH]; intros a; [reflexivity|apply IH].
Qed.

(** ** The category and the store summary *)

Lemma Array_sort_perm (A : Type) (cmp : A -> A -> Z) (arr : list A) :
  Permutation (Array_sort cmp arr) arr.
Proof. apply isort_perm. Qed.


Lemma share_rows_In (cleaned : list item) (o : obj tally) (e : Share.t) :
  In e (Array_sort by_value_desc (map (share_of cleaned) (Object_entries o))) ->
  In (Share.name e, Share.value e) o
  /\ Share.percentage e
     = toFixed 1 (number_of (Share.value e) * 100 / sum_of (map Total cleaned)).
Proof.
  intros Hin.
  apply (Permutation_in _ (Array_sort_perm _ _ _)) in Hin.
  apply in_map_iff in Hin. destruct Hin as [[k v] [<- Hin]].
  apply (Permutation_in _ (Object_entries_perm o)) in Hin.
  simpl. rewrite sumTotal_sum_of. split; [assumption|reflexivity].
Qed.



Lemma toFixed_nan (f : nat) (x : float) : is_nan x = true -> toFixed f x = "NaN".
Proof. intros H. unfold toFixed. now rewrite H. Qed.

Lemma inherited_cases (k : string) :
  inherited k = true -> k = "__proto__" \/ is_inherited_function k = true.
Proof.
  unfold inherited. intros H. apply orb_true_iff in H.
  destruct H as [H|H]; [left; now apply String.eqb_eq|now right].
Qed.

(** A row of a summary, from the dictionary it is drawn from. *)
Lemma share_row_of_spend (key : item -> option string) (cleaned : list item)
      (e : Share.t) :
  In e (Array_sort by_value_desc
          (map (share_of cleaned) (Object_entries (spend_by key cleaned [])))) ->
  share_row cleaned (has_key key) e.
Proof.
  intros Hin. apply share_rows_In in Hin. destruct Hin as [Hin Hp].
  unfold share_row. cbv zeta. split; [exact Hp|split].
  - intros I. pose proof (spend_by_entry key cleaned _ _ Hin I) as Hv.
    split; [exact Hv|].
    intros Hr. rewrite Hp. now apply (toFixed_rounded 0).
  - intros I. rewrite Hp. apply toFixed_nan.
    destruct (inherited_cases _ I) as [P|F].
    + exfalso.
      assert (Hk : In (Share.name e) (map fst (spend_by key cleaned []))).
      { change (Share.name e) with (fst (Share.name e, Share.value e)).
        now apply in_map. }
      apply spend_by_keys_In in Hk. tauto.
    + destruct (spend_by_entry_function key cleaned _ _ Hin F) as [tail ->].
      apply div_nan_l, mul_nan_l. reflexivity.
Qed.

Lemma has_category_key (name : string) (it : item) :
  has_key category_key name it = in_category name it.
Proof.
  unfold has_key, category_key, in_category.
  now destruct (negb (isCRV it)).
Qed.

Lemma share_row_ext (cleaned : list item) (m1 m2 : string -> item -> bool)
      (e : Share.t) :
  (forall k it, m1 k it = m2 k it) ->
  share_row cleaned m1 e -> share_row cleaned m2 e.
Proof.
  intros H (H1 & H2 & H3). unfold share_row. cbv zeta.
  split; [exact H1|split; [|exact H3]].
  intros I. destruct (H2 I) as [Hv Hr]. split; [|exact Hr].
  rewrite Hv. do 3 f_equal. apply filter_ext. intros it. apply H.
Qed.






(** Even without a deposit the values need not add up to the spend: the
    sum of doubles depends on the order of the additions. *)
Example regrouped_sum_differs : ~ category_sum_is_total three_amounts.
Proof.
  unfold category_sum_is_total. intros H.
  apply (f_equal (fun x => (x =? 3.65)%float)) in H.
  vm_compute in H. discriminate.
Qed.

(** C3: the percentage of a row of the category summary and of the store
    summary is its value times 100 over the sum of the Total of all
    records, deposits included, as [toFixed(1)] writes it.  Under a name
    that [Object.prototype] does not answer to the value is the running sum
    of the Total of the row's records and the percentage that share
    rounded to one decimal; under an inherited name ([constructor],
    [toString], ...) the percentage is not a number, as for the one record
    of a shop called [constructor]. *)
Theorem share_percentage_all_records (cleaned : list item) :
  (forall e, In e (categoryArray cleaned) -> share_row cleaned in_category e)
  /\ (forall e, In e (storeArray cleaned) -> share_row cleaned in_store e)
  /\ storeArray constructor_store
     = [Share.mk "constructor" (Text "constructor" "3.5") "NaN"].
Proof.
  split; [|split].
  - intros e Hin. unfold categoryArray in Hin.
    rewrite categories_spend_by in Hin.
    apply share_row_of_spend in Hin.
    apply (share_row_ext _ _ in_category) in Hin; [exact Hin|].
    apply has_category_key.
  - intros e Hin. unfold storeArray in Hin.
    rewrite stores_spend_by in Hin.
    apply share_row_of_spend in Hin.
    apply (share_row_ext _ _ in_store) in Hin; [exact Hin|reflexivity].
  - vm_compute. reflexivity.
Qed.

Lemma share_percentage_all_records_witness :
  let e := Share.mk "Dairy" (Num 7) "0.3" in
  In e (categoryArray seven_of_2000)
  /\ Share.value e
     = Num (running_sum (map Total (filter (in_category "Dairy") seven_of_2000)))
  /\ rounded_to 1 (float_value (7 * 100 / 2000)) "0.3".
Proof.
  intros e.
  assert (Hin : In e (categoryArray seven_of_2000))
    by (vm_compute; right; left; reflexivity).
  split; [exact Hin|].
  destruct (proj1 (share_percentage_all_records seven_of_2000) e Hin)
    as (_ & H & _).
  destruct (H eq_refl) as [Hv Hr].
  split; [exact Hv|]. apply Hr. reflexivity.
Defined.

(** ** The normalizer *)

Lemma cleanedData_from (rows : list (list jsval)) (acc : list item) :
  fold_left
    (fun cleaned row =>
       match cleanRow row with
       | Some it => (cleaned ++ [it])%list
       | None => cleaned
       end)
    rows acc
  = (acc ++ flat_map (fun row => match cleanRow row with
                                 | Some it => [it]
                                 | None => []
                                 end) rows)%list.
Proof.
  revert acc. induction rows as [|row rows IH]; intros acc; simpl.
  - now rewrite app_nil_r.
  - rewrite IH. destruct (cleanRow row); simpl; [|reflexivity].
    now rewrite <- app_assoc.
Qed.

Lemma cleanedData_flat_map (rows : list (list jsval)) :
  cleanedData rows
  = flat_map (fun row => match cleanRow row with
                         | Some it => [it]
                         | None => []
                         end) rows.
Proof. unfold cleanedData. now rewrite cleanedData_from. Qed.

Lemma cleanRow_Some_iff (row : list jsval) (it : item) :
  cleanRow row = Some it <->
  exists date store category itm quantity unit price t rest,
    row = date :: store :: category :: itm :: quantity :: unit :: price
               :: VNum t :: rest
    /\ it = mkItem date store category itm quantity unit price t.
Proof.
  unfold cleanRow. split.
  - destruct row as [|a [|b [|c [|d [|e [|f [|g [|h rest]]]]]]]]; simpl;
      try discriminate.
    destruct h as [s|t|b0| |]; try discriminate.
    intros [= <-]. now exists a, b, c, d, e, f, g, t, rest.
  - intros (a & b & c & d & e & f & g & t & rest & -> & ->). reflexivity.
Qed.

Lemma cleanRow_accepts (row : list jsval) :
  (exists it, cleanRow row = Some it) <->
  (8 <= List.length row)%nat /\ exists t, nth_error row 7 = Some (VNum t).
Proof.
  split.
  - intros [it H]. apply cleanRow_Some_iff in H.
    destruct H as (a & b & c & d & e & f & g & t & rest & -> & _).
    split; [simpl; lia|now exists t].
  - intros [Hlen [t Ht]].
    destruct row as [|a [|b [|c [|d [|e [|f [|g [|h rest]]]]]]]]; simpl in Hlen;
      try lia.
    simpl in Ht. injection Ht as ->. eexists. reflexivity.
Qed.

Lemma cleanRow_None_iff (row : list jsval) :
  cleanRow row = None <->
  ~ ((8 <= List.length row)%nat /\ exists t, nth_error row 7 = Some (VNum t)).
Proof.
  rewrite <- cleanRow_accepts. destruct (cleanRow row) as [it|].
  - split; [discriminate|]. intros H. exfalso. apply H. now exists it.
  - split; [|reflexivity]. intros _ [it H]. discriminate.
Qed.

(** C2: a row enters the cleaned data exactly when it has at least eight
    cells and the eighth is a number; the cleaned data are the accepted
    rows, in order; a row of six cells and a row whose eighth cell is the
    text N/A are left out; rows of the same length with the same eighth
    cell are accepted or rejected together. *)
Theorem normalizer_acceptance :
  (forall row,
      (exists it, cleanRow row = Some it) <->
      (8 <= List.length row)%nat /\ exists t, nth_error row 7 = Some (VNum t))
  /\ (forall rows it,
         In it (cleanedData rows) <->
         exists row, In row rows /\ cleanRow row = Some it)
  /\ (forall row, List.length row = 6%nat -> cleanRow row = None)
  /\ (forall row, nth_error row 7 = Some (VStr "N/A") -> cleanRow row = None)
  /\ (forall row row',
         List.length row = List.length row' ->
         nth_error row 7 = nth_error row' 7 ->
         (cleanRow row = None <-> cleanRow row' = None)).
Proof.
  split; [exact cleanRow_accepts|].
  split.
  { intros rows it. rewrite cleanedData_flat_map, in_flat_map.
    split.
    - intros [row [Hin Hit]]. exists row. split; [assumption|].
      destruct (cleanRow row) as [it'|]; [|inversion Hit].
      destruct Hit as [->|[]]. reflexivity.
    - intros [row [Hin Hit]]. exists row. split; [assumption|].
      rewrite Hit. now left. }
  split.
  { intros row Hlen. apply cleanRow_None_iff. intros [H _]. lia. }
  split.
  { intros row H8. apply cleanRow_None_iff. intros [_ [t Ht]]. congruence. }
  intros row row' Hlen H8. rewrite !cleanRow_None_iff, Hlen, H8. reflexivity.
Qed.

Lemma normalizer_acceptance_witness :
  (exists it, cleanRow row_full = Some it)
  /\ In (line "2025-01-05" "Market" "Dairy" "Whole Milk" 1 3.5 3.5)
        (cleanedData [row_short; [VStr "2025-01-05"; VStr "Market"; VStr "Dairy";
                                  VStr "Whole Milk"; VNum 1; VStr "ea";
                                  VNum 3.5; VNum 3.5]])
  /\ cleanRow row_short = None
  /\ cleanRow row_text_total = None
  /\ (cleanRow row_full = None <-> cleanRow row_odd_types = None).
Proof.
  destruct normalizer_acceptance as (H1 & H2 & H3 & H4 & H5).
  split.
  { apply H1. split; [simpl; lia|]. exists 3.5%float. reflexivity. }
  split.
  { apply H2. eexists. split; [right; left; reflexivity|reflexivity]. }
  split; [apply H3; reflexivity|].
  split; [apply H4; reflexivity|].
  apply H5; reflexivity.
Defined.

(** C10: a row of more than eight cells whose eighth is a number is
    accepted, and its record is the record of its first eight cells. *)
Theorem normalizer_ignores_trailing_cells (row : list jsval) (t : float) :
  (8 < List.length row)%nat ->
  nth_error row 7 = Some (VNum t) ->
  exists it, cleanRow row = Some it /\ cleanRow (firstn 8 row) = Some it.
Proof.
  intros Hlen H8.
  destruct row as [|a [|b [|c [|d [|e [|f [|g [|h rest]]]]]]]]; simpl in Hlen;
    try lia.
  simpl in H8. injection H8 as ->.
  eexists. split; reflexivity.
Qed.

Lemma normalizer_ignores_trailing_cells_witness :
  exists it, cleanRow row_long = Some it /\ cleanRow (firstn 8 row_long) = Some it.
Proof.
  apply (normalizer_ignores_trailing_cells row_long 3.5).
  - simpl. lia.
  - reflexivity.
Defined.


(** X1: the record of an accepted row holds the cells 0 to 7 of the row
    under the headers Date, Store, Category, Item, Quantity, Unit, Price and
    Total, in that order. *)
Theorem cleanRow_fields (row : list jsval) (it : item) :
  cleanRow row = Some it ->
  nth_error row 0 = Some (Date it)
  /\ nth_error row 1 = Some (Store it)
  /\ nth_error row 2 = Some (Category it)
  /\ nth_error row 3 = Some (Item it)
  /\ nth_error row 4 = Some (Quantity it)
  /\ nth_error row 5 = Some (Unit it)
  /\ nth_error row 6 = Some (Price it)
  /\ nth_error row 7 = Some (VNum (Total it)).
Proof.
  intros H. apply cleanRow_Some_iff in H.
  destruct H as (a & b & c & d & e & f & g & t & rest & -> & ->).
  repeat split.
Qed.

Lemma cleanRow_fields_witness :
  nth_error row_long 3 = Some (VStr "Whole Milk")
  /\ nth_error row_long 7 = Some (VNum 3.5).
Proof.
  assert (H : cleanRow row_long
              = Some (mkItem (VStr "2025-01-05") (VStr "Market") (VStr "Dairy")
                             (VStr "Whole Milk") (VNum 1) (VStr "gal")
                             (VNum 3.5) 3.5)) by reflexivity.
  destruct (cleanRow_fields row_long _ H) as (_ & _ & _ & H3 & _ & _ & _ & H7).
  split; [exact H3|exact H7].
Defined.

(** X2: cleaning keeps the order of the rows and works row by row: the
    cleaned data of two batches of rows are the cleaned data of the first
    followed by those of the second; there are never more records than rows;
    and the cleaned data are empty exactly when every row is rejected, an
    empty file included. *)
Theorem cleanedData_batches :
  (forall rows1 rows2,
      cleanedData (rows1 ++ rows2) = (cleanedData rows1 ++ cleanedData rows2)%list)
  /\ (forall rows, (List.length (cleanedData rows) <= List.length rows)%nat)
  /\ (forall rows,
         cleanedData rows = [] <-> forall row, In row rows -> cleanRow row = None).
Proof.
  split; [|split].
  - intros rows1 rows2. rewrite !cleanedData_flat_map. apply flat_map_app.
  - intros rows. rewrite cleanedData_flat_map.
    induction rows as [|row rows IH]; simpl; [lia|].
    rewrite length_app. destruct (cleanRow row); simpl; lia.
  - intros rows. rewrite cleanedData_flat_map.
    induction rows as [|row rows IH]; simpl.
    + split; [intros _ row []|reflexivity].
    + split.
      * intros H. apply app_eq_nil in H. destruct H as [H1 H2].
        intros r [<-|Hin]; [|now apply IH].
        now destruct (cleanRow row).
      * intros H. rewrite (H row (or_introl eq_refl)). simpl.
        apply IH. intros r Hin. apply H. now right.
Qed.

Lemma cleanedData_batches_witness :
  cleanedData [row_short; row_text_total] = [].
Proof.
  apply (proj2 (proj2 cleanedData_batches)).
  intros row [<-|[<-|[]]]; reflexivity.
Defined.


(** ** Sorted output *)

Lemma Sorted_weaken (A : Type) (R R' : A -> A -> Prop) (l : list A) :
  (forall a b, R a b -> R' a b) -> Sorted R l -> Sorted R' l.
Proof.
  intros HR. induction 1 as [|x l Hs IH Hd]; constructor; [assumption|].
  destruct Hd; constructor. now apply HR.
Qed.

Lemma Array_sort_sorted (A : Type) (cmp : A -> A -> Z) (arr : list A) :
  (forall a b, (0 < cmp a b)%Z -> (cmp b a <= 0)%Z) ->
  Sorted (fun a b => (cmp a b <= 0)%Z) (Array_sort cmp arr).
Proof.
  intros Htot. unfold Array_sort.
  apply (Sorted_weaken _ (fun a b => (cmp a b <=? 0)%Z = true)).
  - intros a b. apply Z.leb_le.
  - apply isort_sorted. intros a b Hab. apply Z.leb_le, Htot.
    apply Z.leb_gt in Hab. lia.
Qed.

Lemma Array_sort_strongly_sorted (A : Type) (cmp : A -> A -> Z) (arr : list A) :
  (forall a b, (0 < cmp a b)%Z -> (cmp b a <= 0)%Z) ->
  (forall a b c, (cmp a b <= 0)%Z -> (cmp b c <= 0)%Z -> (cmp a c <= 0)%Z) ->
  StronglySorted (fun a b => (cmp a b <= 0)%Z) (Array_sort cmp arr).
Proof.
  intros Htot Htrans. apply Sorted_StronglySorted.
  - intros a b c. apply Htrans.
  - now apply Array_sort_sorted.
Qed.

(** Sorting by a key under a collation that is a total preorder. *)
Lemma sort_by_collation (A : Type) (collate : string -> string -> Z)
      (key : A -> string) (arr : list A) :
  (forall a b, (0 < collate a b)%Z -> (collate b a <= 0)%Z) ->
  (forall a b c, (collate a b <= 0)%Z -> (collate b c <= 0)%Z -> (collate a c <= 0)%Z) ->
  StronglySorted (fun a b => (collate (key a) (key b) <= 0)%Z)
                 (Array_sort (fun a b => collate (key a) (key b)) arr).
Proof.
  intros Htot Htrans.
  apply (Array_sort_strongly_sorted _ (fun a b => collate (key a) (key b))).
  - intros a b. apply Htot.
  - intros a b c. apply Htrans.
Qed.

(** *** The code-unit collation is a total preorder *)

Lemma compare_not_Gt_trans (a b c : string) :
  String.compare a b <> Gt -> String.compare b c <> Gt ->
  String.compare a c <> Gt.
Proof.
  revert b c. induction a as [|x a IH]; intros [|y b] [|z c]; simpl;
    try congruence.
  unfold Ascii.compare.
  destruct (N.compare_spec (N_of_ascii x) (N_of_ascii y)) as [Hxy|Hxy|Hxy];
    destruct (N.compare_spec (N_of_ascii y) (N_of_ascii z)) as [Hyz|Hyz|Hyz];
    destruct (N.compare_spec (N_of_ascii x) (N_of_ascii z)) as [Hxz|Hxz|Hxz];
    try congruence; try lia.
  apply IH.
Qed.

Lemma codeUnitCompare_total (a b : string) :
  (0 < codeUnitCompare a b)%Z -> (codeUnitCompare b a <= 0)%Z.
Proof.
  unfold codeUnitCompare. rewrite (String.compare_antisym a b).
  destruct (String.compare b a); simpl; lia.
Qed.

Lemma codeUnitCompare_trans (a b c : string) :
  (codeUnitCompare a b <= 0)%Z -> (codeUnitCompare b c <= 0)%Z ->
  (codeUnitCompare a c <= 0)%Z.
Proof.
  unfold codeUnitCompare. intros Hab Hbc.
  pose proof (compare_not_Gt_trans a b c) as H.
  destruct (String.compare a b); try lia;
    destruct (String.compare b c); try lia;
    destruct (String.compare a c); try lia;
    exfalso; apply H; congruence.
Qed.

(** ** Dictionaries of records *)

Section EnsureFacts.
Context {V : Type}.

(** [if (!o[k]) o[k] = {...}]: a key that [Object.prototype] answers to
    gets no entry. *)
Lemma keys_ensure (k : string) (v : V) (o : obj V) :
  map fst (match lookup k o with Missing => set k v o | _ => o end)
  = if not_inherited k then add_key k (map fst o) else map fst o.
Proof.
  unfold lookup, not_inherited. destruct (get k o) as [v'|] eqn:G.
  - destruct (inherited k); cbn [negb]; [reflexivity|].
    symmetry. apply add_key_present. now apply (get_Some_keys k v').
  - destruct (inherited k); cbn [negb]; [reflexivity|]. apply keys_set.
Qed.

Lemma get_ensure (k k' : string) (v : V) (o : obj V) :
  inherited k' = false ->
  get k' (match lookup k o with Missing => set k v o | _ => o end)
  = if (k =? k')%string
    then Some (match get k' o with Some v' => v' | None => v end)
    else get k' o.
Proof.
  intros I'. unfold lookup.
  destruct (String.eqb_spec k k') as [->|Hne].
  - rewrite I'. destruct (get k' o) as [v'|] eqn:G; [exact G|].
    now rewrite get_set, String.eqb_refl.
  - destruct (get k o) as [v'|]; [reflexivity|].
    destruct (inherited k); [reflexivity|].
    rewrite get_set. now destruct (String.eqb_spec k k').
Qed.
End EnsureFacts.

Lemma keys_of_total (f : item -> string) (l : list item) :
  keys_of (fun it => Some (f it)) l = map f l.
Proof.
  unfold keys_of. induction l as [|x l IH]; [reflexivity|].
  cbn [flat_map map app]. now rewrite IH.
Qed.

(** ** The trip summary *)

Lemma keys_trip_step (ts : obj Trip.t) (it : item) :
  map fst (trip_step ts it)
  = match trip_key it with
    | Some k => if not_inherited k then add_key k (map fst ts) else map fst ts
    | None => map fst ts
    end.
Proof. unfold trip_step, trip_key. rewrite !keys_modify. apply keys_ensure. Qed.

Lemma trips_keys (cleaned : list item) :
  map fst (trips cleaned)
  = first_seen (filter not_inherited
                       (map (fun it => ToString (Date it)) cleaned)).
Proof.
  unfold trips.
  rewrite (fold_keys_where _ _ not_inherited trip_key keys_trip_step).
  unfold keys_where, trip_key. now rewrite keys_of_total.
Qed.

Lemma totalTrips_first_seen (cleaned : list item) :
  Overall.totalTrips (stats cleaned)
  = List.length (first_seen (filter not_inherited
                               (map (fun it => ToString (Date it)) cleaned))).
Proof.
  unfold stats. simpl.
  rewrite (Permutation_length (Object_keys_perm (trips cleaned))).
  now rewrite trips_keys.
Qed.

Lemma filter_all_In (A : Type) (f : A -> bool) (l : list A) :
  (forall x, In x l -> f x = true) -> filter f l = l.
Proof.
  induction l as [|x l IH]; simpl; intros H; [reflexivity|].
  rewrite (H x (or_introl eq_refl)), IH; [reflexivity|].
  intros y Hy. apply H. now right.
Qed.

(** C6: the trip summary adds up the Total of all records, counts the
    records, and divides the spend by the number of trips; the number of
    trips is the number of distinct date strings that [Object.prototype]
    does not answer to, hence the number of distinct date strings when no
    date reads [constructor], [toString] or the like.  A record set whose
    only date reads [constructor] has no trip, and an average per trip that
    is infinite. *)
Theorem trip_summary (cleaned : list item) :
  Overall.totalTrips (stats cleaned)
  = List.length
      (nodup string_dec
             (filter not_inherited (map (fun it => ToString (Date it)) cleaned)))
  /\ ((forall it, In it cleaned -> inherited (ToString (Date it)) = false) ->
      Overall.totalTrips (stats cleaned)
      = List.length
          (nodup string_dec (map (fun it => ToString (Date it)) cleaned)))
  /\ Overall.totalSpent (stats cleaned) = sum_of (map Total cleaned)
  /\ Overall.totalItems (stats cleaned) = List.length cleaned
  /\ Overall.avgPerTrip (stats cleaned)
     = (Overall.totalSpent (stats cleaned)
        / Number_of_nat (Overall.totalTrips (stats cleaned)))%float
  /\ stats constructor_date = Overall.mk 3.5 infinity 0 1.
Proof.
  assert (H1 : Overall.totalTrips (stats cleaned)
               = List.length
                   (nodup string_dec
                          (filter not_inherited
                                  (map (fun it => ToString (Date it)) cleaned)))).
  { rewrite totalTrips_first_seen. apply first_seen_length. }
  split; [exact H1|]. split; [|split; [|split; [|split]]].
  - intros Hall. rewrite H1, filter_all_In; [reflexivity|].
    intros k Hk. apply in_map_iff in Hk. destruct Hk as (it & <- & Hin).
    unfold not_inherited. now rewrite (Hall it Hin).
  - apply sumTotal_sum_of.
  - reflexivity.
  - reflexivity.
  - vm_compute. reflexivity.
Qed.

Lemma trip_summary_witness :
  Overall.totalTrips (stats week)
  = List.length (nodup string_dec (map (fun it => ToString (Date it)) week))
  /\ Overall.totalTrips (stats week) = 3%nat.
Proof.
  split; [|reflexivity].
  apply (proj1 (proj2 (trip_summary week))).
  intros it Hin. simpl in Hin.
  repeat (destruct Hin as [<-|Hin]; [reflexivity|]). destruct Hin.
Defined.

(** ** The monthly summary *)

Lemma month_key_Some (it : item) (k : string) :
  month_key it = Some k <->
  exists d, Date it = VStr d /\ includes "-" d = true /\ k = substring 0 7 d.
Proof.
  unfold month_key. split.
  - destruct (Date it) as [d| | | |]; try discriminate.
    destruct (includes "-" d) eqn:E; [|discriminate].
    intros [= <-]. now exists d.
  - intros (d & -> & -> & ->). reflexivity.
Qed.

Lemma substring_length_le (n m : nat) (s : string) :
  (String.length (substring n m s) <= m)%nat.
Proof.
  revert n m. induction s as [|c s IH]; intros n m.
  - destruct n, m; simpl; lia.
  - destruct n as [|n]; simpl.
    + destruct m as [|m]; simpl; [lia|]. specialize (IH 0%nat m). lia.
    + apply IH.
Qed.

(** A month key is too short to read [__proto__]. *)
Lemma month_key_not_proto (it : item) (k : string) :
  month_key it = Some k -> k <> "__proto__".
Proof.
  intros H. apply month_key_Some in H. destruct H as (d & _ & _ & ->).
  intros E. pose proof (substring_length_le 0 7 d) as L.
  rewrite E in L. simpl in L. lia.
Qed.

Section MonthlySummary.
Variable localeCompare : string -> string -> Z.

Lemma monthArray_months (cleaned : list item) :
  Permutation (map Month.month (monthArray localeCompare cleaned))
              (map fst (months cleaned)).
Proof.
  unfold monthArray.
  rewrite (Permutation_map Month.month (Array_sort_perm _ _ _)).
  rewrite map_map.
  rewrite (map_ext _ fst) by (now intros [k v]).
  apply Permutation_map, Object_entries_perm.
Qed.

Lemma monthArray_In (cleaned : list item) (e : Month.t) :
  In e (monthArray localeCompare cleaned) ->
  In (Month.month e, Month.spent e) (months cleaned).
Proof.
  unfold monthArray. intros Hin.
  apply (Permutation_in _ (Array_sort_perm _ _ _)) in Hin.
  apply in_map_iff in Hin. destruct Hin as [[k v] [<- Hin]].
  now apply (Permutation_in _ (Object_entries_perm _)) in Hin.
Qed.

Hypothesis localeCompare_total :
  forall a b, (0 < localeCompare a b)%Z -> (localeCompare b a <= 0)%Z.
Hypothesis localeCompare_trans :
  forall a b c, (localeCompare a b <= 0)%Z -> (localeCompare b c <= 0)%Z ->
                (localeCompare a c <= 0)%Z.

(** C5, as amended: the monthly summary has one row per distinct month
    key, the month keys are the first seven characters (the whole string
    when it is shorter) of the dates that are strings with a hyphen in them,
    and the rows are in ascending order of month key under the collation
    of [localeCompare]. *)
Theorem monthArray_keys_sorted (cleaned : list item) :
  NoDup (map Month.month (monthArray localeCompare cleaned))
  /\ (forall k,
         In k (map Month.month (monthArray localeCompare cleaned)) <->
         exists it d, In it cleaned /\ Date it = VStr d
                      /\ includes "-" d = true /\ k = substring 0 7 d)
  /\ StronglySorted
       (fun a b => (localeCompare (Month.month a) (Month.month b) <= 0)%Z)
       (monthArray localeCompare cleaned).
Proof.
  split; [|split].
  - apply (Permutation_NoDup (Permutation_sym (monthArray_months cleaned))).
    rewrite months_spend_by. apply spend_by_NoDup.
  - intros k.
    transitivity (In k (map fst (months cleaned))).
    + split; apply Permutation_in;
        [apply monthArray_months|apply Permutation_sym, monthArray_months].
    + rewrite months_spend_by, spend_by_keys_In.
      split.
      * intros (_ & it & Hin & Hk). apply month_key_Some in Hk.
        destruct Hk as (d & Hd & Hi & Hk). now exists it, d.
      * intros (it & d & Hin & Hd & Hi & Hk).
        assert (Hm : month_key it = Some k) by (apply month_key_Some; now exists d).
        split; [now apply (month_key_not_proto it)|]. now exists it.
  - apply (sort_by_collation _ localeCompare Month.month);
      [exact localeCompare_total|exact localeCompare_trans].
Qed.
End MonthlySummary.

Lemma monthArray_keys_sorted_witness :
  map Month.month (monthArray codeUnitCompare two_months) = ["2025-01"; "2025-02"]
  /\ StronglySorted
       (fun a b => (codeUnitCompare (Month.month a) (Month.month b) <= 0)%Z)
       (monthArray codeUnitCompare two_months).
Proof.
  split; [reflexivity|].
  apply (monthArray_keys_sorted codeUnitCompare
           codeUnitCompare_total codeUnitCompare_trans two_months).
Defined.

(** C5, as stated, fails on dates written with slashes: 01/05/2025 has the
    prefix 01/05/2 and the monthly summary has no row. *)
Lemma month_keys_are_date_prefixes_counterexample :
  ~ month_keys_are_date_prefixes (monthArray codeUnitCompare slash_dates) slash_dates.
Proof.
  intros H. destruct (H "01/05/2") as [_ Hback].
  apply Hback. left. reflexivity.
Qed.

(** ** The top items *)

Lemma get_count_item (k : string) (its : obj Stats.t) (row : item) :
  inherited k = false ->
  get k (count_item its row)
  = if purchase_of k row then
      let s0 := match get k its with
                | Some s0 => s0
                | None => Stats.mk 0 0 (Category row)
                end in
      Some (Stats.mk (S (Stats.count s0)) (Stats.total s0 + Total row)
                     (Stats.category s0))
    else get k its.
Proof.
  intros I. unfold count_item, purchase_of, isCRV.
  destruct (strict_eq_str (Category row) "CRV"); simpl; [reflexivity|].
  destruct (String.eqb_spec (ToString (Item row)) k) as [->|Hne].
  - rewrite !get_modify, (get_ensure k k _ _ I), !String.eqb_refl.
    now destruct (get k its).
  - apply String.eqb_neq in Hne.
    now rewrite !get_modify, (get_ensure _ k _ _ I), !Hne.
Qed.

Lemma keys_count_item (its : obj Stats.t) (row : item) :
  map fst (count_item its row)
  = match item_key row with
    | Some k => if not_inherited k then add_key k (map fst its) else map fst its
    | None => map fst its
    end.
Proof.
  unfold count_item, item_key, isCRV.
  destruct (strict_eq_str (Category row) "CRV"); simpl; [reflexivity|].
  rewrite !keys_modify. apply keys_ensure.
Qed.

Lemma items_keys (cleaned : list item) :
  map fst (items cleaned)
  = first_seen (keys_where not_inherited item_key cleaned).
Proof.
  unfold items. apply (fold_keys_where _ _ not_inherited item_key keys_count_item).
Qed.

Lemma items_NoDup (cleaned : list item) : NoDup (map fst (items cleaned)).
Proof. rewrite items_keys. apply first_seen_NoDup. Qed.

(** A name with an entry is not one that [Object.prototype] answers to. *)
Lemma items_entry_name (cleaned : list item) (k : string) (s : Stats.t) :
  In (k, s) (items cleaned) -> inherited k = false.
Proof.
  intros Hin.
  assert (Hk : In k (map fst (items cleaned))).
  { change k with (fst (k, s)). now apply in_map. }
  rewrite items_keys, first_seen_In, keys_where_In in Hk.
  destruct Hk as [Hk _]. unfold not_inherited in Hk.
  now apply negb_true_iff in Hk.
Qed.

Lemma items_count (k : string) (l : list item) (o : obj Stats.t) :
  inherited k = false ->
  count_of (get k (fold_left count_item l o))
  = (count_of (get k o) + List.length (filter (purchase_of k) l))%nat.
Proof.
  intros I. revert o. induction l as [|x l IH]; intros o; simpl; [lia|].
  rewrite IH, (get_count_item k o x I).
  destruct (purchase_of k x); simpl; [|lia].
  destruct (get k o); simpl; lia.
Qed.

Lemma items_total (k : string) (l : list item) (o : obj Stats.t) :
  inherited k = false ->
  total_of (get k (fold_left count_item l o))
  = fold_left PrimFloat.add (map Total (filter (purchase_of k) l))
              (total_of (get k o)).
Proof.
  intros I. revert o. induction l as [|x l IH]; intros o; [reflexivity|].
  cbn [fold_left filter]. rewrite IH, (get_count_item k o x I).
  destruct (purchase_of k x); [|reflexivity].
  cbn [map fold_left]. destruct (get k o); reflexivity.
Qed.

Lemma items_category (k : string) (l : list item) (o : obj Stats.t) (s : Stats.t) :
  inherited k = false ->
  get k (fold_left count_item l o) = Some s ->
  match get k o with
  | Some s0 => Stats.category s = Stats.category s0
  | None => exists it, In it l /\ purchase_of k it = true
                       /\ Stats.category s = Category it
  end.
Proof.
  intros I. revert o. induction l as [|x l IH]; intros o; simpl.
  - intros ->. reflexivity.
  - intros H. apply IH in H. rewrite (get_count_item k o x I) in H.
    destruct (purchase_of k x) eqn:Ep.
    + destruct (get k o) as [s0|]; simpl in H; [exact H|].
      exists x. auto.
    + destruct (get k o) as [s0|]; [exact H|].
      destruct H as (it & Hin & Hp & Hc). exists it. auto.
Qed.

Lemma items_category_first (k : string) (l : list item) (o : obj Stats.t)
      (s : Stats.t) :
  inherited k = false ->
  get k (fold_left count_item l o) = Some s ->
  get k o = None ->
  exists it, find (purchase_of k) l = Some it /\ Stats.category s = Category it.
Proof.
  intros I. revert o. induction l as [|x l IH]; intros o; simpl.
  - intros -> H. discriminate.
  - intros H Hnone. destruct (purchase_of k x) eqn:Ep.
    + exists x. split; [reflexivity|].
      apply (items_category k l _ s I) in H.
      rewrite (get_count_item k o x I), Ep, Hnone in H.
      exact H.
    + apply (IH (count_item o x)); [exact H|].
      now rewrite (get_count_item k o x I), Ep.
Qed.

Lemma StronglySorted_firstn (A : Type) (R : A -> A -> Prop) (n : nat) (l : list A) :
  StronglySorted R l -> StronglySorted R (firstn n l).
Proof.
  revert l. induction n as [|n IH]; intros l Hs; simpl; [constructor|].
  destruct Hs as [|x l Hs Hall]; constructor.
  - now apply IH.
  - rewrite Forall_forall in *. intros y Hy. apply Hall.
    rewrite <- (firstn_skipn n l). apply in_or_app. now left.
Qed.

Lemma In_firstn (A : Type) (n : nat) (l : list A) (x : A) :
  In x (firstn n l) -> In x l.
Proof.
  intros H. rewrite <- (firstn_skipn n l). apply in_or_app. now left.
Qed.

Lemma sorted_by_count (arr : list TopItem.t) :
  StronglySorted (fun a b => (TopItem.count b <= TopItem.count a)%nat)
                 (Array_sort by_count_desc arr).
Proof.
  apply (StronglySorted_ind
           (fun l => StronglySorted
                       (fun a b => (TopItem.count b <= TopItem.count a)%nat) l)
           (R := fun a b => (by_count_desc a b <= 0)%Z)).
  - constructor.
  - intros a l _ IH Hall. constructor; [exact IH|].
    eapply Forall_impl; [|exact Hall]. intros b. unfold by_count_desc. lia.
  - apply Array_sort_strongly_sorted.
    + intros a b. unfold by_count_desc. lia.
    + intros a b c. unfold by_count_desc. lia.
Qed.

(** An entry of the top items, from the table of the items. *)
Lemma itemArray_entry (cleaned : list item) (e : TopItem.t) :
  In e (itemArray cleaned) ->
  exists s, In (TopItem.name e, s) (items cleaned)
            /\ e = top_of (TopItem.name e, s)
            /\ strict_eq_str (Stats.category s) "CRV" = false.
Proof.
  unfold itemArray. intros Hin.
  apply In_firstn in Hin.
  apply (Permutation_in _ (Array_sort_perm _ _ _)) in Hin.
  apply in_map_iff in Hin. destruct Hin as [[k s] [<- Hin]].
  apply filter_In in Hin. destruct Hin as [Hin Hcat].
  apply (Permutation_in _ (Object_entries_perm _)) in Hin.
  exists s. simpl. split; [exact Hin|]. split; [reflexivity|].
  now apply negb_true_iff.
Qed.

(** C4, as amended: the top items are at most ten, in descending order of
    count; an entry gathers the records of its name whose category is not
    ["CRV"] and those only (their number, the sum of their Total, the
    category of one of them); its average price is its total over its
    count as [toFixed(2)] writes it: rounded to two decimals when the
    quotient is a number below 1e21 in magnitude, written as [toString]
    writes it otherwise. *)
Theorem itemArray_top_ten (cleaned : list item) :
  (List.length (itemArray cleaned) <= 10)%nat
  /\ StronglySorted (fun a b => (TopItem.count b <= TopItem.count a)%nat)
                    (itemArray cleaned)
  /\ forall e, In e (itemArray cleaned) ->
       strict_eq_str (TopItem.category e) "CRV" = false
       /\ (exists it, In it cleaned /\ purchase_of (TopItem.name e) it = true
                      /\ TopItem.category e = Category it)
       /\ TopItem.count e
          = List.length (filter (purchase_of (TopItem.name e)) cleaned)
       /\ (0 < TopItem.count e)%nat
       /\ TopItem.total e
          = sum_of (map Total (filter (purchase_of (TopItem.name e)) cleaned))
       /\ TopItem.avgPrice e
          = toFixed 2 (TopItem.total e / Number_of_nat (TopItem.count e))
       /\ (fixed_range (TopItem.total e / Number_of_nat (TopItem.count e)) = true ->
           rounded_to 2
             (float_value (TopItem.total e / Number_of_nat (TopItem.count e)))
             (TopItem.avgPrice e))
       /\ (fixed_range (TopItem.total e / Number_of_nat (TopItem.count e)) = false ->
           TopItem.avgPrice e
           = Number_toString (TopItem.total e / Number_of_nat (TopItem.count e))).
Proof.
  split; [apply firstn_le_length|].
  split; [apply StronglySorted_firstn, sorted_by_count|].
  intros e Hin.
  destruct (itemArray_entry cleaned e Hin) as (s & Hs & He & Hcat).
  set (k := TopItem.name e) in *.
  pose proof (items_entry_name cleaned k s Hs) as I.
  apply In_get_Some in Hs; [|apply items_NoDup].
  unfold items in Hs.
  pose proof (items_count k cleaned [] I) as Hc.
  pose proof (items_total k cleaned [] I) as Ht.
  pose proof (items_category k cleaned [] s I Hs) as Hk.
  rewrite Hs in Hc, Ht. simpl in Hc, Ht, Hk.
  destruct Hk as (it & Hit & Hp & Hk).
  assert (Hpos : (0 < Stats.count s)%nat).
  { rewrite Hc. assert (Hf : In it (filter (purchase_of k) cleaned))
      by (apply filter_In; auto).
    destruct (filter (purchase_of k) cleaned); [destruct Hf|simpl; lia]. }
  rewrite He. unfold top_of.
  cbn [TopItem.name TopItem.count TopItem.total TopItem.category TopItem.avgPrice].
  split; [exact Hcat|].
  split; [now exists it|].
  split; [exact Hc|].
  split; [exact Hpos|].
  split; [exact Ht|].
  split; [reflexivity|].
  split; [apply (toFixed_rounded 1)|apply toFixed_toString].
Qed.

Lemma itemArray_top_ten_witness :
  let e := TopItem.mk "Gum" 2 (1 + 1.01) (VStr "Candy") "1.00" in
  In e (itemArray gum)
  /\ TopItem.count e = List.length (filter (purchase_of "Gum") gum)
  /\ TopItem.total e = sum_of (map Total (filter (purchase_of "Gum") gum))
  /\ rounded_to 2 (float_value ((1 + 1.01) / 2)) "1.00".
Proof.
  intros e.
  assert (Hin : In e (itemArray gum)) by (vm_compute; left; reflexivity).
  split; [exact Hin|].
  destruct (itemArray_top_ten gum) as (_ & _ & H).
  destruct (H e Hin) as (_ & _ & H3 & _ & H5 & _ & H7 & _).
  split; [exact H3|]. split; [exact H5|]. apply H7. reflexivity.
Defined.

(** C4, as stated, fails on one purchase of 2^70 dollars: the average
    price is written 1.1805916207174113e+21, which has no two decimals and
    is not the quotient 1180591620717411303424 either. *)
Lemma average_prices_rounded_counterexample : ~ average_prices_rounded fortune.
Proof.
  intros H.
  destruct (H (TopItem.mk "Diamond" 1 0x1p70 (VStr "Jewels")
                          "1.1805916207174113e+21"))
    as (n & q & Hq & Hv & Hlo & Hhi & Hd).
  - vm_compute. left. reflexivity.
  - vm_compute in Hd. discriminate.
Qed.

(** The same average prices do not read back as the quotient either: the
    digits stand for 1180591620717411300000. *)
Example fortune_reads_off :
  read_number (toFixed 2 0x1p70) = Some (1180591620717411300000 # 1)
  /\ float_value 0x1p70 == 1180591620717411303424 # 1.
Proof. split; vm_compute; reflexivity. Qed.

(** X22: a top item is listed under the category of the first record of
    that name that is not a deposit, whatever categories later records of
    that name have. *)
Theorem itemArray_category_of_first (cleaned : list item) (e : TopItem.t) :
  In e (itemArray cleaned) ->
  exists it, find (purchase_of (TopItem.name e)) cleaned = Some it
             /\ TopItem.category e = Category it.
Proof.
  intros Hin.
  destruct (itemArray_entry cleaned e Hin) as (s & Hs & He & _).
  pose proof (items_entry_name cleaned _ s Hs) as I.
  apply In_get_Some in Hs; [|apply items_NoDup].
  rewrite He. simpl.
  now apply (items_category_first _ cleaned [] s I).
Qed.

Lemma itemArray_category_of_first_witness :
  exists it, find (purchase_of "Whole Milk") week = Some it
             /\ VStr "Dairy" = Category it.
Proof.
  apply (itemArray_category_of_first week
           (TopItem.mk "Whole Milk" 2 9.5 (VStr "Dairy") "4.75")).
  vm_compute. left. reflexivity.
Defined.

(** ** Strings *)

Lemma prefix_app (pat s : string) :
  prefix pat s = true <-> exists post, s = pat ++ post.
Proof.
  revert s. induction pat as [|c pat IH]; intros s.
  - split; [intros _; now exists s|now destruct s].
  - destruct s as [|c' s]; simpl.
    + split; [discriminate|]. intros [post H]. discriminate.
    + destruct (Ascii.ascii_dec c c') as [<-|Hne].
      * rewrite IH. split; intros [post H]; exists post; congruence.
      * split; [discriminate|]. intros [post H]. congruence.
Qed.

Lemma includes_unfold (pat s : string) :
  includes pat s
  = prefix pat s
    || match s with
       | "" => false
       | String _ s' => includes pat s'
       end.
Proof. destruct s; reflexivity. Qed.

Lemma includes_substring_of (pat s : string) :
  includes pat s = true <-> substring_of pat s.
Proof.
  unfold substring_of. split.
  - induction s as [|c s IH]; rewrite includes_unfold; intros H;
      apply orb_true_iff in H; destruct H as [H|H]; try discriminate.
    + apply prefix_app in H. destruct H as [post ->]. now exists "", post.
    + apply prefix_app in H. destruct H as [post ->]. now exists "", post.
    + destruct (IH H) as (pre & post & ->). now exists (String c pre), post.
  - intros (pre & post & ->). induction pre as [|c pre IH]; rewrite includes_unfold.
    + apply orb_true_iff. left. apply prefix_app. now exists post.
    + apply orb_true_iff. right. exact IH.
Qed.

Lemma trim_start_blank (s : string) : all_space s = true -> trim_start s = "".
Proof.
  induction s as [|c s IH]; simpl; [reflexivity|].
  intros H. apply andb_true_iff in H. destruct H as [-> H]. now apply IH.
Qed.

Lemma trim_blank (s : string) : all_space s = true -> trim s = "".
Proof. intros H. unfold trim. now rewrite (trim_start_blank s H). Qed.

Lemma trim_start_not_blank (s : string) :
  all_space s = false ->
  exists c s', trim_start s = String c s' /\ is_space c = false.
Proof.
  induction s as [|c s IH]; simpl; [discriminate|].
  destruct (is_space c) eqn:E; simpl; [exact IH|].
  intros _. now exists c, s.
Qed.

Lemma trim_start_ends_dark (s : string) (c : ascii) :
  is_space c = false -> trim_start (s ++ String c "") <> "".
Proof.
  intros Hc. induction s as [|x s IH]; simpl.
  - now rewrite Hc.
  - destruct (is_space x); [exact IH|discriminate].
Qed.

Lemma rev_string_empty (s : string) : rev_string s = "" -> s = "".
Proof.
  destruct s as [|c s]; simpl; [reflexivity|].
  destruct (rev_string s); discriminate.
Qed.

Lemma trim_not_blank (s : string) : all_space s = false -> trim s <> "".
Proof.
  intros H. unfold trim.
  destruct (trim_start_not_blank s H) as (c & s' & -> & Hc).
  simpl. intros Hr. apply rev_string_empty in Hr.
  now apply (trim_start_ends_dark (rev_string s') c Hc).
Qed.

Lemma toLowerCase_empty (s : string) : toLowerCase s = "" -> s = "".
Proof. destruct s; [reflexivity|discriminate]. Qed.


(** ** The search *)

Lemma matches_string (term s : string) (it : item) :
  term <> "" -> Item it = VStr s ->
  (Search.matches (toLowerCase term) it = true <-> contains_ci term s).
Proof.
  intros Hterm Hs. unfold Search.matches, contains_ci. rewrite Hs. simpl.
  rewrite andb_true_iff, includes_substring_of. split; [now intros [_ H]|].
  intros H. split; [|exact H].
  destruct s as [|c s]; [|reflexivity].
  destruct H as (pre & post & H). simpl in H.
  destruct pre; simpl in H; [|discriminate].
  destruct (toLowerCase term) eqn:E; [|discriminate].
  apply toLowerCase_empty in E. contradiction.
Qed.

Lemma sum_of_totals (l : list item) :
  fold_left (fun sum it => (sum + Total it)%float) l 0%float
  = sum_of (map Total l).
Proof.
  unfold sum_of. generalize 0%float.
  induction l as [|x l IH]; intros a; [reflexivity|apply IH].
Qed.

(** *** The history loop *)

Lemma modify_absent (V : Type) (k : string) (f : V -> V) (o : obj V) :
  get k o = None -> modify k f o = o.
Proof.
  induction o as [|[k' v'] o IH]; simpl; [reflexivity|].
  destruct (k' =? k)%string; [discriminate|].
  intros H. now rewrite IH.
Qed.

Lemma record_purchase_absent (d : string) (it : item) (h : obj Search.History.t) :
  get d h = None -> Search.record_purchase d it h = h.
Proof.
  intros H. unfold Search.record_purchase.
  rewrite (modify_absent _ d _ h H). now apply modify_absent.
Qed.

(** Once a TypeError has ended the loop, nothing more happens. *)
Lemma history_loop_ended (l : list item) (pq : jsval) :
  fold_left Search.history_step l (pq, None) = (pq, None).
Proof. induction l as [|x l IH]; [reflexivity|exact IH]. Qed.

(** A step that goes on is a step of the dictionary. *)
Lemma history_step_goes_on (pq pq1 : jsval) (h h1 : obj Search.History.t)
      (it : item) :
  Search.history_step (pq, Some h) it = (pq1, Some h1) ->
  h1 = history_entry_step h it.
Proof.
  unfold Search.history_step, history_entry_step.
  destruct (Date it) as [date| | | |]; try (now intros [= _ <-]).
  unfold lookup. destruct (get date h) as [e|] eqn:G.
  - now intros [= _ <-].
  - destruct (inherited date).
    + rewrite (record_purchase_absent date it h G).
      destruct (date =? "__proto__")%string; now intros [= _ <-].
    + destruct ((date =? "quantity")%string && truthy pq); [discriminate|].
      now intros [= _ <-].
Qed.

Lemma history_loop_goes_on (l : list item) (pq pq' : jsval)
      (h h' : obj Search.History.t) :
  fold_left Search.history_step l (pq, Some h) = (pq', Some h') ->
  h' = fold_left history_entry_step l h.
Proof.
  revert pq h. induction l as [|x l IH]; intros pq h; cbn [fold_left].
  - now intros [= _ <-].
  - destruct (Search.history_step (pq, Some h) x) as [pq1 [h1|]] eqn:E.
    + apply history_step_goes_on in E. subst h1. apply IH.
    + rewrite history_loop_ended. discriminate.
Qed.

Lemma historyByDate_entries (pq pq' : jsval) (results : list item)
      (h : obj Search.History.t) :
  Search.historyByDate pq results = (pq', Some h) ->
  h = fold_left history_entry_step results [].
Proof. apply history_loop_goes_on. Qed.

(** The loop cannot stop when no result is dated [quantity]. *)
Lemma history_loop_completes (l : list item) (pq : jsval)
      (h : obj Search.History.t) :
  (forall it, In it l -> Date it <> VStr "quantity") ->
  exists pq' h', fold_left Search.history_step l (pq, Some h) = (pq', Some h').
Proof.
  revert pq h. induction l as [|x l IH]; intros pq h Hall; cbn [fold_left].
  - now exists pq, h.
  - assert (Hx : exists pq1 h1, Search.history_step (pq, Some h) x = (pq1, Some h1)).
    { unfold Search.history_step.
      destruct (Date x) as [date| | | |] eqn:D; try (now eexists; eexists).
      destruct (lookup date h); try (now eexists; eexists).
      - destruct (date =? "__proto__")%string; now eexists; eexists.
      - destruct (String.eqb_spec date "quantity") as [->|];
          [|now eexists; eexists].
        exfalso. apply (Hall x); [now left|exact D]. }
    destruct Hx as (pq1 & h1 & ->). apply IH.
    intros it Hin. apply Hall. now right.
Qed.

Lemma historyByDate_completes (pq : jsval) (results : list item) :
  (forall it, In it results -> Date it <> VStr "quantity") ->
  exists pq' h, Search.historyByDate pq results = (pq', Some h).
Proof. apply history_loop_completes. Qed.

(** Without a result dated [__proto__] the loop leaves [Object.prototype]
    as it is. *)
Lemma history_loop_clean (l : list item) (pq : jsval)
      (r : option (obj Search.History.t)) :
  (forall it, In it l -> Date it <> VStr "__proto__") ->
  fst (fold_left Search.history_step l (pq, r)) = pq.
Proof.
  revert pq r. induction l as [|x l IH]; intros pq r Hall; cbn [fold_left].
  - reflexivity.
  - assert (Hx : fst (Search.history_step (pq, r) x) = pq).
    { unfold Search.history_step. destruct r as [h|]; [|reflexivity].
      destruct (Date x) as [date| | | |] eqn:D; try reflexivity.
      destruct (lookup date h); try reflexivity.
      - destruct (String.eqb_spec date "__proto__") as [->|]; [|reflexivity].
        exfalso. apply (Hall x); [now left|exact D].
      - now destruct ((date =? "quantity")%string && truthy pq). }
    destruct (Search.history_step (pq, r) x) as [pq1 r1]. simpl in Hx. subst pq1.
    apply IH. intros it Hin. apply Hall. now right.
Qed.

Lemma on_date_spec (d : string) (it : item) :
  on_date d it = true <-> Date it = VStr d.
Proof.
  unfold on_date, strict_eq_str. destruct (Date it) as [s| | | |];
    try (split; discriminate).
  rewrite String.eqb_eq. split; [now intros ->|now intros [= ->]].
Qed.

Lemma get_history_entry_step (d : string) (h : obj Search.History.t) (it : item) :
  inherited d = false ->
  get d (history_entry_step h it)
  = if on_date d it then
      let e0 := match get d h with
                | Some e0 => e0
                | None => Search.History.mk d (VNum 0) 0
                end in
      Some (Search.History.mk
              (Search.History.date e0)
              (js_add (Search.History.quantity e0) (Search.quantity_or_1 it))
              (Search.History.total e0 + Total it))
    else get d h.
Proof.
  intros I. unfold history_entry_step, on_date, strict_eq_str,
              Search.record_purchase.
  destruct (Date it) as [date| | | |]; try reflexivity. cbv zeta.
  destruct (String.eqb_spec date d) as [->|Hne].
  - rewrite !get_modify, (get_ensure d d _ _ I), !String.eqb_refl.
    now destruct (get d h).
  - apply String.eqb_neq in Hne.
    now rewrite !get_modify, (get_ensure _ d _ _ I), !Hne.
Qed.

Lemma keys_history_entry_step (h : obj Search.History.t) (it : item) :
  map fst (history_entry_step h it)
  = match date_key it with
    | Some k => if not_inherited k then add_key k (map fst h) else map fst h
    | None => map fst h
    end.
Proof.
  unfold history_entry_step, date_key, Search.record_purchase.
  destruct (Date it) as [date| | | |]; try reflexivity. cbv zeta.
  rewrite !keys_modify.
  transitivity (if not_inherited date then add_key date (map fst h) else map fst h);
    [apply keys_ensure|].
  unfold not_inherited. destruct (inherited date) eqn:E; cbn [negb];
    rewrite ?E; reflexivity.
Qed.

Lemma date_key_Some (it : item) (k : string) :
  date_key it = Some k <-> Date it = VStr k /\ inherited k = false.
Proof.
  unfold date_key. destruct (Date it) as [d| | | |];
    try (split; [discriminate|intros [H _]; discriminate]).
  destruct (inherited d) eqn:I.
  - split; [discriminate|]. intros [[= ->] H]. congruence.
  - split; [intros [= ->]; auto|]. now intros [[= ->] _].
Qed.

Lemma keys_where_date_key (l : list item) :
  keys_where not_inherited date_key l = keys_of date_key l.
Proof.
  unfold keys_where. apply filter_all_In. intros k Hk.
  apply keys_of_In in Hk. destruct Hk as (it & _ & Hk).
  apply date_key_Some in Hk. unfold not_inherited. now rewrite (proj2 Hk).
Qed.

Lemma history_entries_keys (results : list item) :
  map fst (fold_left history_entry_step results [])
  = first_seen (keys_of date_key results).
Proof.
  rewrite (fold_keys_where _ _ not_inherited date_key keys_history_entry_step).
  now rewrite keys_where_date_key.
Qed.

Lemma history_total (d : string) (l : list item) (h : obj Search.History.t) :
  inherited d = false ->
  htotal (get d (fold_left history_entry_step l h))
  = fold_left PrimFloat.add (map Total (filter (on_date d) l)) (htotal (get d h)).
Proof.
  intros I. revert h. induction l as [|x l IH]; intros h; [reflexivity|].
  cbn [fold_left filter]. rewrite IH, (get_history_entry_step d h x I).
  destruct (on_date d x); [|reflexivity].
  cbn [map fold_left]. now destruct (get d h).
Qed.

Lemma history_date (d : string) (l : list item) (h : obj Search.History.t)
      (e : Search.History.t) :
  inherited d = false ->
  get d (fold_left history_entry_step l h) = Some e ->
  Search.History.date e
  = match get d h with Some e0 => Search.History.date e0 | None => d end.
Proof.
  intros I. revert h. induction l as [|x l IH]; intros h; simpl.
  - now intros ->.
  - intros H. apply IH in H. rewrite (get_history_entry_step d h x I) in H.
    destruct (on_date d x); [|exact H].
    now destruct (get d h).
Qed.

Lemma history_entries_name (results : list item) (k : string)
      (e : Search.History.t) :
  In (k, e) (fold_left history_entry_step results []) -> inherited k = false.
Proof.
  intros Hin.
  assert (Hk : In k (map fst (fold_left history_entry_step results []))).
  { change k with (fst (k, e)). now apply in_map. }
  rewrite history_entries_keys, first_seen_In, keys_of_In in Hk.
  destruct Hk as (it & _ & Hk). now apply date_key_Some in Hk.
Qed.

Lemma history_entries_entry (results : list item) (k : string)
      (e : Search.History.t) :
  In (k, e) (fold_left history_entry_step results []) ->
  get k (fold_left history_entry_step results []) = Some e
  /\ Search.History.date e = k /\ inherited k = false.
Proof.
  intros Hin. pose proof (history_entries_name results k e Hin) as I.
  apply In_get_Some in Hin;
    [|rewrite history_entries_keys; apply first_seen_NoDup].
  split; [exact Hin|]. split; [|exact I].
  now apply (history_date k results [] e I) in Hin.
Qed.

Lemma history_entries_dates (results : list item) :
  map Search.History.date (map snd (fold_left history_entry_step results []))
  = map fst (fold_left history_entry_step results []).
Proof.
  rewrite map_map. apply map_ext_in. intros [k e] Hin.
  now apply history_entries_entry in Hin.
Qed.

(** *** The price loop *)

Lemma price_key_Some (pq : jsval) (it : item) (k : string) :
  price_key pq it = Some k <->
  Date it = VStr k /\ truthy (Price it) = true /\ truthy (Quantity it) = true
  /\ Search.shadowed pq k = false.
Proof.
  unfold price_key. destruct (Date it) as [d| | | |];
    try (split; [discriminate|intros [H _]; discriminate]).
  destruct (truthy (Price it)), (truthy (Quantity it)),
    (Search.shadowed pq d) eqn:S; cbn [andb negb];
    try (split; [discriminate|intros ([= ->] & H1 & H2 & H3); congruence]).
  split; [intros [= ->]; auto|]. now intros ([= ->] & _).
Qed.

Lemma priced_on_spec (d : string) (it : item) :
  priced_on d it = true <->
  Date it = VStr d /\ truthy (Price it) = true /\ truthy (Quantity it) = true.
Proof.
  unfold priced_on, strict_eq_str. rewrite !andb_true_iff.
  destruct (Date it) as [date| | | |];
    try (split; [intros [[H _] _]|intros [H _]]; discriminate).
  rewrite String.eqb_eq. split.
  - intros [[-> H1] H2]. auto.
  - intros [[= ->] [H1 H2]]. auto.
Qed.

Lemma get_price_step (pq : jsval) (d : string) (p : obj Search.PricePoint.t)
      (it : item) :
  Search.shadowed pq d = false ->
  get d (Search.price_step pq p it)
  = match get d p with
    | Some e => Some e
    | None => if priced_on d it
              then Some (Search.PricePoint.mk d (Price it))
              else None
    end.
Proof.
  intros S. unfold Search.price_step, priced_on, strict_eq_str.
  destruct (Date it) as [date| | | |]; simpl; try (now destruct (get d p)).
  destruct (truthy (Price it) && truthy (Quantity it)) eqn:Et.
  - destruct (String.eqb_spec date d) as [->|Hne].
    + rewrite <- andb_assoc, Et.
      destruct (get d p) eqn:E; [exact E|].
      rewrite S, get_set, String.eqb_refl. reflexivity.
    + simpl. destruct (get date p) eqn:E; [now destruct (get d p)|].
      destruct (Search.shadowed pq date); [now destruct (get d p)|].
      rewrite get_set. destruct (String.eqb_spec date d); [congruence|].
      now destruct (get d p).
  - rewrite <- andb_assoc, Et, andb_false_r. now destruct (get d p).
Qed.

Lemma keys_price_step (pq : jsval) (p : obj Search.PricePoint.t) (it : item) :
  map fst (Search.price_step pq p it)
  = match price_key pq it with
    | Some k => add_key k (map fst p)
    | None => map fst p
    end.
Proof.
  unfold Search.price_step, price_key.
  destruct (Date it) as [date| | | |]; try reflexivity.
  destruct (truthy (Price it) && truthy (Quantity it)); [|reflexivity].
  cbn [andb]. destruct (get date p) eqn:G.
  - destruct (Search.shadowed pq date); cbn [negb]; [reflexivity|].
    symmetry. apply add_key_present. now apply (get_Some_keys date t).
  - destruct (Search.shadowed pq date); cbn [negb]; [reflexivity|].
    apply keys_set.
Qed.

Lemma priceByDate_keys (pq : jsval) (results : list item) :
  map fst (Search.priceByDate pq results)
  = first_seen (keys_of (price_key pq) results).
Proof.
  unfold Search.priceByDate.
  rewrite (fold_keys _ _ (price_key pq) (keys_price_step pq)).
  now rewrite fold_optional_keys.
Qed.

Lemma priceByDate_get (pq : jsval) (d : string) (l : list item)
      (p : obj Search.PricePoint.t) :
  Search.shadowed pq d = false ->
  get d (fold_left (Search.price_step pq) l p)
  = match get d p with
    | Some e => Some e
    | None => match find (priced_on d) l with
              | Some it => Some (Search.PricePoint.mk d (Price it))
              | None => None
              end
    end.
Proof.
  intros S. revert p. induction l as [|x l IH]; intros p; simpl.
  - now destruct (get d p).
  - rewrite IH, (get_price_step pq d p x S).
    destruct (get d p); [reflexivity|].
    now destruct (priced_on d x).
Qed.

Lemma priceByDate_NoDup (pq : jsval) (results : list item) :
  NoDup (map fst (Search.priceByDate pq results)).
Proof. rewrite priceByDate_keys. apply first_seen_NoDup. Qed.

Lemma priceByDate_entry (pq : jsval) (results : list item) (k : string)
      (e : Search.PricePoint.t) :
  In (k, e) (Search.priceByDate pq results) ->
  Search.shadowed pq k = false
  /\ exists it, find (priced_on k) results = Some it
                /\ e = Search.PricePoint.mk k (Price it).
Proof.
  intros Hin.
  assert (S : Search.shadowed pq k = false).
  { assert (Hk : In k (map fst (Search.priceByDate pq results))).
    { change k with (fst (k, e)). now apply in_map. }
    rewrite priceByDate_keys, first_seen_In, keys_of_In in Hk.
    destruct Hk as (it & _ & Hk). now apply price_key_Some in Hk. }
  split; [exact S|].
  apply In_get_Some in Hin; [|apply priceByDate_NoDup].
  unfold Search.priceByDate in Hin. rewrite (priceByDate_get pq k _ _ S) in Hin.
  simpl in Hin.
  destruct (find (priced_on k) results) as [it|]; [|discriminate].
  exists it. split; [reflexivity|]. congruence.
Qed.

Lemma priceByDate_dates (pq : jsval) (results : list item) :
  map Search.PricePoint.date (map snd (Search.priceByDate pq results))
  = map fst (Search.priceByDate pq results).
Proof.
  rewrite map_map. apply map_ext_in. intros [k e] Hin.
  apply priceByDate_entry in Hin. destruct Hin as (_ & it & _ & ->). reflexivity.
Qed.

Section SearchFacts.
Variable localeCompare : string -> string -> Z.

Lemma priceArray_perm (pq : jsval) (results : list item) :
  Permutation (Search.priceArray localeCompare pq results)
              (map snd (Search.priceByDate pq results)).
Proof.
  unfold Search.priceArray. rewrite Array_sort_perm. apply Object_values_perm.
Qed.

Lemma priceArray_dates (pq : jsval) (results : list item) :
  Permutation
    (map Search.PricePoint.date (Search.priceArray localeCompare pq results))
    (first_seen (keys_of (price_key pq) results)).
Proof.
  rewrite (Permutation_map _ (priceArray_perm pq results)).
  now rewrite priceByDate_dates, priceByDate_keys.
Qed.

Lemma historyArray_perm (h : obj Search.History.t) :
  Permutation (Search.historyArray localeCompare h) (map snd h).
Proof.
  unfold Search.historyArray. rewrite Array_sort_perm. apply Object_values_perm.
Qed.

(** C9: searching with a term that is empty or all white space returns
    the state as it was: results, total, purchase history and price history
    are unchanged. *)
Theorem handleSearch_blank_term (st : Search.state) :
  all_space (Search.searchTerm st) = true ->
  Search.handleSearch localeCompare st = st
  /\ Search.searchResults (Search.handleSearch localeCompare st)
     = Search.searchResults st
  /\ Search.totalSpent (Search.handleSearch localeCompare st)
     = Search.totalSpent st
  /\ Search.purchaseHistory (Search.handleSearch localeCompare st)
     = Search.purchaseHistory st
  /\ Search.priceHistory (Search.handleSearch localeCompare st)
     = Search.priceHistory st.
Proof.
  intros H. unfold Search.handleSearch.
  rewrite (trim_blank _ H). simpl. repeat split.
Qed.

(** A search with a term that is not blank. *)
Lemma handleSearch_run (st : Search.state) :
  all_space (Search.searchTerm st) = false ->
  Search.handleSearch localeCompare st
  = match Search.historyByDate (Search.protoQuantity st) (results_of st) with
    | (pq, Some h) =>
        Search.mkState (Search.data st) (Search.searchTerm st) (results_of st)
                       (sum_of (map Total (results_of st)))
                       (Search.historyArray localeCompare h)
                       (Search.priceArray localeCompare pq (results_of st))
                       (Search.loading st) pq
    | (pq, None) =>
        Search.mkState (Search.data st) (Search.searchTerm st) (results_of st)
                       (sum_of (map Total (results_of st)))
                       (Search.purchaseHistory st) (Search.priceHistory st)
                       (Search.loading st) pq
    end.
Proof.
  intros H. unfold Search.handleSearch.
  destruct (String.eqb_spec (trim (Search.searchTerm st)) "") as [E|E].
  - now apply trim_not_blank in H.
  - cbv zeta. rewrite sum_of_totals. reflexivity.
Qed.

Lemma handleSearch_results (st : Search.state) :
  all_space (Search.searchTerm st) = false ->
  Search.searchResults (Search.handleSearch localeCompare st) = results_of st
  /\ Search.totalSpent (Search.handleSearch localeCompare st)
     = sum_of (map Total (results_of st))
  /\ Search.data (Search.handleSearch localeCompare st) = Search.data st
  /\ Search.searchTerm (Search.handleSearch localeCompare st)
     = Search.searchTerm st
  /\ Search.loading (Search.handleSearch localeCompare st) = Search.loading st
  /\ Search.protoQuantity (Search.handleSearch localeCompare st)
     = fst (Search.historyByDate (Search.protoQuantity st) (results_of st)).
Proof.
  intros H. rewrite (handleSearch_run st H).
  destruct (Search.historyByDate (Search.protoQuantity st) (results_of st))
    as [pq [h|]]; repeat split.
Qed.

Lemma handleSearch_completed (st : Search.state) :
  all_space (Search.searchTerm st) = false ->
  search_completes st = true ->
  exists h,
    Search.historyByDate (Search.protoQuantity st) (results_of st)
    = (Search.protoQuantity (Search.handleSearch localeCompare st), Some h)
    /\ h = fold_left history_entry_step (results_of st) []
    /\ Search.purchaseHistory (Search.handleSearch localeCompare st)
       = Search.historyArray localeCompare h
    /\ Search.priceHistory (Search.handleSearch localeCompare st)
       = Search.priceArray localeCompare
           (Search.protoQuantity (Search.handleSearch localeCompare st))
           (results_of st).
Proof.
  intros H Hc. rewrite (handleSearch_run st H). unfold search_completes in Hc.
  destruct (Search.historyByDate (Search.protoQuantity st) (results_of st))
    as [pq [h|]] eqn:E; [|discriminate].
  exists h. split; [reflexivity|]. split; [|split; reflexivity].
  now apply historyByDate_entries in E.
Qed.
End SearchFacts.

Lemma search_milk_example (collate : string -> string -> Z)
      (s1 c1 q1 u1 p1 s2 c2 q2 u2 p2 : jsval) (st : Search.state) :
  Search.data st = milk_records s1 c1 q1 u1 p1 s2 c2 q2 u2 p2 ->
  Search.searchTerm st = "milk" ->
  List.length (Search.searchResults (Search.handleSearch collate st)) = 2%nat
  /\ Search.totalSpent (Search.handleSearch collate st) = 7.5%float
  /\ List.length (Search.purchaseHistory (Search.handleSearch collate st)) = 2%nat.
Proof.
  intros Hdata Hterm.
  assert (Hres : results_of st = milk_records s1 c1 q1 u1 p1 s2 c2 q2 u2 p2).
  { unfold results_of. rewrite Hdata, Hterm. reflexivity. }
  assert (Hblank : all_space (Search.searchTerm st) = false)
    by (rewrite Hterm; reflexivity).
  destruct (handleSearch_results collate st Hblank) as (H1 & H2 & _).
  rewrite H1, H2, Hres. split; [reflexivity|]. split; [reflexivity|].
  assert (Hc : search_completes st = true).
  { unfold search_completes. rewrite Hres.
    destruct (historyByDate_completes (Search.protoQuantity st)
                (milk_records s1 c1 q1 u1 p1 s2 c2 q2 u2 p2))
      as (pq' & h' & E).
    - intros it [<-|[<-|[]]]; discriminate.
    - now rewrite E. }
  destruct (handleSearch_completed collate st Hblank Hc) as (h & _ & Hh & Hp & _).
  rewrite Hp, (Permutation_length (historyArray_perm collate h)), length_map.
  rewrite <- (length_map fst), Hh, history_entries_keys, Hres. reflexivity.
Qed.

Section SearchResults.
Variable localeCompare : string -> string -> Z.

(** C7: with a term that is not blank, the results are the records of the
    data, in order, whose Item contains the term whatever the case, and the
    total spent is the sum of their Total; the two milk records give two
    results, 7.50 spent and two days of purchase history. *)
Theorem handleSearch_matching_records (st : Search.state) :
  all_space (Search.searchTerm st) = false ->
  Search.searchResults (Search.handleSearch localeCompare st)
  = filter (Search.matches (toLowerCase (Search.searchTerm st))) (Search.data st)
  /\ (forall it,
         Search.matches (toLowerCase (Search.searchTerm st)) it = true <->
         truthy (Item it) = true
         /\ contains_ci (Search.searchTerm st) (ToString (Item it)))
  /\ (forall it s,
         Item it = VStr s ->
         (In it (Search.searchResults (Search.handleSearch localeCompare st)) <->
          In it (Search.data st) /\ contains_ci (Search.searchTerm st) s))
  /\ Search.totalSpent (Search.handleSearch localeCompare st)
     = sum_of (map Total (Search.searchResults (Search.handleSearch localeCompare st)))
  /\ (forall s1 c1 q1 u1 p1 s2 c2 q2 u2 p2 st0,
         Search.data st0 = milk_records s1 c1 q1 u1 p1 s2 c2 q2 u2 p2 ->
         Search.searchTerm st0 = "milk" ->
         List.length (Search.searchResults (Search.handleSearch localeCompare st0))
         = 2%nat
         /\ Search.totalSpent (Search.handleSearch localeCompare st0) = 7.5%float
         /\ List.length (Search.purchaseHistory (Search.handleSearch localeCompare st0))
            = 2%nat).
Proof.
  intros Hterm.
  assert (Hne : Search.searchTerm st <> "").
  { intros E. rewrite E in Hterm. discriminate. }
  destruct (handleSearch_results localeCompare st Hterm) as (H1 & H2 & _).
  rewrite H1, H2. unfold results_of.
  split; [reflexivity|].
  split.
  { intros it. unfold Search.matches, contains_ci.
    now rewrite andb_true_iff, includes_substring_of. }
  split.
  { intros it s Hs. rewrite filter_In, (matches_string _ s it Hne Hs).
    reflexivity. }
  split; [reflexivity|].
  intros s1 c1 q1 u1 p1 s2 c2 q2 u2 p2 st0.
  apply search_milk_example.
Qed.

Hypothesis localeCompare_total :
  forall a b, (0 < localeCompare a b)%Z -> (localeCompare b a <= 0)%Z.
Hypothesis localeCompare_trans :
  forall a b c, (localeCompare a b <= 0)%Z -> (localeCompare b c <= 0)%Z ->
                (localeCompare a c <= 0)%Z.

(** C8, as amended: the price snapshot of a list of results has one entry
    for each date string on which some result has a Price and a Quantity
    that are both truthy (a price of zero does not count, nor an empty
    cell), and none for a date that is taken for present through
    [Object.prototype]; the price of an entry is the Price of the first such result of
    its date; the entries are in ascending order of date under the
    collation of [localeCompare]; and after a search that ran to its end
    the price history is the snapshot of the search results. *)
Theorem priceArray_first_price (pq : jsval) (results : list item) :
  NoDup (map Search.PricePoint.date (Search.priceArray localeCompare pq results))
  /\ (forall d,
         In d (map Search.PricePoint.date
                   (Search.priceArray localeCompare pq results))
         <-> Search.shadowed pq d = false
             /\ exists it, In it results /\ Date it = VStr d
                            /\ truthy (Price it) = true
                            /\ truthy (Quantity it) = true)
  /\ (forall e,
         In e (Search.priceArray localeCompare pq results) ->
         exists it, find (priced_on (Search.PricePoint.date e)) results = Some it
                    /\ Search.PricePoint.price e = Price it)
  /\ StronglySorted
       (fun a b => (localeCompare (Search.PricePoint.date a)
                                  (Search.PricePoint.date b) <= 0)%Z)
       (Search.priceArray localeCompare pq results)
  /\ (forall st,
         all_space (Search.searchTerm st) = false ->
         search_completes st = true ->
         Search.priceHistory (Search.handleSearch localeCompare st)
         = Search.priceArray localeCompare
             (Search.protoQuantity (Search.handleSearch localeCompare st))
             (Search.searchResults (Search.handleSearch localeCompare st))).
Proof.
  pose proof (priceArray_dates localeCompare pq results) as Hdates.
  split; [|split; [|split; [|split]]].
  - apply (Permutation_NoDup (Permutation_sym Hdates)), first_seen_NoDup.
  - intros d.
    transitivity (In d (first_seen (keys_of (price_key pq) results))).
    { split; apply Permutation_in; [exact Hdates|now apply Permutation_sym]. }
    rewrite first_seen_In, keys_of_In. split.
    + intros (it & Hin & H). apply price_key_Some in H.
      split; [tauto|]. exists it. tauto.
    + intros (S & it & Hin & H). exists it. split; [exact Hin|].
      apply price_key_Some. tauto.
  - intros e Hin.
    apply (Permutation_in _ (priceArray_perm localeCompare pq results)) in Hin.
    apply in_map_iff in Hin. destruct Hin as [[k e'] [<- Hin]].
    apply priceByDate_entry in Hin. destruct Hin as (_ & it & Hfind & ->).
    now exists it.
  - apply (sort_by_collation _ localeCompare Search.PricePoint.date);
      [exact localeCompare_total|exact localeCompare_trans].
  - intros st Hterm Hc.
    destruct (handleSearch_completed localeCompare st Hterm Hc)
      as (h & _ & _ & _ & Hp).
    rewrite Hp. now rewrite (proj1 (handleSearch_results localeCompare st Hterm)).
Qed.
End SearchResults.

Lemma handleSearch_blank_term_witness :
  all_space (Search.searchTerm searched_before) = true
  /\ Search.handleSearch codeUnitCompare searched_before = searched_before.
Proof.
  split; [reflexivity|].
  apply (handleSearch_blank_term codeUnitCompare searched_before).
  reflexivity.
Defined.

Lemma handleSearch_matching_records_witness :
  all_space (Search.searchTerm (searching "Milk" week)) = false
  /\ Search.searchResults (Search.handleSearch codeUnitCompare (searching "Milk" week))
     = filter (Search.matches "milk") week.
Proof.
  split; [reflexivity|].
  exact (proj1 (handleSearch_matching_records codeUnitCompare
                  (searching "Milk" week) eq_refl)).
Defined.

Lemma priceArray_first_price_witness :
  Search.shadowed VUndefined "2025-01-05" = false
  /\ In "2025-01-05"
        (map Search.PricePoint.date
             (Search.priceArray codeUnitCompare VUndefined
                                (filter (Search.matches "milk") week)))
  /\ StronglySorted
       (fun a b => (codeUnitCompare (Search.PricePoint.date a)
                                    (Search.PricePoint.date b) <= 0)%Z)
       (Search.priceArray codeUnitCompare VUndefined
                          (filter (Search.matches "milk") week)).
Proof.
  destruct (priceArray_first_price codeUnitCompare
              codeUnitCompare_total codeUnitCompare_trans VUndefined
              (filter (Search.matches "milk") week)) as (_ & H2 & _ & H4 & _).
  split; [reflexivity|]. split; [|exact H4].
  apply (proj2 (H2 "2025-01-05")). split; [reflexivity|].
  eexists. split; [right; left; reflexivity|]. repeat split.
Defined.

(** C8, as stated, fails on a free sample: its Price, a zero, and its
    Quantity are both there, and the snapshot has no entry for its date. *)
Lemma snapshot_covers_present_counterexample :
  ~ snapshot_covers_present
      (Search.priceArray codeUnitCompare VUndefined free_sample) free_sample.
Proof.
  intros H.
  apply (H (line "2025-01-07" "Market" "Promo" "Milk sample" 1 0 0) "2025-01-07");
    try reflexivity.
  now left.
Qed.

(** * Further properties of the pipelines *)

(** ** The purchase history *)

Section PurchaseHistory.
Variable localeCompare : string -> string -> Z.

Lemma historyArray_dates (results : list item) :
  Permutation
    (map Search.History.date
         (Search.historyArray localeCompare
            (fold_left history_entry_step results [])))
    (first_seen (keys_of date_key results)).
Proof.
  rewrite (Permutation_map _ (historyArray_perm localeCompare _)).
  now rewrite history_entries_dates, history_entries_keys.
Qed.

Lemma historyArray_entry (results : list item) (e : Search.History.t) :
  In e (Search.historyArray localeCompare
          (fold_left history_entry_step results [])) ->
  get (Search.History.date e) (fold_left history_entry_step results []) = Some e
  /\ inherited (Search.History.date e) = false.
Proof.
  intros Hin. apply (Permutation_in _ (historyArray_perm localeCompare _)) in Hin.
  apply in_map_iff in Hin. destruct Hin as [[k e'] [<- Hin]].
  apply history_entries_entry in Hin. destruct Hin as (Hget & Hd & I).
  simpl. rewrite Hd. now split.
Qed.

Hypothesis localeCompare_total :
  forall a b, (0 < localeCompare a b)%Z -> (localeCompare b a <= 0)%Z.
Hypothesis localeCompare_trans :
  forall a b c, (localeCompare a b <= 0)%Z -> (localeCompare b c <= 0)%Z ->
                (localeCompare a c <= 0)%Z.

(** X10: when the history loop runs to its end, the purchase history has
    one entry for each distinct date among the results whose Date is a
    string that [Object.prototype] does not answer to, and none for the
    others; the entries are in ascending order of date under the collation
    of [localeCompare]; there are at most as many entries as results. *)
Theorem purchaseHistory_days (pq pq' : jsval) (results : list item)
        (h : obj Search.History.t) :
  Search.historyByDate pq results = (pq', Some h) ->
  NoDup (map Search.History.date (Search.historyArray localeCompare h))
  /\ (forall d,
         In d (map Search.History.date (Search.historyArray localeCompare h))
         <-> inherited d = false
             /\ exists it, In it results /\ Date it = VStr d)
  /\ StronglySorted
       (fun a b => (localeCompare (Search.History.date a)
                                  (Search.History.date b) <= 0)%Z)
       (Search.historyArray localeCompare h)
  /\ (List.length (Search.historyArray localeCompare h)
      <= List.length results)%nat.
Proof.
  intros E. apply historyByDate_entries in E. subst h.
  split; [|split; [|split]].
  - apply (Permutation_NoDup (Permutation_sym (historyArray_dates results))).
    apply first_seen_NoDup.
  - intros d.
    transitivity (In d (first_seen (keys_of date_key results))).
    { split; apply Permutation_in;
        [apply historyArray_dates|apply Permutation_sym, historyArray_dates]. }
    rewrite first_seen_In, keys_of_In. split.
    + intros (it & Hin & H). apply date_key_Some in H.
      split; [tauto|]. exists it. tauto.
    + intros (I & it & Hin & H). exists it. split; [exact Hin|].
      now apply date_key_Some.
  - apply (sort_by_collation _ localeCompare Search.History.date);
      [exact localeCompare_total|exact localeCompare_trans].
  - rewrite <- (length_map Search.History.date).
    rewrite (Permutation_length (historyArray_dates results)), first_seen_length.
    transitivity (List.length (keys_of date_key results)).
    + apply NoDup_incl_length; [apply NoDup_nodup|].
      intros k Hk. now apply nodup_In in Hk.
    + unfold keys_of. clear. induction results as [|x l IH]; simpl; [lia|].
      rewrite length_app. destruct (date_key x); simpl; lia.
Qed.
End PurchaseHistory.

Lemma purchaseHistory_days_witness :
  StronglySorted
    (fun a b => (codeUnitCompare (Search.History.date a)
                                 (Search.History.date b) <= 0)%Z)
    (Search.historyArray codeUnitCompare (fold_left history_entry_step week [])).
Proof.
  apply (purchaseHistory_days codeUnitCompare
           codeUnitCompare_total codeUnitCompare_trans VUndefined VUndefined week).
  vm_compute. reflexivity.
Defined.

(** X11: when the history loop runs to its end, the total of a day of the
    purchase history is the sum of the Total of the results of that day,
    added in the order of the results as doubles. *)
Theorem purchaseHistory_amounts (localeCompare : string -> string -> Z)
        (pq pq' : jsval) (results : list item) (h : obj Search.History.t)
        (e : Search.History.t) :
  Search.historyByDate pq results = (pq', Some h) ->
  In e (Search.historyArray localeCompare h) ->
  Search.History.total e
  = sum_of (map Total (filter (on_date (Search.History.date e)) results)).
Proof.
  intros E Hin. apply historyByDate_entries in E. subst h.
  apply historyArray_entry in Hin. destruct Hin as [Hin I].
  pose proof (history_total (Search.History.date e) results [] I) as H.
  rewrite Hin in H. exact H.
Qed.

Lemma purchaseHistory_amounts_witness :
  (3.5 + 0.1 + 6)%float
  = sum_of (map Total (filter (on_date "2025-01-05")
                              (filter (Search.matches "milk") week))).
Proof.
  apply (purchaseHistory_amounts codeUnitCompare VUndefined VUndefined
           (filter (Search.matches "milk") week)
           (fold_left history_entry_step (filter (Search.matches "milk") week) [])
           (Search.History.mk "2025-01-05" (VNum 5) (3.5 + 0.1 + 6))).
  - vm_compute. reflexivity.
  - vm_compute. left. reflexivity.
Defined.

Lemma hqty_history_step (d : string) (h : obj Search.History.t) (it : item) :
  inherited d = false ->
  hqty (get d (history_entry_step h it))
  = if on_date d it
    then js_add (hqty (get d h)) (Search.quantity_or_1 it)
    else hqty (get d h).
Proof.
  intros I. rewrite (get_history_entry_step d h it I).
  destruct (on_date d it); [|reflexivity].
  now destruct (get d h).
Qed.

Lemma quantity_or_1_number (it : item) :
  text_quantity it = false ->
  forall q, js_add (VNum q) (Search.quantity_or_1 it)
            = VNum (q + quantity_number it).
Proof.
  unfold text_quantity, quantity_number, Search.quantity_or_1, truthy.
  intros H q. destruct (Quantity it) as [s|n|b| |]; simpl.
  - rewrite H. reflexivity.
  - now destruct (negb (falsy_number n)).
  - now destruct b.
  - reflexivity.
  - reflexivity.
Qed.

Lemma quantity_or_1_text (it : item) :
  text_quantity it = true ->
  exists s, Search.quantity_or_1 it = VStr s.
Proof.
  unfold text_quantity, Search.quantity_or_1, truthy.
  destruct (Quantity it) as [s|n|b| |]; try discriminate.
  intros ->. now exists s.
Qed.

Lemma js_add_text_l (s : string) (v : jsval) : exists s', js_add (VStr s) v = VStr s'.
Proof. destruct v; simpl; eauto. Qed.

Lemma js_add_text_r (v : jsval) (s : string) : exists s', js_add v (VStr s) = VStr s'.
Proof. destruct v; simpl; eauto. Qed.

Lemma history_quantity_number (d : string) (l : list item)
      (h : obj Search.History.t) (q0 : float) :
  inherited d = false ->
  hqty (get d h) = VNum q0 ->
  (forall it, In it l -> on_date d it = true -> text_quantity it = false) ->
  hqty (get d (fold_left history_entry_step l h))
  = VNum (fold_left PrimFloat.add (map quantity_number (filter (on_date d) l)) q0).
Proof.
  intros I. revert h q0. induction l as [|x l IH]; intros h q0 H0 Hall.
  - exact H0.
  - cbn [fold_left filter]. destruct (on_date d x) eqn:E.
    + cbn [map fold_left]. apply IH.
      * rewrite (hqty_history_step d h x I), E, H0.
        apply quantity_or_1_number, Hall; [now left|exact E].
      * intros it Hin. apply Hall. now right.
    + apply IH.
      * rewrite (hqty_history_step d h x I), E. exact H0.
      * intros it Hin. apply Hall. now right.
Qed.

Lemma history_quantity_stays_text (d : string) (l : list item)
      (h : obj Search.History.t) (s : string) :
  inherited d = false ->
  hqty (get d h) = VStr s ->
  exists s', hqty (get d (fold_left history_entry_step l h)) = VStr s'.
Proof.
  intros I. revert h s. induction l as [|x l IH]; intros h s H0; simpl; [eauto|].
  destruct (on_date d x) eqn:E.
  - destruct (js_add_text_l s (Search.quantity_or_1 x)) as [s' Hs'].
    apply (IH _ s'). now rewrite (hqty_history_step d h x I), E, H0.
  - apply (IH _ s). now rewrite (hqty_history_step d h x I), E.
Qed.

Lemma history_quantity_text (d : string) (l : list item)
      (h : obj Search.History.t) :
  inherited d = false ->
  (exists it, In it l /\ on_date d it = true /\ text_quantity it = true) ->
  exists s, hqty (get d (fold_left history_entry_step l h)) = VStr s.
Proof.
  intros I. revert h. induction l as [|x l IH]; intros h (it & Hin & Hd & Ht); simpl.
  - destruct Hin.
  - destruct Hin as [->|Hin].
    + destruct (quantity_or_1_text it Ht) as [s Hs].
      destruct (js_add_text_r (hqty (get d h)) s) as [s' Hs'].
      apply (history_quantity_stays_text d l _ s' I).
      now rewrite (hqty_history_step d h it I), Hd, Hs.
    + apply IH. now exists it.
Qed.

(** X12: when the history loop runs to its end, the quantity of a day of
    the purchase history is the sum of the quantities of the results of
    that day, a result without a quantity (an empty cell, a zero) counting
    for 1, as long as no quantity of that day is a piece of text; from the
    first quantity that is text on, the quantity of the day is a string. *)
Theorem purchaseHistory_quantities (localeCompare : string -> string -> Z)
        (pq pq' : jsval) (results : list item) (h : obj Search.History.t)
        (e : Search.History.t) :
  Search.historyByDate pq results = (pq', Some h) ->
  In e (Search.historyArray localeCompare h) ->
  ((forall it, In it results -> on_date (Search.History.date e) it = true ->
               text_quantity it = false) ->
   exists q, Search.History.quantity e = VNum q
             /\ q = sum_of (map quantity_number
                                (filter (on_date (Search.History.date e)) results)))
  /\ ((exists it, In it results /\ on_date (Search.History.date e) it = true
                  /\ text_quantity it = true) ->
      exists s, Search.History.quantity e = VStr s)
  /\ (forall it, truthy (Quantity it) = false -> quantity_number it = 1%float).
Proof.
  intros E Hin. apply historyByDate_entries in E. subst h.
  apply historyArray_entry in Hin. destruct Hin as [Hin I].
  split; [|split].
  - intros Hall.
    pose proof (history_quantity_number (Search.History.date e) results [] 0
                                        I eq_refl Hall) as Hq.
    rewrite Hin in Hq. simpl in Hq. eexists. split; [exact Hq|reflexivity].
  - intros Hex.
    destruct (history_quantity_text (Search.History.date e) results [] I Hex)
      as [s Hs].
    rewrite Hin in Hs. now exists s.
  - intros it Hq. unfold quantity_number, Search.quantity_or_1.
    now rewrite Hq.
Qed.

Lemma purchaseHistory_quantities_witness :
  (exists q, VNum 5 = VNum q
             /\ q = sum_of (map quantity_number (filter (on_date "2025-01-05") week)))
  /\ exists s, Search.History.quantity
                 (Search.History.mk "2025-01-06" (VStr "1two") 12) = VStr s.
Proof.
  split.
  - refine (proj1 (purchaseHistory_quantities codeUnitCompare
                     VUndefined VUndefined week
                     (fold_left history_entry_step week [])
                     (Search.History.mk "2025-01-05" (VNum 5) (3.5 + 0.1 + 6))
                     _ _) _).
    + vm_compute. reflexivity.
    + vm_compute. left. reflexivity.
    + intros it Hin _. simpl in Hin.
      repeat (destruct Hin as [<-|Hin]; [reflexivity|]). destruct Hin.
  - refine (proj1 (proj2 (purchaseHistory_quantities codeUnitCompare
                            VUndefined VUndefined week_with_text
                            (fold_left history_entry_step week_with_text [])
                            (Search.History.mk "2025-01-06" (VStr "1two") 12)
                            _ _)) _).
    + vm_compute. reflexivity.
    + vm_compute. right. left. reflexivity.
    + eexists.
      split; [unfold week_with_text; apply in_or_app; right; left; reflexivity|].
      split; reflexivity.
Defined.

(** ** The price snapshot and the purchase history *)

(** X13: when the history loop runs to its end, every date of the price
    history is a date of the purchase history, and the price history is no
    longer than the purchase history. *)
Theorem priceHistory_within_purchaseHistory
        (localeCompare : string -> string -> Z)
        (pq pq' : jsval) (results : list item) (h : obj Search.History.t) :
  Search.historyByDate pq results = (pq', Some h) ->
  incl (map Search.PricePoint.date (Search.priceArray localeCompare pq' results))
       (map Search.History.date (Search.historyArray localeCompare h))
  /\ (List.length (Search.priceArray localeCompare pq' results)
      <= List.length (Search.historyArray localeCompare h))%nat.
Proof.
  intros E. apply historyByDate_entries in E. subst h.
  assert (Hincl : incl (map Search.PricePoint.date
                            (Search.priceArray localeCompare pq' results))
                       (map Search.History.date
                            (Search.historyArray localeCompare
                               (fold_left history_entry_step results [])))).
  { intros d Hd.
    apply (Permutation_in _ (priceArray_dates localeCompare pq' results)) in Hd.
    apply (Permutation_in _ (Permutation_sym (historyArray_dates localeCompare results))).
    rewrite first_seen_In, keys_of_In in *.
    destruct Hd as (it & Hin & Hk). exists it. split; [exact Hin|].
    apply price_key_Some in Hk. destruct Hk as (Hd & _ & _ & S).
    apply date_key_Some. split; [exact Hd|].
    unfold Search.shadowed in S. now apply orb_false_iff in S. }
  split; [exact Hincl|].
  rewrite <- (length_map Search.PricePoint.date),
          <- (length_map Search.History.date).
  apply NoDup_incl_length; [|exact Hincl].
  apply (Permutation_NoDup
           (Permutation_sym (priceArray_dates localeCompare pq' results))).
  apply first_seen_NoDup.
Qed.

Lemma priceHistory_within_purchaseHistory_witness :
  (List.length (Search.priceArray codeUnitCompare VUndefined week)
   <= List.length (Search.historyArray codeUnitCompare
                     (fold_left history_entry_step week [])))%nat.
Proof.
  apply (priceHistory_within_purchaseHistory codeUnitCompare
           VUndefined VUndefined week).
  vm_compute. reflexivity.
Defined.

(** ** Searching *)

Lemma substring_of_trans (a b c : string) :
  substring_of a b -> substring_of b c -> substring_of a c.
Proof.
  intros (p1 & s1 & ->) (p2 & s2 & ->).
  exists (p2 ++ p1), (s1 ++ s2). now rewrite !append_assoc.
Qed.

Lemma filter_filter_implied (A : Type) (f g : A -> bool) (l : list A) :
  (forall x, g x = true -> f x = true) ->
  filter g (filter f l) = filter g l.
Proof.
  intros H. induction l as [|x l IH]; simpl; [reflexivity|].
  destruct (f x) eqn:Ef; simpl.
  - now rewrite IH.
  - rewrite IH. destruct (g x) eqn:Eg; [|reflexivity].
    apply H in Eg. congruence.
Qed.

Lemma matches_narrower (t1 t2 : string) (it : item) :
  contains_ci t1 t2 ->
  Search.matches (toLowerCase t2) it = true ->
  Search.matches (toLowerCase t1) it = true.
Proof.
  unfold Search.matches, contains_ci. intros Hsub H.
  apply andb_true_iff in H. destruct H as [Ht H].
  apply andb_true_iff. split; [exact Ht|].
  apply includes_substring_of. apply includes_substring_of in H.
  now apply (substring_of_trans _ (toLowerCase t2)).
Qed.

Section Searching.
Variable localeCompare : string -> string -> Z.

(** X14: a longer term narrows the search: when the first term occurs in
    the second, whatever the case, the results for the second are the
    results for the first filtered again, so that no new record shows up and
    the order is kept. *)
Theorem search_narrows (st : Search.state) (t1 t2 : string) :
  all_space t1 = false -> all_space t2 = false ->
  contains_ci t1 t2 ->
  Search.searchResults
    (Search.handleSearch localeCompare (Search.setSearchTerm t2 st))
  = filter (Search.matches (toLowerCase t2))
           (Search.searchResults
              (Search.handleSearch localeCompare (Search.setSearchTerm t1 st)))
  /\ incl (Search.searchResults
             (Search.handleSearch localeCompare (Search.setSearchTerm t2 st)))
          (Search.searchResults
             (Search.handleSearch localeCompare (Search.setSearchTerm t1 st))).
Proof.
  intros H1 H2 Hsub.
  rewrite (proj1 (handleSearch_results localeCompare
                    (Search.setSearchTerm t1 st) H1)).
  rewrite (proj1 (handleSearch_results localeCompare
                    (Search.setSearchTerm t2 st) H2)).
  unfold results_of.
  cbn [Search.setSearchTerm Search.data Search.searchTerm].
  assert (Heq : filter (Search.matches (toLowerCase t2)) (Search.data st)
                = filter (Search.matches (toLowerCase t2))
                         (filter (Search.matches (toLowerCase t1)) (Search.data st))).
  { symmetry. apply filter_filter_implied. intros it.
    now apply matches_narrower. }
  split; [exact Heq|].
  rewrite Heq. intros it Hin. now apply filter_In in Hin.
Qed.

(** X15: a search changes neither the data, nor the term, nor the loading
    flag.  With a term that is not blank, the loop of the purchase history
    runs to its end when no result is dated [quantity], and it leaves
    [Object.prototype] as it found it when no result is dated [__proto__];
    when a TypeError stops it, the results and the total spent are those of
    the new search and the two histories those of the state before. *)
Theorem handleSearch_frame (st : Search.state) :
  Search.data (Search.handleSearch localeCompare st) = Search.data st
  /\ Search.searchTerm (Search.handleSearch localeCompare st) = Search.searchTerm st
  /\ Search.loading (Search.handleSearch localeCompare st) = Search.loading st
  /\ (all_space (Search.searchTerm st) = false ->
      ((forall it, In it (results_of st) -> Date it <> VStr "quantity") ->
       search_completes st = true)
      /\ ((forall it, In it (results_of st) -> Date it <> VStr "__proto__") ->
          Search.protoQuantity (Search.handleSearch localeCompare st)
          = Search.protoQuantity st)
      /\ (search_completes st = false ->
          Search.searchResults (Search.handleSearch localeCompare st)
          = results_of st
          /\ Search.totalSpent (Search.handleSearch localeCompare st)
             = sum_of (map Total (results_of st))
          /\ Search.purchaseHistory (Search.handleSearch localeCompare st)
             = Search.purchaseHistory st
          /\ Search.priceHistory (Search.handleSearch localeCompare st)
             = Search.priceHistory st)).
Proof.
  destruct (all_space (Search.searchTerm st)) eqn:E.
  - assert (H : Search.handleSearch localeCompare st = st).
    { unfold Search.handleSearch. now rewrite (trim_blank _ E). }
    rewrite !H. split; [reflexivity|]. split; [reflexivity|].
    split; [reflexivity|]. discriminate.
  - destruct (handleSearch_results localeCompare st E)
      as (H1 & H2 & H3 & H4 & H5 & H6).
    split; [exact H3|]. split; [exact H4|]. split; [exact H5|].
    intros _. split; [|split].
    + intros Hall. unfold search_completes.
      destruct (historyByDate_completes (Search.protoQuantity st)
                  (results_of st) Hall) as (pq' & h & ->).
      reflexivity.
    + intros Hall. rewrite H6. now apply history_loop_clean.
    + intros Hc. split; [exact H1|]. split; [exact H2|].
      rewrite (handleSearch_run localeCompare st E).
      unfold search_completes in Hc.
      destruct (Search.historyByDate (Search.protoQuantity st) (results_of st))
        as [pq [h|]]; [discriminate|]. split; reflexivity.
Qed.
End Searching.

Lemma search_narrows_witness :
  incl (Search.searchResults
          (Search.handleSearch codeUnitCompare
             (Search.setSearchTerm "Whole Milk" (searching "" week))))
       (Search.searchResults
          (Search.handleSearch codeUnitCompare
             (Search.setSearchTerm "MILK" (searching "" week)))).
Proof.
  apply (search_narrows codeUnitCompare (searching "" week) "MILK" "Whole Milk").
  - reflexivity.
  - reflexivity.
  - exists "whole ", "". reflexivity.
Defined.

Lemma handleSearch_frame_witness :
  search_completes (searching "milk" polluting) = false
  /\ Search.purchaseHistory
       (Search.handleSearch codeUnitCompare (searching "milk" polluting))
     = []
  /\ search_completes (searching "milk" week) = true.
Proof.
  assert (Hp : search_completes (searching "milk" polluting) = false)
    by (vm_compute; reflexivity).
  destruct (handleSearch_frame codeUnitCompare (searching "milk" polluting))
    as (_ & _ & _ & H).
  destruct (H eq_refl) as (_ & _ & Hstop).
  destruct (handleSearch_frame codeUnitCompare (searching "milk" week))
    as (_ & _ & _ & H').
  destruct (H' eq_refl) as (Hrun & _).
  split; [exact Hp|]. split.
  - exact (proj1 (proj2 (proj2 (Hstop Hp)))).
  - apply Hrun. intros it Hin.
    apply filter_In in Hin. destruct Hin as [Hin _]. simpl in Hin.
    repeat (destruct Hin as [<-|Hin]; [discriminate|]). destruct Hin.
Defined.

Lemma cleanedData_In (rows : list (list jsval)) (it : item) :
  In it (cleanedData rows) <-> exists row, In row rows /\ cleanRow row = Some it.
Proof.
  rewrite cleanedData_flat_map, in_flat_map.
  split; intros [row [Hin H]]; exists row; (split; [exact Hin|]).
  - destruct (cleanRow row) as [it'|]; [|destruct H].
    destruct H as [->|[]]. reflexivity.
  - rewrite H. now left.
Qed.

(** X16: from the file to the results: after the rows are loaded and a
    term that is not blank is searched, a record is among the results
    exactly when it is the record of an accepted row and its Item matches
    the term; there are no more results than rows. *)
Theorem search_after_load (localeCompare : string -> string -> Z)
        (rows : list (list jsval)) (term : string) (st : Search.state) :
  all_space term = false ->
  (forall it,
      In it (Search.searchResults
               (Search.handleSearch localeCompare
                  (Search.setSearchTerm term (Search.loadData rows st)))) <->
      (exists row, In row rows /\ cleanRow row = Some it)
      /\ Search.matches (toLowerCase term) it = true)
  /\ (List.length (Search.searchResults
                     (Search.handleSearch localeCompare
                        (Search.setSearchTerm term (Search.loadData rows st))))
      <= List.length rows)%nat.
Proof.
  intros Hterm.
  rewrite (proj1 (handleSearch_results localeCompare
                    (Search.setSearchTerm term (Search.loadData rows st)) Hterm)).
  unfold results_of.
  cbn [Search.setSearchTerm Search.loadData Search.data Search.searchTerm].
  split.
  - intros it. now rewrite filter_In, cleanedData_In.
  - transitivity (List.length (cleanedData rows)); [apply filter_length_le|].
    rewrite cleanedData_flat_map. clear.
    induction rows as [|row rows IH]; simpl; [lia|].
    rewrite length_app. destruct (cleanRow row); simpl; lia.
Qed.

Lemma search_after_load_witness :
  In (mkItem (VStr "2025-01-05") (VStr "Market") (VStr "Dairy")
             (VStr "Whole Milk") (VNum 1) (VStr "gal") (VNum 3.5) 3.5)
     (Search.searchResults
        (Search.handleSearch codeUnitCompare
           (Search.setSearchTerm "milk"
              (Search.loadData [row_short; row_long; row_text_total]
                               Search.initial)))).
Proof.
  apply (proj1 (search_after_load codeUnitCompare
                  [row_short; row_long; row_text_total] "milk" Search.initial
                  eq_refl)).
  split; [|reflexivity].
  exists row_long. split; [right; left; reflexivity|reflexivity].
Defined.

(** ** What the search view shows *)

Lemma details_of_None (results : list item) :
  View.details_of results = None <->
  exists it, In it results /\ forall q, Price it <> VNum q.
Proof.
  induction results as [|x l IH]; simpl.
  - split; [discriminate|]. intros (it & [] & _).
  - unfold View.detail_of, View.formatCurrency_cell.
    destruct (Price x) as [s|q|b| |] eqn:E;
      try (split; [intros _; exists x; split; [now left|congruence]|reflexivity]).
    destruct (View.details_of l) as [ds|].
    + split; [discriminate|]. intros (it & [<-|Hin] & Hq).
      * exfalso. now apply (Hq q).
      * assert (Hn : Some ds = None) by (apply IH; now exists it).
        discriminate.
    + split; [|reflexivity]. intros _.
      destruct (proj1 IH eq_refl) as (it & Hin & Hq).
      exists it. split; [now right|exact Hq].
Qed.

Lemma details_of_length (results : list item) (ds : list View.Detail.t) :
  View.details_of results = Some ds -> List.length ds = List.length results.
Proof.
  revert ds. induction results as [|x l IH]; simpl; intros ds.
  - now intros [= <-].
  - destruct (View.detail_of x); [|discriminate].
    destruct (View.details_of l) as [ds'|]; [|discriminate].
    intros [= <-]. simpl. now rewrite (IH ds').
Qed.

(** X17: the results view cannot be drawn (a TypeError) exactly when the
    Price of some result is not a number; when it is drawn, it shows the
    number of results, one details row for each of them, and an average
    price that is the total spent over the number of results, a division
    whose divisor is never zero. *)
Theorem renderResults_figures (st : Search.state) :
  (View.renderResults st = None <->
   exists it, In it (Search.searchResults st) /\ forall q, Price it <> VNum q)
  /\ (forall n spent avg chart details,
         View.renderResults st = Some (View.Found n spent avg chart details) ->
         n = List.length (Search.searchResults st)
         /\ (0 < n)%nat
         /\ List.length details = n
         /\ spent = View.formatCurrency (Search.totalSpent st)
         /\ avg = View.formatCurrency
                    (Search.totalSpent st / Number_of_nat n)%float).
Proof.
  unfold View.renderResults.
  destruct (Search.searchResults st) as [|x l] eqn:E.
  - simpl. split.
    + split.
      * destruct (negb (Search.searchTerm st =? "")%string); discriminate.
      * intros (it & [] & _).
    + intros n spent avg chart details.
      destruct (negb (Search.searchTerm st =? "")%string); discriminate.
  - change ((List.length (x :: l) =? 0)%nat) with false.
    cbn [andb]. rewrite <- details_of_None. split.
    + destruct (View.details_of (x :: l)); [split; discriminate|tauto].
    + intros n spent avg chart details.
      destruct (View.details_of (x :: l)) as [ds|] eqn:Ed; [|discriminate].
      intros [= <- <- <- _ <-].
      pose proof (details_of_length (x :: l) ds Ed) as Hlen.
      repeat split; simpl in *; lia.
Qed.

Lemma renderResults_figures_witness :
  View.renderResults
    (Search.handleSearch codeUnitCompare (searching "sample" week_with_gap))
  = None.
Proof.
  apply (proj1 (renderResults_figures
                  (Search.handleSearch codeUnitCompare
                     (searching "sample" week_with_gap)))).
  eexists. split; [right; left; reflexivity|].
  intros q. discriminate.
Defined.

Section SearchView.
Variable localeCompare : string -> string -> Z.

(** X18: after a search with a term that is not blank the view is never
    empty: without a match it reports that nothing was found for the term.
    A term made of spaces only is not searched, yet, with no earlier
    results, the view reports that nothing was found for it; only the empty
    term with no results shows nothing. *)
Theorem renderResults_states (st : Search.state) :
  (all_space (Search.searchTerm st) = false ->
   View.renderResults (Search.handleSearch localeCompare st) <> Some View.Blank
   /\ (Search.searchResults (Search.handleSearch localeCompare st) = [] ->
       View.renderResults (Search.handleSearch localeCompare st)
       = Some (View.NoResults (Search.searchTerm st))))
  /\ (all_space (Search.searchTerm st) = true ->
      Search.searchTerm st <> "" ->
      Search.searchResults st = [] ->
      Search.handleSearch localeCompare st = st
      /\ View.renderResults (Search.handleSearch localeCompare st)
         = Some (View.NoResults (Search.searchTerm st)))
  /\ (Search.searchTerm st = "" ->
      Search.searchResults st = [] ->
      View.renderResults (Search.handleSearch localeCompare st) = Some View.Blank).
Proof.
  split; [|split].
  - intros Hterm.
    assert (Hne : (Search.searchTerm st =? "")%string = false).
    { apply String.eqb_neq. intros E. rewrite E in Hterm. discriminate. }
    destruct (handleSearch_results localeCompare st Hterm)
      as (H1 & _ & _ & H4 & _).
    unfold View.renderResults. rewrite H1, H4, Hne. cbn [negb].
    destruct (results_of st) as [|x l].
    + split; [discriminate|reflexivity].
    + change ((List.length (x :: l) =? 0)%nat) with false. cbn [andb].
      split; [|discriminate].
      destruct (View.details_of (x :: l)); discriminate.
  - intros Hblank Hne Hres.
    assert (H : Search.handleSearch localeCompare st = st).
    { unfold Search.handleSearch. now rewrite (trim_blank _ Hblank). }
    rewrite H. split; [reflexivity|].
    unfold View.renderResults. rewrite Hres.
    apply String.eqb_neq in Hne. now rewrite Hne.
  - intros Hterm Hres.
    assert (H : Search.handleSearch localeCompare st = st).
    { unfold Search.handleSearch. now rewrite Hterm. }
    rewrite H. unfold View.renderResults. now rewrite Hres, Hterm.
Qed.
End SearchView.

Lemma renderResults_states_witness :
  View.renderResults
    (Search.handleSearch codeUnitCompare (searching "tofu" week))
  = Some (View.NoResults "tofu")
  /\ View.renderResults
       (Search.handleSearch codeUnitCompare (searching "  " week))
     = Some (View.NoResults "  ")
  /\ View.renderResults (Search.handleSearch codeUnitCompare Search.initial)
     = Some View.Blank.
Proof.
  split; [|split].
  - apply (proj1 (renderResults_states codeUnitCompare (searching "tofu" week)));
      reflexivity.
  - apply (proj1 (proj2 (renderResults_states codeUnitCompare
                           (searching "  " week))));
      [reflexivity|discriminate|reflexivity].
  - apply (proj2 (proj2 (renderResults_states codeUnitCompare Search.initial)));
      reflexivity.
Defined.

(** ** The dashboard of no data *)

Lemma cleanedData_nil (rows : list (list jsval)) :
  (forall row, In row rows -> cleanRow row = None) -> cleanedData rows = [].
Proof.
  intros H. rewrite cleanedData_flat_map.
  induction rows as [|row rows IH]; simpl; [reflexivity|].
  rewrite (H row (or_introl eq_refl)). simpl. apply IH.
  intros r Hin. apply H. now right.
Qed.

(** X20: a file without any accepted row, the empty file included, gives
    the dashboard of no data: no record, no row in any summary, no top
    item, a spend of zero over zero trips and an average per trip that is
    NaN. *)
Theorem processData_nothing_accepted (localeCompare : string -> string -> Z)
        (rows : list (list jsval)) :
  (forall row, In row rows -> cleanRow row = None) ->
  processData localeCompare rows
  = mkDashboard [] [] [] [] [] (Overall.mk 0 nan 0 0).
Proof.
  intros H. unfold processData. rewrite (cleanedData_nil rows H). reflexivity.
Qed.

Lemma processData_nothing_accepted_witness :
  processData codeUnitCompare [row_short; row_text_total; []]
  = mkDashboard [] [] [] [] [] (Overall.mk 0 nan 0 0).
Proof.
  apply (processData_nothing_accepted codeUnitCompare).
  intros row [<-|[<-|[<-|[]]]]; reflexivity.
Defined.

(** ** The rows of the summaries *)






(** ** The monthly summary *)

(** The one member of [Object.prototype] that a month key can read. *)
Lemma short_inherited (k : string) :
  inherited k = true -> (String.length k <= 7)%nat -> k = "valueOf".
Proof.
  intros I L. destruct (inherited_cases k I) as [->|F].
  - simpl in L. lia.
  - unfold is_inherited_function in F. apply existsb_eqb_In in F.
    simpl in F.
    repeat (destruct F as [<-|F]; [first [reflexivity|simpl in L; lia]|]).
    destruct F.
Qed.

(** X7: the amount of a month row is the sum of the Total of the records
    of that month, added in record order as doubles (a sum that has come to
    zero or [NaN] starting again from 0); the one exception is a month key
    that reads [valueOf], whose amount is a text. *)
Theorem monthArray_amounts (localeCompare : string -> string -> Z)
        (cleaned : list item) (e : Month.t) :
  In e (monthArray localeCompare cleaned) ->
  (Month.month e <> "valueOf" ->
   Month.spent e
   = Num (running_sum
            (map Total (filter (has_key month_key (Month.month e)) cleaned))))
  /\ (Month.month e = "valueOf" ->
      exists tail, Month.spent e = Text "valueOf" tail).
Proof.
  intros Hin. apply monthArray_In in Hin.
  rewrite months_spend_by in Hin.
  assert (Hlen : (String.length (Month.month e) <= 7)%nat).
  { assert (Hk : In (Month.month e) (map fst (spend_by month_key cleaned []))).
    { change (Month.month e) with (fst (Month.month e, Month.spent e)).
      now apply in_map. }
    apply spend_by_keys_In in Hk. destruct Hk as (_ & it & _ & Hk).
    apply month_key_Some in Hk. destruct Hk as (d & _ & _ & ->).
    apply substring_length_le. }
  split.
  - intros Hne. apply (spend_by_entry month_key cleaned _ _ Hin).
    destruct (inherited (Month.month e)) eqn:I; [|reflexivity].
    exfalso. apply Hne. now apply short_inherited.
  - intros Hv. rewrite Hv in Hin.
    now apply (spend_by_entry_function month_key cleaned "valueOf").
Qed.

Lemma monthArray_amounts_witness :
  let e := Month.mk "2025-02" (Num 8) in
  Month.spent e
  = Num (running_sum (map Total (filter (has_key month_key "2025-02") two_months))).
Proof.
  intros e.
  apply (proj1 (monthArray_amounts codeUnitCompare two_months e
                  (or_intror (or_introl eq_refl)))).
  discriminate.
Defined.

(** ** The top items *)

Lemma StronglySorted_app_order (A : Type) (R : A -> A -> Prop) (l1 l2 : list A) :
  StronglySorted R (l1 ++ l2) ->
  forall a b, In a l1 -> In b l2 -> R a b.
Proof.
  induction l1 as [|x l1 IH]; simpl; intros Hs a b Ha Hb; [destruct Ha|].
  apply StronglySorted_inv in Hs. destruct Hs as [Hs Hall].
  destruct Ha as [<-|Ha].
  - rewrite Forall_forall in Hall. apply Hall, in_or_app. now right.
  - now apply IH.
Qed.

Lemma items_entry_not_CRV (cleaned : list item) (e : string * Stats.t) :
  In e (items cleaned) ->
  negb (strict_eq_str (Stats.category (snd e)) "CRV") = true.
Proof.
  destruct e as [k s]. intros Hin.
  pose proof (items_entry_name cleaned k s Hin) as I.
  apply In_get_Some in Hin; [|apply items_NoDup].
  apply (items_category k cleaned [] s I) in Hin. simpl in Hin.
  destruct Hin as (it & _ & Hp & Hc). simpl. rewrite Hc.
  unfold purchase_of, isCRV in Hp. apply andb_true_iff in Hp. tauto.
Qed.

(** The sorted table of all the items, before the cut to ten. *)
Lemma itemArray_firstn (cleaned : list item) :
  itemArray cleaned
  = firstn 10 (Array_sort by_count_desc
                          (map top_of (Object_entries (items cleaned)))).
Proof.
  unfold itemArray. rewrite filter_all_In; [reflexivity|].
  intros e Hin. apply (items_entry_not_CRV cleaned).
  now apply (Permutation_in _ (Object_entries_perm _)).
Qed.

Lemma ranked_names (cleaned : list item) :
  Permutation
    (map TopItem.name
         (Array_sort by_count_desc (map top_of (Object_entries (items cleaned)))))
    (first_seen (keys_where not_inherited item_key cleaned)).
Proof.
  rewrite (Permutation_map TopItem.name (Array_sort_perm _ _ _)).
  rewrite map_map. rewrite (map_ext _ fst) by (now intros [k v]).
  rewrite <- items_keys. apply Permutation_map, Object_entries_perm.
Qed.

(** X8: the top items are the most frequent ones: no name is listed twice,
    all the items are listed when there are ten or fewer, and an item that
    is left out was bought no more often than any item listed; items whose
    name [Object.prototype] answers to are not counted at all. *)
Theorem itemArray_most_frequent (cleaned : list item) :
  NoDup (map TopItem.name (itemArray cleaned))
  /\ List.length (itemArray cleaned)
     = Nat.min 10 (List.length
                     (nodup string_dec
                            (keys_where not_inherited item_key cleaned)))
  /\ (forall k e,
         In k (keys_where not_inherited item_key cleaned) ->
         ~ In k (map TopItem.name (itemArray cleaned)) ->
         In e (itemArray cleaned) ->
         (List.length (filter (purchase_of k) cleaned) <= TopItem.count e)%nat)
  /\ (forall e, In e (itemArray cleaned) -> inherited (TopItem.name e) = false).
Proof.
  assert (Hlast : forall e, In e (itemArray cleaned) ->
                            inherited (TopItem.name e) = false).
  { intros e Hin. destruct (itemArray_entry cleaned e Hin) as (s & Hs & _).
    now apply (items_entry_name cleaned _ s). }
  rewrite itemArray_firstn in *.
  set (ranked := Array_sort by_count_desc
                            (map top_of (Object_entries (items cleaned)))) in *.
  assert (Hnames : Permutation (map TopItem.name ranked)
                               (first_seen (keys_where not_inherited item_key cleaned)))
    by apply ranked_names.
  split; [|split; [|split; [|exact Hlast]]].
  - assert (Hnd : NoDup (map TopItem.name ranked)).
    { apply (Permutation_NoDup (Permutation_sym Hnames)), first_seen_NoDup. }
    rewrite <- (firstn_skipn 10 ranked), map_app in Hnd.
    now apply NoDup_app_remove_r in Hnd.
  - rewrite length_firstn. f_equal.
    rewrite <- first_seen_length, <- (Permutation_length Hnames).
    now rewrite length_map.
  - intros k e Hk Hout He.
    assert (I : inherited k = false).
    { apply keys_where_In in Hk. destruct Hk as [Hk _].
      unfold not_inherited in Hk. now apply negb_true_iff in Hk. }
    assert (Hkey : In k (map fst (items cleaned)))
      by (rewrite items_keys; now apply first_seen_In).
    apply in_map_iff in Hkey. destruct Hkey as [[k' s] [Hfst Hin]].
    simpl in Hfst. subst k'.
    assert (Hranked : In (top_of (k, s)) ranked).
    { apply (Permutation_in _ (Permutation_sym (Array_sort_perm _ _ _))).
      apply in_map. now apply (Permutation_in _ (Permutation_sym (Object_entries_perm _))). }
    rewrite <- (firstn_skipn 10 ranked) in Hranked.
    apply in_app_or in Hranked. destruct Hranked as [Hfirst|Hrest].
    { exfalso. apply Hout. change k with (TopItem.name (top_of (k, s))).
      now apply in_map. }
    pose proof (sorted_by_count (map top_of (Object_entries (items cleaned)))) as Hs.
    fold ranked in Hs. rewrite <- (firstn_skipn 10 ranked) in Hs.
    pose proof (StronglySorted_app_order _ _ _ _ Hs e (top_of (k, s)) He Hrest) as Hle.
    simpl in Hle.
    apply In_get_Some in Hin; [|apply items_NoDup].
    pose proof (items_count k cleaned [] I) as Hc.
    unfold items in Hin. rewrite Hin in Hc. simpl in Hc. lia.
Qed.

Lemma itemArray_most_frequent_witness :
  In "Kale" (keys_where not_inherited item_key eleven_items)
  /\ ~ In "Kale" (map TopItem.name (itemArray eleven_items))
  /\ (List.length (filter (purchase_of "Kale") eleven_items)
      <= TopItem.count (TopItem.mk "Apples" 2 2 (VStr "Produce") "1.00"))%nat.
Proof.
  assert (Hk : In "Kale" (keys_where not_inherited item_key eleven_items))
    by (vm_compute; tauto).
  assert (Hout : ~ In "Kale" (map TopItem.name (itemArray eleven_items))).
  { intros H. vm_compute in H.
    repeat (destruct H as [H|H]; [discriminate|]). exact H. }
  split; [exact Hk|]. split; [exact Hout|].
  apply (proj1 (proj2 (proj2 (itemArray_most_frequent eleven_items)))
               "Kale" _ Hk Hout).
  vm_compute. left. reflexivity.
Defined.

(** ** The trip summary *)

(** X9: there are never more trips than records, and no trip at all
    exactly when every record has a date that [Object.prototype] answers
    to, as when there is no record; with no record the average per trip is
    NaN and is shown as $NaN. *)
Theorem trip_summary_edges (cleaned : list item) :
  (Overall.totalTrips (stats cleaned) <= Overall.totalItems (stats cleaned))%nat
  /\ (Overall.totalTrips (stats cleaned) = 0%nat <->
      forall it, In it cleaned -> inherited (ToString (Date it)) = true)
  /\ (cleaned = [] ->
      Overall.avgPerTrip (stats cleaned) = nan
      /\ View.formatCurrency (Overall.avgPerTrip (stats cleaned)) = "$NaN").
Proof.
  split; [|split].
  - rewrite totalTrips_first_seen, first_seen_length.
    unfold stats. simpl.
    rewrite <- (length_map (fun it => ToString (Date it)) cleaned).
    transitivity (List.length
                    (filter not_inherited
                            (map (fun it => ToString (Date it)) cleaned)));
      [|apply filter_length_le].
    apply NoDup_incl_length; [apply NoDup_nodup|].
    intros k Hk. now apply nodup_In in Hk.
  - rewrite totalTrips_first_seen. split.
    + intros H it Hin. apply length_zero_iff_nil in H.
      destruct (inherited (ToString (Date it))) eqn:I; [reflexivity|].
      assert (Hk : In (ToString (Date it))
                      (first_seen (filter not_inherited
                                     (map (fun it => ToString (Date it)) cleaned)))).
      { apply first_seen_In, filter_In. split.
        - now apply (in_map (fun it => ToString (Date it))).
        - unfold not_inherited. now rewrite I. }
      rewrite H in Hk. destruct Hk.
    + intros Hall.
      replace (filter not_inherited (map (fun it => ToString (Date it)) cleaned))
        with (@nil string); [reflexivity|].
      symmetry. clear -Hall. induction cleaned as [|x l IH]; [reflexivity|].
      cbn [map filter]. unfold not_inherited at 1.
      rewrite (Hall x (or_introl eq_refl)). cbn [negb].
      apply IH. intros it Hin. apply Hall. now right.
  - intros ->. split; reflexivity.
Qed.

Lemma trip_summary_edges_witness :
  Overall.totalTrips (stats constructor_date) = 0%nat
  /\ Overall.avgPerTrip (stats []) = nan.
Proof.
  split.
  - apply (proj2 (proj1 (proj2 (trip_summary_edges constructor_date)))).
    intros it [<-|[]]. reflexivity.
  - apply (proj2 (proj2 (trip_summary_edges []))). reflexivity.
Defined.
